(** * PyRush: a shallow embedding of the load-execution engine

    The development follows the Python sources:
    - [pyrush/models.py]    : [RequestResult];
    - [pyrush/requestor.py] : [make_request] and [worker];
    - [pyrush/core.py]      : [StressTester.run_test] (queue set-up, the
                              ramp of the step load and the cut of a
                              duration-capped run) and
                              [StressTester.generate_statistics];
    - [pyrush/config.py]    : [parse_duration], [parse_headers_from_args],
                              [parse_auth_from_args] and
                              [create_test_config_from_args].

    Conventions of the embedding.
    - Python [int] is [Z]; request IDs and lengths are [nat].
    - Python [float] values (response times, time stamps) are exact
      rationals [Q]: rounding of binary floating point is not modelled.
      A number stored in the statistics dict is kept by its value, as a
      [Q], whether Python holds it as an [int] or as a [float].
    - Python [str] is [string], except the text searched by the body
      assertion and the strings of the command line read by
      [config.py], which are lists of Unicode code points, and the
      error message of a result, which is kept as the data it is built
      from.
    - A Python [dict] is a [gmap]; a function that may raise returns an
      [option] ([None] is the raised exception).
    - What the world answers to a request (the clock, the files, the
      HTTP layer) is an input of the step that ends the request. *)

From Stdlib Require Import QArith Qround Qreals Reals Psatz Lia Sorted Ascii.
From Stdlib.Strings Require Import Byte.
From stdpp Require Import gmap strings list fin_maps.

Local Open Scope Z_scope.

(** ** Python built-ins on lists of floats *)

Module Py.

(** [a < b] on floats. *)
Definition Qltb (a b : Q) : bool := negb (Qle_bool b a).

(** [min(l)]: the first smallest item; [ValueError] on an empty list. *)
Definition min (l : list Q) : option Q :=
  match l with
  | [] => None
  | x :: xs => Some (foldl (fun best item => if Qltb item best then item else best) x xs)
  end.

(** [max(l)]: the first largest item; [ValueError] on an empty list. *)
Definition max (l : list Q) : option Q :=
  match l with
  | [] => None
  | x :: xs => Some (foldl (fun best item => if Qltb best item then item else best) x xs)
  end.

(** [sum(l)]. *)
Definition sum (l : list Q) : Q := foldl Qplus (0 : Q) l.

(** [sorted(l)]: a stable sort; insertion from the right keeps equal
    items in their order of appearance. *)
Fixpoint insert_sorted (x : Q) (l : list Q) : list Q :=
  match l with
  | [] => [x]
  | y :: l' => if Qle_bool x y then x :: y :: l' else y :: insert_sorted x l'
  end.

Definition sorted (l : list Q) : list Q := foldr insert_sorted [] l.

(** [l[i]] for a Python index [i], negative indices counting from the
    end; [IndexError] out of range. *)
Definition index {A} (l : list A) (i : Z) : option A :=
  if Z.ltb i 0
  then (if Z.ltb (i + Z.of_nat (length l)) 0 then None
        else l !! Z.to_nat (i + Z.of_nat (length l)))
  else l !! Z.to_nat i.

(** Truth value of an optional float: neither [None] nor [0.0]. *)
Definition truthy (t : option Q) : bool :=
  match t with Some q => negb (Qeq_bool q 0) | None => false end.

(** [a / b] on floats: [ZeroDivisionError] when [b] is zero. *)
Definition div (a b : Q) : option Q :=
  if Qeq_bool b 0 then None else Some (a / b)%Q.

End Py.

(** ** The [statistics] module of the Python standard library *)

Module statistics.

(** [statistics.mean(data)]: exact sum over the number of items;
    [StatisticsError] on empty data. *)
Definition mean (data : list Q) : option Q :=
  match data with
  | [] => None
  | _ => Some (Py.sum data / inject_Z (Z.of_nat (length data)))%Q
  end.

(** [statistics.median(data)]. *)
Definition median (data : list Q) : option Q :=
  let data := Py.sorted data in
  let n := Z.of_nat (length data) in
  if Z.eqb n 0 then None
  else if Z.eqb (n mod 2) 1 then Py.index data (n / 2)
  else
    let i := n / 2 in
    a ← Py.index data (i - 1);
    b ← Py.index data i;
    Some ((a + b) / 2)%Q.

(** The sum of squared deviations from the mean, as an exact fraction. *)
Definition ss (data : list Q) (c : Q) : Q :=
  Py.sum (map (fun x => (x - c) * (x - c))%Q data).

(** [statistics.variance(data)]: the sample variance, divisor [n - 1];
    [StatisticsError] with fewer than two items. *)
Definition variance (data : list Q) : option Q :=
  let n := Z.of_nat (length data) in
  if Z.ltb n 2 then None
  else
    c ← mean data;
    Some (ss data c / inject_Z (n - 1))%Q.

(** The value returned by [math.sqrt] on an exact rational: the radicand
    is kept, its meaning is the real square root [sqrt_value]. *)
Inductive root := Sqrt (radicand : Q).

Definition sqrt_value (r : root) : R :=
  match r with Sqrt q => sqrt (Q2R q) end.

(** [statistics.stdev(data)]: the square root of [variance]. *)
Definition stdev (data : list Q) : option root :=
  v ← variance data; Some (Sqrt v).

(** One cut point of [statistics.quantiles(data, n=n)] with the default
    [method='exclusive']; [data] is already sorted and [ld] its length. *)
Definition exclusive_cut (data : list Q) (ld n i : Z) : option Q :=
  let m := ld + 1 in
  let j := i * m / n in
  let j := if Z.ltb j 1 then 1 else if Z.ltb (ld - 1) j then ld - 1 else j in
  let delta := i * m - j * n in
  a ← Py.index data (j - 1);
  b ← Py.index data j;
  Some ((a * inject_Z (n - delta) + b * inject_Z delta) / inject_Z n)%Q.

(** [statistics.quantiles(data, n=n)]: the [n - 1] cut points;
    [StatisticsError] when [n < 1] or with fewer than two data points. *)
Definition quantiles (data : list Q) (n : Z) : option (list Q) :=
  if Z.ltb n 1 then None
  else
    let data := Py.sorted data in
    let ld := Z.of_nat (length data) in
    if Z.ltb ld 2 then None
    else mapM (exclusive_cut data ld n) (seqZ 1 (n - 1)).

End statistics.

(** ** [pyrush/models.py] *)

(** Unicode text, as the list of its code points (the result of
    [bytes.decode] and the operand of the body assertion). *)
Definition text := list N.

(** The [error] string of a [RequestResult], kept as the data its
    f-string in [make_request] is built from:
    - [FileError e]         is [f"File error: {e}"];
    - [AssertStatus a s]    is [f"Assert status {a} failed (got {s})"];
    - [AssertBody t]        is [f"Assert body contains '{t}' failed"];
    - [AssertMaxRT m rt]    is
      [f"Assert max response time {m}s failed (got {rt:.3f}s)"];
    - [Exc msg]             is [str(e)] of a caught exception. *)
Inductive Error :=
  | FileError (e : string)
  | AssertStatus (expected got : Z)
  | AssertBody (needle : text)
  | AssertMaxRT (limit got : Q)
  | Exc (msg : string).

(** The kinds of the error taxonomy. *)
Inductive ErrorKind :=
  | KFile | KAssertStatus | KAssertBody | KAssertMaxRT | KException.

Definition kind (e : Error) : ErrorKind :=
  match e with
  | FileError _ => KFile
  | AssertStatus _ _ => KAssertStatus
  | AssertBody _ => KAssertBody
  | AssertMaxRT _ _ => KAssertMaxRT
  | Exc _ => KException
  end.

(** [@dataclass class RequestResult]; the defaults [error=None] and
    [response_size=0] are written out where a result is built. *)
Record RequestResult := mkRequestResult {
  url : string;
  method : string;
  status_code : Z;
  response_time : Q;
  timestamp : Q;
  error : option Error;
  response_size : Z
}.

(** [r.error is None] *)
Definition succeeded (r : RequestResult) : bool :=
  match error r with None => true | Some _ => false end.

(** ** [pyrush/core.py]: the state of [StressTester] *)

Record StressTester := mkStressTester {
  (* configuration read by the request path *)
  urls : list string;
  config_method : string;
  config_num_requests : nat;
  config_concurrency : nat;
  config_rate_limit : option Q;
  config_duration : option Q;
  config_data : option string;
  config_data_file : option string;
  form : list string;
  form_file : list string;
  assert_status : option Z;
  assert_body_contains : option text;
  assert_max_rt : option Q;
  (* collected by the run *)
  results : list RequestResult;
  start_time : option Q;
  end_time : option Q;
  dns_times : list Q;
  connect_times : list Q;
  response_sizes : list Z
}.

(** [StressTester.__init__] (lines 32-62), with the fields of the
    [TestConfig] that the model reads. *)
Definition init (urls : list string) (method : string)
    (num_requests concurrency : nat) (rate_limit duration : option Q)
    (data data_file : option string) : StressTester :=
  mkStressTester urls method num_requests concurrency rate_limit duration
    data data_file [] [] None None None [] None None [] [] [].

(** [cli.main], lines 183-185: the assertion settings. *)
Definition set_assertions (status : option Z) (body : option text)
    (max_rt : option Q) (tester : StressTester) : StressTester :=
  mkStressTester (urls tester) (config_method tester)
    (config_num_requests tester) (config_concurrency tester)
    (config_rate_limit tester) (config_duration tester)
    (config_data tester) (config_data_file tester) (form tester) (form_file tester)
    status body max_rt
    (results tester) (start_time tester) (end_time tester)
    (dns_times tester) (connect_times tester) (response_sizes tester).

(** ** [pyrush/requestor.py]: [make_request] *)

(** [bytes.decode(errors='ignore')] with the default UTF-8 codec: every
    well-formed UTF-8 sequence yields its code point, every byte that is
    not part of one is dropped. *)
Module utf8.

Definition between (lo x hi : N) : bool := (N.leb lo x && N.leb x hi)%bool.
Definition cont (c : N) : bool := between 0x80 c 0xBF.

Definition two_ok (c0 c1 : N) : bool := (between 0xC2 c0 0xDF && cont c1)%bool.

Definition three_ok (c0 c1 c2 : N) : bool :=
  (cont c2 &&
   ((N.eqb c0 0xE0 && between 0xA0 c1 0xBF) ||
    (between 0xE1 c0 0xEC && cont c1) ||
    (N.eqb c0 0xED && between 0x80 c1 0x9F) ||
    (between 0xEE c0 0xEF && cont c1)))%bool.

Definition four_ok (c0 c1 c2 c3 : N) : bool :=
  (cont c2 && cont c3 &&
   ((N.eqb c0 0xF0 && between 0x90 c1 0xBF) ||
    (between 0xF1 c0 0xF3 && cont c1) ||
    (N.eqb c0 0xF4 && between 0x80 c1 0x8F)))%bool.

Definition low6 (c : N) : N := (c - 0x80)%N.

Fixpoint decode (bs : list Byte.byte) : text :=
  match bs with
  | [] => []
  | b0 :: r0 =>
    let c0 := Byte.to_N b0 in
    if N.ltb c0 0x80 then c0 :: decode r0
    else
      match r0 with
      | [] => decode r0
      | b1 :: r1 =>
        let c1 := Byte.to_N b1 in
        if two_ok c0 c1
        then ((c0 - 0xC0) * 64 + low6 c1)%N :: decode r1
        else
          match r1 with
          | [] => decode r0
          | b2 :: r2 =>
            let c2 := Byte.to_N b2 in
            if three_ok c0 c1 c2
            then ((c0 - 0xE0) * 4096 + low6 c1 * 64 + low6 c2)%N :: decode r2
            else
              match r2 with
              | [] => decode r0
              | b3 :: r3 =>
                let c3 := Byte.to_N b3 in
                if four_ok c0 c1 c2 c3
                then ((c0 - 0xF0) * 262144 + low6 c1 * 4096
                      + low6 c2 * 64 + low6 c3)%N :: decode r3
                else decode r0
              end
          end
      end
  end.

End utf8.

(** [needle in hay] on text. *)
Fixpoint startswith (needle hay : text) : bool :=
  match needle, hay with
  | [], _ => true
  | _ :: _, [] => false
  | a :: needle', b :: hay' => (N.eqb a b && startswith needle' hay')%bool
  end.

Fixpoint contains (needle hay : text) : bool :=
  (startswith needle hay ||
   match hay with
   | [] => false
   | _ :: hay' => contains needle hay'
   end)%bool.

(** ['=' in f] and [f.split('=', 1)]: the text before and after the
    first ['='], if there is one. *)
Fixpoint split_eq (f : string) : option (string * string) :=
  match f with
  | EmptyString => None
  | String c f' =>
    if Ascii.eqb c "="%char then Some (EmptyString, f')
    else '(k, v) ← split_eq f'; Some (String c k, v)
  end.

(** What the world answers to one call of [make_request]. *)

(** [open(path)]: the content, or the message of the exception. *)
Inductive File :=
  | Readable (content : list Byte.byte)
  | Unreadable (e : string).

(** The errors of the HTTP layer; all are subclasses of [Exception]. *)
Inductive Failure :=
  | DNSFailure | ConnectRefused | TLSError | Timeout | ReadError | OtherException.

(** [session.request(...)] followed by [response.read()]: a status and
    the whole body, or an exception with the text of [str(e)]. *)
Inductive Http :=
  | Response (status : Z) (data : list Byte.byte)
  | Raised (why : Failure) (msg : string).

Record Attempt := mkAttempt {
  at_start : Q;                 (* [time.time()] on entry *)
  at_elapsed : Q;               (* [time.time() - start_time] at the end *)
  at_files : string -> File;
  at_http : Http
}.

(** Truth value of an optional string: neither [None] nor empty. *)
Definition nonempty_str (o : option string) : bool :=
  match o with
  | Some EmptyString | None => false
  | Some _ => true
  end.

(** Lines 52-65: the uploads are opened in order; the message of the
    first [open] that raises. *)
Fixpoint open_form_files (files : string -> File) (l : list string)
    : option string :=
  match l with
  | [] => None
  | f :: l' =>
    match split_eq f with
    | Some (_, path) =>
      match files path with
      | Unreadable e => Some e
      | Readable _ => open_form_files files l'
      end
    | None => open_form_files files l'
    end
  end.

(** Lines 39-78: how the preparation of the request ends. *)
Inductive Prepared :=
  | Ready
  | EarlyReturn (e : string)    (* line 58: [return RequestResult(...)] *)
  | Raises (e : string).        (* an exception for line 133 *)

Definition prepare (tester : StressTester) (files : string -> File) : Prepared :=
  match form tester, form_file tester with
  | [], [] =>
    if nonempty_str (config_data tester) then Ready
    else if nonempty_str (config_data_file tester) then
      match files (default EmptyString (config_data_file tester)) with
      | Readable _ => Ready
      | Unreadable e => Raises e
      end
    else Ready
  | _, _ =>
    match open_form_files files (form_file tester) with
    | Some e => EarlyReturn e
    | None => Ready
    end
  end.

(** Lines 96-113: the assertions; each failed check overwrites [error].
    The [except] of line 108 is dead code: decoding with
    [errors='ignore'] does not raise. *)
Definition check_status (tester : StressTester) (status : Z)
    (error : option Error) : option Error :=
  match assert_status tester with
  | Some expected =>
    if Z.eqb status expected then error
    else Some (AssertStatus expected status)
  | None => error
  end.

Definition check_body (tester : StressTester) (data : list Byte.byte)
    (error : option Error) : option Error :=
  match assert_body_contains tester with
  | Some (c :: needle) =>
    let body_str := utf8.decode data in
    if contains (c :: needle) body_str then error
    else Some (AssertBody (c :: needle))
  | _ => error
  end.

Definition check_max_rt (tester : StressTester) (response_time : Q)
    (error : option Error) : option Error :=
  match assert_max_rt tester with
  | Some limit =>
    if Py.Qltb limit response_time
    then Some (AssertMaxRT limit response_time)
    else error
  | None => error
  end.

Definition assertions (tester : StressTester) (status : Z)
    (data : list Byte.byte) (response_time : Q) : option Error :=
  check_max_rt tester response_time
    (check_body tester data
      (check_status tester status None)).

Definition append_response_size (tester : StressTester) (size : Z) : StressTester :=
  mkStressTester (urls tester) (config_method tester)
    (config_num_requests tester) (config_concurrency tester)
    (config_rate_limit tester) (config_duration tester)
    (config_data tester) (config_data_file tester) (form tester) (form_file tester)
    (assert_status tester) (assert_body_contains tester) (assert_max_rt tester)
    (results tester) (start_time tester) (end_time tester)
    (dns_times tester) (connect_times tester) (response_sizes tester ++ [size]).

(** [make_request]: the result, and the tester with the response size
    recorded (line 121). The locals [dns_time] and [connect_time] stay
    [None], so lines 117-120 append nothing. *)
Definition make_request (tester : StressTester) (att : Attempt)
    (url method : string) : RequestResult * StressTester :=
  let timestamp := at_start att in
  match prepare tester (at_files att) with
  | EarlyReturn e =>
    (mkRequestResult url method 0 0 timestamp (Some (FileError e)) 0, tester)
  | Raises e =>
    (mkRequestResult url method 0 (at_elapsed att) timestamp (Some (Exc e)) 0, tester)
  | Ready =>
    match at_http att with
    | Response status response_data =>
      let response_time := at_elapsed att in
      let error := assertions tester status response_data response_time in
      let size := Z.of_nat (length response_data) in
      (mkRequestResult url method status response_time timestamp error size,
       append_response_size tester size)
    | Raised _ msg =>
      (mkRequestResult url method 0 (at_elapsed att) timestamp (Some (Exc msg)) 0,
       tester)
    end
  end.

(** ** [pyrush/requestor.py]: [worker], and the queue of [run_test] *)

(** [asyncio.Queue]: the items in FIFO order and the counter of
    unfinished tasks that [put] increments and [task_done] decrements. *)
Record Queue := mkQueue {
  items : list (option nat);
  unfinished_tasks : nat
}.

Definition put (q : Queue) (item : option nat) : Queue :=
  mkQueue (items q ++ [item]) (S (unfinished_tasks q)).

(** [task_done()]: [ValueError] when called more times than there were
    items placed in the queue. *)
Definition task_done (q : Queue) : option Queue :=
  match unfinished_tasks q with
  | O => None
  | S n => Some (mkQueue (items q) n)
  end.

(** Lines 188-192: [finally: try: task_done() except Exception: pass]. *)
Definition finally_task_done (q : Queue) : Queue := default q (task_done q).

(** [await asyncio.wait_for(request_queue.get(), timeout=1.0)]: an item
    ([None] is the stop signal), or [asyncio.TimeoutError] after a
    second without one. *)
Inductive Got :=
  | Item (request_id : option nat)
  | TimedOut.

(** Where a worker coroutine is suspended. *)
Inductive Worker :=
  | Getting                                      (* line 162 *)
  | Pacing (request_id : nat)                    (* line 170 *)
  | Requesting (request_id : nat) (url : string) (* line 176 *)
  | Exited.

(** The exceptions that reach [except Exception] on line 185 and are
    printed after ["[WORKER ERROR] "]. *)
Inductive WorkerError := ZeroDivisionError.

(** The workers of one run and what they share. [issued] is a ghost
    field: the IDs whose result has been appended, in that order. *)
Record Pool := mkPool {
  tester : StressTester;
  request_queue : Queue;
  workers : list Worker;
  stdout : list WorkerError;
  issued : list nat
}.

(** Line 173: [urls[request_id % url_count]]; [None] is the
    [ZeroDivisionError] of an empty list. *)
Definition select_url (urls : list string) (request_id : nat) : option string :=
  let url_count := length urls in
  match url_count with
  | O => None
  | _ => urls !! (request_id mod url_count)%nat
  end.

Definition set_worker (w : nat) (st : Worker) (p : Pool) : Pool :=
  mkPool (tester p) (request_queue p) (<[w := st]> (workers p)) (stdout p) (issued p).

Definition set_queue (q : Queue) (p : Pool) : Pool :=
  mkPool (tester p) q (workers p) (stdout p) (issued p).

(** Leaving the loop: [break], then the [finally] clause. *)
Definition exit_worker (w : nat) (p : Pool) : Pool :=
  set_worker w Exited (set_queue (finally_task_done (request_queue p)) p).

(** Lines 172-176: the URL is selected and the request starts. *)
Definition start_request (w : nat) (request_id : nat) (p : Pool) : Pool :=
  match select_url (urls (tester p)) request_id with
  | Some url => set_worker w (Requesting request_id url) p
  | None =>
    exit_worker w
      (mkPool (tester p) (request_queue p) (workers p)
              (stdout p ++ [ZeroDivisionError]) (issued p))
  end.

(** Truth value of [rate_limit]. *)
Definition paced (rate_limit : option Q) : bool := Py.truthy rate_limit.

(** Lines 162-170: what a worker does with the outcome of its [get]. *)
Definition after_get (w : nat) (got : Got) (p : Pool) : Pool :=
  match got with
  | TimedOut => exit_worker w p
  | Item None => exit_worker w p
  | Item (Some request_id) =>
    if paced (config_rate_limit (tester p))
    then set_worker w (Pacing request_id) p
    else start_request w request_id p
  end.

Definition append_result (tester : StressTester) (result : RequestResult)
    : StressTester :=
  mkStressTester (urls tester) (config_method tester)
    (config_num_requests tester) (config_concurrency tester)
    (config_rate_limit tester) (config_duration tester)
    (config_data tester) (config_data_file tester) (form tester) (form_file tester)
    (assert_status tester) (assert_body_contains tester) (assert_max_rt tester)
    (results tester ++ [result]) (start_time tester) (end_time tester)
    (dns_times tester) (connect_times tester) (response_sizes tester).

(** Lines 176-181 and the [finally] clause: the request ends, its result
    is stored, the item is acknowledged, and the loop goes on. *)
Definition finish_request (w : nat) (request_id : nat) (url : string)
    (att : Attempt) (p : Pool) : Pool :=
  let '(result, tester') :=
    make_request (tester p) att url (config_method (tester p)) in
  mkPool (append_result tester' result)
         (finally_task_done (request_queue p))
         (<[w := Getting]> (workers p))
         (stdout p)
         (issued p ++ [request_id]).

(** [get] on the queue of the pool. Nothing is put while the workers
    run, so a [get] on an empty queue ends in the time-out. *)
Definition get (q : Queue) : Got * Queue :=
  match items q with
  | [] => (TimedOut, q)
  | item :: rest => (Item item, mkQueue rest (unfinished_tasks q))
  end.

(** One step of worker [w]: it runs from the point where it is suspended
    to its next suspension. [att] is what the world answers if the step
    ends a request. *)
Definition step (w : nat) (att : Attempt) (p : Pool) : Pool :=
  match workers p !! w with
  | Some Getting =>
    let '(got, q) := get (request_queue p) in
    after_get w got (set_queue q p)
  | Some (Pacing request_id) => start_request w request_id p
  | Some (Requesting request_id url) => finish_request w request_id url att p
  | Some Exited | None => p
  end.

(** A schedule: which worker runs next, and the answer of the world. *)
Definition run (schedule : list (nat * Attempt)) (p : Pool) : Pool :=
  foldl (fun p ev => step (fst ev) (snd ev) p) p schedule.

(** [run_test], lines 131-145: the queue holds the request IDs, then one
    stop signal for each worker. *)
Definition num_requests (tester : StressTester) : nat :=
  if Py.truthy (config_duration tester) then Z.to_nat 1000000
  else config_num_requests tester.

Definition queue_setup (tester : StressTester) : Queue :=
  let q := foldl (fun q i => put q (Some i)) (mkQueue [] 0)
                 (seq 0 (num_requests tester)) in
  foldl (fun q _ => put q None) q (seq 0 (config_concurrency tester)).

(** [run_test], line 85 and lines 190-196: the start time is taken and
    all workers are started at once. The step-load branch (lines
    156-187) and the cancellation of a duration-capped run (lines
    199-206) are not part of the model. *)
Definition set_times (start finish : option Q) (dns connect : list Q)
    (tester : StressTester) : StressTester :=
  mkStressTester (urls tester) (config_method tester)
    (config_num_requests tester) (config_concurrency tester)
    (config_rate_limit tester) (config_duration tester)
    (config_data tester) (config_data_file tester) (form tester) (form_file tester)
    (assert_status tester) (assert_body_contains tester) (assert_max_rt tester)
    (results tester) start finish
    (dns_times tester ++ dns) (connect_times tester ++ connect)
    (response_sizes tester).

Definition start_workers (now : Q) (tester : StressTester) : Pool :=
  let tester := set_times (Some now) (end_time tester) [] [] tester in
  mkPool tester (queue_setup tester)
         (replicate (config_concurrency tester) Getting) [] [].

(** [run_test], lines 218-224: after the workers are gathered, the last
    DNS and connection timings seen by the trace hooks, if any, are
    recorded, and the end time is taken. *)
Definition end_run (now : Q) (trace_dns trace_connect : option Q) (p : Pool)
    : StressTester :=
  set_times (start_time (tester p)) (Some now)
    (option_list trace_dns) (option_list trace_connect) (tester p).

(** No request is in flight and no ID is left in the queue. *)
Definition in_flight (st : Worker) : bool :=
  match st with
  | Pacing _ | Requesting _ _ => true
  | Getting | Exited => false
  end.

(** The ID a worker holds while it paces or waits for the answer. *)
Definition held (st : Worker) : list nat :=
  match st with
  | Pacing request_id | Requesting request_id _ => [request_id]
  | Getting | Exited => []
  end.

Definition in_flight_ids (ws : list Worker) : list nat := ws ≫= held.

(** The IDs still in the queue. *)
Definition queued_ids (q : list (option nat)) : list nat :=
  omap (fun item => item) q.

Definition drained (p : Pool) : Prop :=
  Forall (fun st => in_flight st = false) (workers p) /\
  Forall (fun item => item = None) (items (request_queue p)).

(** What the next steps read of a pool. *)
Definition shape (p : Pool) :=
  (urls (tester p), config_rate_limit (tester p), workers p,
   items (request_queue p)).

(** The number of processed IDs that select slot [j] of the URL list. *)
Definition attempts_on_slot (url_count j : nat) (ids : list nat) : nat :=
  length (filter (fun request_id => (request_id mod url_count)%nat = j) ids).

(** The number of results for URL [u]. *)
Definition attempts_on_url (u : string) (rs : list RequestResult) : nat :=
  length (filter (fun r => url r = u) rs).

(** Ceiling of [n / k]. *)
Definition ceil_div (n k : nat) : nat := ((n + k - 1) / k)%nat.

(** What holds of the pool after any schedule: each request ID of the
    run is in the queue, held by one worker, or issued, and the issued
    IDs are, in order, those of the results. *)
Record pool_inv (t : StressTester) (p : Pool) : Prop := mkPoolInv {
  inv_urls : urls (tester p) = urls t;
  inv_ids :
    issued p ++ in_flight_ids (workers p) ++ queued_ids (items (request_queue p))
    ≡ₚ seq 0 (num_requests t);
  inv_results :
    Forall2 (fun r request_id => select_url (urls t) request_id = Some (url r))
            (results (tester p)) (issued p);
  inv_stdout : stdout p = [];
  inv_requesting :
    forall w request_id u,
      workers p !! w = Some (Requesting request_id u) ->
      select_url (urls t) request_id = Some u
}.

(** ** [StressTester.generate_statistics] *)

(** The values stored in the statistics dict: a number ([int] or
    [float], by value), the square root returned by [statistics.stdev],
    or the [status_code_distribution] dict. *)
Inductive value :=
  | Num (q : Q)
  | Root (r : statistics.root)
  | Counts (d : gmap Z Z).

Definition of_len {A} (l : list A) : Q := inject_Z (Z.of_nat (length l)).

(** [self.end_time - self.start_time], evaluated only when both are set. *)
Definition elapsed (t : StressTester) : Q :=
  (default 0 (end_time t) - default 0 (start_time t))%Q.

(** Lines 243-251: the dict literal of the basic statistics. *)
Definition basic_statistics (t : StressTester)
    (successful_requests failed_requests : list RequestResult)
    : option (gmap string value) :=
  let timed := Py.truthy (end_time t) && Py.truthy (start_time t) in
  rate ← (match results t with
          | [] => Some 0%Q
          | _ => q ← Py.div (of_len successful_requests) (of_len (results t));
                 Some (q * 100)%Q
          end);
  rps ← (if timed then Py.div (of_len (results t)) (elapsed t) else Some 0%Q);
  thr ← (match response_sizes t with
         | [] => Some 0%Q
         | _ => if timed
                then Py.div (Py.sum (map inject_Z (response_sizes t))) (elapsed t)
                else Some 0%Q
         end);
  Some (<["total_requests" := Num (of_len (results t))]>
       (<["successful_requests" := Num (of_len successful_requests)]>
       (<["failed_requests" := Num (of_len failed_requests)]>
       (<["success_rate" := Num rate]>
       (<["total_duration" := Num (if timed then elapsed t else 0%Q)]>
       (<["requests_per_second" := Num rps]>
       (<["throughput_bytes_per_sec" := Num thr]> ∅))))))).

(** Lines 255-267: the dict literal passed to [stats.update] when
    [response_times] is not empty. *)
Definition response_time_statistics (response_times : list Q)
    : option (gmap string value) :=
  let n := Z.of_nat (length response_times) in
  mn ← Py.min response_times;
  mx ← Py.max response_times;
  mean ← statistics.mean response_times;
  med ← statistics.median response_times;
  std ← (if Z.ltb 1 n then Root <$> statistics.stdev response_times
         else Some (Num 0));
  p25 ← (if Z.ltb 3 n
         then q ← statistics.quantiles response_times 4; Py.index q 0
         else Py.index response_times 0);
  p50 ← (if Z.ltb 1 n
         then q ← statistics.quantiles response_times 2; Py.index q 0
         else Py.index response_times 0);
  p75 ← (if Z.ltb 3 n
         then q ← statistics.quantiles response_times 4; Py.index q 2
         else Py.index response_times (-1));
  p90 ← (if Z.ltb 9 n
         then q ← statistics.quantiles response_times 10; Py.index q 8
         else Py.max response_times);
  p95 ← (if Z.ltb 19 n
         then q ← statistics.quantiles response_times 20; Py.index q 18
         else Py.max response_times);
  p99 ← (if Z.ltb 99 n
         then q ← statistics.quantiles response_times 100; Py.index q 98
         else Py.max response_times);
  Some (<["min_response_time" := Num mn]>
       (<["max_response_time" := Num mx]>
       (<["mean_response_time" := Num mean]>
       (<["median_response_time" := Num med]>
       (<["std_response_time" := std]>
       (<["p25_response_time" := Num p25]>
       (<["p50_response_time" := Num p50]>
       (<["p75_response_time" := Num p75]>
       (<["p90_response_time" := Num p90]>
       (<["p95_response_time" := Num p95]>
       (<["p99_response_time" := Num p99]> ∅))))))))))).

(** Lines 270-272: the loop that counts status codes. *)
Definition count_status (status_codes : gmap Z Z) (result : RequestResult)
    : gmap Z Z :=
  <[status_code result := default 0 (status_codes !! status_code result) + 1]>
    status_codes.

Definition status_code_distribution (successful_requests : list RequestResult)
    : gmap Z Z :=
  foldl count_status ∅ successful_requests.

(** Lines 282-286 and 289-295: size, DNS and connection statistics. *)
Definition size_statistics (sizes : list Q) : option (gmap string value) :=
  mn ← Py.min sizes;
  mx ← Py.max sizes;
  mean ← statistics.mean sizes;
  med ← statistics.median sizes;
  Some (<["min_response_size" := Num mn]>
       (<["max_response_size" := Num mx]>
       (<["mean_response_size" := Num mean]>
       (<["median_response_size" := Num med]> ∅)))).

Definition time_statistics (mean_key max_key : string) (times : list Q)
    : option (gmap string value) :=
  mean ← statistics.mean times;
  mx ← Py.max times;
  Some (<[mean_key := Num mean]> (<[max_key := Num mx]> ∅)).

(** [if l: stats.update(d)]: nothing is added for an empty list. *)
Definition when_nonempty {A} (l : list A) (d : option (gmap string value))
    : option (gmap string value) :=
  match l with [] => Some ∅ | _ => d end.

(** [generate_statistics]. The [error_distribution] entry (lines 276-279)
    is not part of the model: its keys are the rendered error messages,
    whose text depends on the formatting of floats. [stats.update(d)]
    and [stats[k] = v] overwrite, so later entries are on the left of
    the union. *)
Definition generate_statistics (t : StressTester) : option (gmap string value) :=
  match results t with
  | [] => Some ∅
  | _ =>
    let successful_requests := filter (fun r => succeeded r = true) (results t) in
    let failed_requests := filter (fun r => succeeded r = false) (results t) in
    let response_times := map response_time successful_requests in
    stats ← basic_statistics t successful_requests failed_requests;
    rt ← when_nonempty response_times (response_time_statistics response_times);
    sz ← when_nonempty (response_sizes t)
           (size_statistics (map inject_Z (response_sizes t)));
    dns ← when_nonempty (dns_times t)
           (time_statistics "mean_dns_time" "max_dns_time" (dns_times t));
    con ← when_nonempty (connect_times t)
           (time_statistics "mean_connect_time" "max_connect_time" (connect_times t));
    Some (con ∪ (dns ∪ (sz ∪
          (<["status_code_distribution" :=
               Counts (status_code_distribution successful_requests)]>
          (rt ∪ stats)))))
  end.

(** ** Reading the statistics dict *)

Definition successful_requests (t : StressTester) : list RequestResult :=
  filter (fun r => succeeded r = true) (results t).

Definition failed_requests (t : StressTester) : list RequestResult :=
  filter (fun r => succeeded r = false) (results t).

Definition response_times (t : StressTester) : list Q :=
  map response_time (successful_requests t).

(** The clock has moved between [start_time] and [end_time], when both
    are set: the divisions of lines 249-250 do not raise. *)
Definition clock_moved (t : StressTester) : bool :=
  (negb (Py.truthy (end_time t) && Py.truthy (start_time t))
   || negb (Qeq_bool (elapsed t) 0))%bool.

(** The dict reports the number [q] under key [k]. *)
Definition reports (st : gmap string value) (k : string) (q : Q) : Prop :=
  exists q', st !! k = Some (Num q') /\ (q' == q)%Q.

(** The sum of the values of a distribution. *)
Definition total_count (d : gmap Z Z) : Z :=
  map_fold (fun _ v acc => v + acc) 0 d.

(** The smallest and the largest item of a sample. *)
Definition is_minimum (l : list Q) (m : Q) : Prop :=
  m ∈ l /\ Forall (fun x => (m <= x)%Q) l.

Definition is_maximum (l : list Q) (m : Q) : Prop :=
  m ∈ l /\ Forall (fun x => (x <= m)%Q) l.

(** ** Sample runs *)

(** Text written in ASCII. *)
Definition ascii_text (s : string) : text :=
  map Byte.to_N (String.list_byte_of_string s).

Definition no_files : string -> File := fun _ => Unreadable "No such file".

(** A request that starts at [start], takes [elapsed] seconds and gets
    the answer [http]. *)
Definition answer (start elapsed : Q) (http : Http) : Attempt :=
  mkAttempt start elapsed no_files http.

(** One worker, one URL, two requests answered 200 after 5 s and 1 s. *)
Definition run_slow_then_fast : StressTester :=
  let t := init ["http://a"] "GET" 2 1 None None None None in
  let ok5 := answer 100 5 (Response 200 []) in
  let ok1 := answer 105 1 (Response 200 []) in
  end_run 107 None None
    (run [(0%nat, ok5); (0%nat, ok5); (0%nat, ok1); (0%nat, ok1); (0%nat, ok1)]
         (start_workers 100 t)).

(** One worker, one URL, four requests answered 200 after 0, 4, 8 and
    12 s. *)
Definition run_four : StressTester :=
  let t := init ["http://a"] "GET" 4 1 None None None None in
  let ok e := (0%nat, answer 100 e (Response 200 [])) in
  end_run 125 None None
    (run [ok 0%Q; ok 0%Q; ok 4%Q; ok 4%Q; ok 8%Q; ok 8%Q; ok 12%Q; ok 12%Q; ok 0%Q]
         (start_workers 100 t)).

(** One worker, one URL, two requests answered 200 after 1 s and 3 s. *)
Definition run_one_three : StressTester :=
  let t := init ["http://a"] "GET" 2 1 None None None None in
  let ok e := (0%nat, answer 100 e (Response 200 [])) in
  end_run 105 None None
    (run [ok 1%Q; ok 1%Q; ok 3%Q; ok 3%Q; ok 0%Q] (start_workers 100 t)).

(** Scenario D of the specification: one URL that answers 500 with a
    two-byte body, [assert_status=200], three requests, one worker. *)
Definition scenario_D : StressTester :=
  let t := set_assertions (Some 200) None None
             (init ["http://a"] "GET" 3 1 None None None None) in
  let ko := (0%nat, answer 100 (1 # 100) (Response 500 [x6b; x6f])) in
  end_run 101 None None
    (run [ko; ko; ko; ko; ko; ko; ko] (start_workers 100 t)).

(** Scenario B of the specification: URLs [A; B], six requests, three
    workers; the workers finish out of order. *)
Definition scenario_B_schedule : list (nat * Attempt) :=
  let ok w := (w, answer 100 (1 # 100) (Response 200 [])) in
  [ok 0%nat; ok 1%nat; ok 2%nat; ok 2%nat; ok 1%nat; ok 0%nat;
   ok 0%nat; ok 2%nat; ok 1%nat; ok 1%nat; ok 2%nat; ok 0%nat;
   ok 0%nat; ok 1%nat; ok 2%nat].

Definition scenario_B_tester : StressTester :=
  init ["A"; "B"] "GET" 6 3 None None None None.

Definition scenario_B : Pool :=
  run scenario_B_schedule (start_workers 100 scenario_B_tester).

(** The values read by the percentile entries (lines 256-266). *)
Record Percentiles := mkPercentiles {
  v_min : Q; v_max : Q; v_mean : Q; v_median : Q; v_std : value;
  v_p25 : Q; v_p50 : Q; v_p75 : Q; v_p90 : Q; v_p95 : Q; v_p99 : Q
}.

Definition percentiles_dict (v : Percentiles) : gmap string value :=
  <["min_response_time" := Num (v_min v)]>
  (<["max_response_time" := Num (v_max v)]>
  (<["mean_response_time" := Num (v_mean v)]>
  (<["median_response_time" := Num (v_median v)]>
  (<["std_response_time" := v_std v]>
  (<["p25_response_time" := Num (v_p25 v)]>
  (<["p50_response_time" := Num (v_p50 v)]>
  (<["p75_response_time" := Num (v_p75 v)]>
  (<["p90_response_time" := Num (v_p90 v)]>
  (<["p95_response_time" := Num (v_p95 v)]>
  (<["p99_response_time" := Num (v_p99 v)]> ∅)))))))))).

Definition percentiles_of (rts : list Q) (v : Percentiles) : Prop :=
  let n := Z.of_nat (length rts) in
  Py.min rts = Some (v_min v) /\
  Py.max rts = Some (v_max v) /\
  statistics.mean rts = Some (v_mean v) /\
  statistics.median rts = Some (v_median v) /\
  (if Z.ltb 1 n then Root <$> statistics.stdev rts else Some (Num 0)) = Some (v_std v) /\
  (if Z.ltb 3 n then q ← statistics.quantiles rts 4; Py.index q 0
   else Py.index rts 0) = Some (v_p25 v) /\
  (if Z.ltb 1 n then q ← statistics.quantiles rts 2; Py.index q 0
   else Py.index rts 0) = Some (v_p50 v) /\
  (if Z.ltb 3 n then q ← statistics.quantiles rts 4; Py.index q 2
   else Py.index rts (-1)) = Some (v_p75 v) /\
  (if Z.ltb 9 n then q ← statistics.quantiles rts 10; Py.index q 8
   else Py.max rts) = Some (v_p90 v) /\
  (if Z.ltb 19 n then q ← statistics.quantiles rts 20; Py.index q 18
   else Py.max rts) = Some (v_p95 v) /\
  (if Z.ltb 99 n then q ← statistics.quantiles rts 100; Py.index q 98
   else Py.max rts) = Some (v_p99 v).

Definition response_time_keys : list string :=
  ["min_response_time"; "max_response_time"; "mean_response_time";
   "median_response_time"; "std_response_time"; "p25_response_time";
   "p50_response_time"; "p75_response_time"; "p90_response_time";
   "p95_response_time"; "p99_response_time"].

(** The results that carry status code [c]. *)
Definition with_status (c : Z) (l : list RequestResult) : list RequestResult :=
  filter (fun r => status_code r = c) l.

(** ** The percentile methods, as documented *)

(** The linear-interpolation methods in the words of the documentation
    of [statistics.quantiles]. For the [i]-th of [n] cut points of a
    sorted sample [s] of [ld] items:
    - "exclusive": the rank is [h = i * (ld + 1) / n], counted from 1;
    - "inclusive": the rank is [h = i * (ld - 1) / n], counted from 0;
    the cut point lies between the two items around rank [h], at the
    fraction [h - floor h] of the way. *)
Definition interpolate (lo hi frac : Q) : Q := (lo + frac * (hi - lo))%Q.

Definition interpolate_exclusive (s : list Q) (n i : Z) : option Q :=
  let h := (inject_Z (i * (Z.of_nat (length s) + 1)) / inject_Z n)%Q in
  let k := Qfloor h in
  if Z.ltb k 1 then None
  else
    lo ← s !! Z.to_nat (k - 1);
    hi ← s !! Z.to_nat k;
    Some (interpolate lo hi (h - inject_Z k)).

Definition interpolate_inclusive (s : list Q) (n i : Z) : option Q :=
  let h := (inject_Z (i * (Z.of_nat (length s) - 1)) / inject_Z n)%Q in
  let k := Qfloor h in
  if Z.ltb k 0 then None
  else
    lo ← s !! Z.to_nat k;
    hi ← s !! Z.to_nat (k + 1);
    Some (interpolate lo hi (h - inject_Z k)).

(** The dict reports under [key] the [i]-th of [k] cut points of the
    sorted sample [s], interpolated at the exclusive rank. *)
Definition exclusive_percentile (st : gmap string value) (s : list Q)
    (key : string) (k i : Z) : Prop :=
  exists a, interpolate_exclusive s k i = Some a /\ reports st key a.

(** The dict reports under [key] the maximum of the sample. *)
Definition maximum_percentile (st : gmap string value) (rts : list Q)
    (key : string) : Prop :=
  exists a, is_maximum rts a /\ reports st key a.

(** ** The standard deviations, as documented *)

(** The real number that a value of the dict stands for. *)
Definition number (v : value) : R :=
  match v with
  | Num q => Q2R q
  | Root r => statistics.sqrt_value r
  | Counts _ => 0%R
  end.

Definition Rsum (l : list R) : R := foldr Rplus 0%R l.

Definition Rmean (l : list R) : R := (Rsum l / INR (length l))%R.

(** The sum of the squared deviations from the mean. *)
Definition squared_deviations (l : list R) : R :=
  Rsum (map (fun x => ((x - Rmean l) * (x - Rmean l))%R) l).

(** "Sample standard deviation": the divisor is [n - 1]. *)
Definition sample_stdev (l : list R) : R :=
  sqrt (squared_deviations l / (INR (length l) - 1)).

(** "Population standard deviation": the divisor is [n]. *)
Definition population_stdev (l : list R) : R :=
  sqrt (squared_deviations l / INR (length l)).

(** ** The assertions, as documented *)

Definition status_check_fails (tester : StressTester) (status : Z) : Prop :=
  exists expected, assert_status tester = Some expected /\ status <> expected.

Definition body_check_fails (tester : StressTester) (data : list Byte.byte) : Prop :=
  exists needle,
    assert_body_contains tester = Some needle /\ needle <> [] /\
    contains needle (utf8.decode data) = false.

Definition max_rt_check_fails (tester : StressTester) (response_time : Q) : Prop :=
  exists limit, assert_max_rt tester = Some limit /\ (limit < response_time)%Q.

(** A byte that cannot start a UTF-8 sequence. *)
Definition invalid_start (c : N) : bool :=
  (utf8.between 0x80 c 0xC1 || N.leb 0xF5 c)%bool.

(** A tester that checks the status and the body, and an answer that
    fails both checks. *)
Definition tester_two_assertions : StressTester :=
  set_assertions (Some 200) (Some (ascii_text "ok")) None
    (init ["http://a"] "GET" 1 1 None None None None).

Definition answer_500_no : Attempt :=
  answer 100 (1 # 100) (Response 500 [x6e; x6f]).

(** ** The accounting of the queue *)

(** The workers that have not left their loop. *)
Definition alive (st : Worker) : bool :=
  match st with Exited => false | _ => true end.

Definition running (ws : list Worker) : nat :=
  length (filter (fun st => alive st = true) ws).

(** What holds of the queue after any schedule of a run with a URL: the
    request IDs come first, followed by one stop signal for each worker
    that is still running; no worker has left while an ID is queued;
    and the counter of unfinished tasks counts the items of the queue
    and the IDs held by the workers. *)
Record queue_inv (p : Pool) : Prop := mkQueueInv {
  qi_fifo :
    exists ids,
      items (request_queue p) = map Some ids ++ replicate (running (workers p)) None /\
      ((running (workers p) < length (workers p))%nat -> ids = []);
  qi_unfinished :
    unfinished_tasks (request_queue p)
    = (length (items (request_queue p)) + length (in_flight_ids (workers p)))%nat
}.

(** The steps a worker is away from its exit, the IDs of the queue left
    aside: one to pull the stop signal, one more to end a request, one
    more to start it after the pause. *)
Definition weight (st : Worker) : nat :=
  match st with
  | Exited => 0
  | Getting => 1
  | Requesting _ _ => 2
  | Pacing _ => 3
  end.

(** A bound on the number of steps that the workers can still take. *)
Definition measure (p : Pool) : nat :=
  (3 * length (queued_ids (items (request_queue p)))
   + sum_list (map weight (workers p)))%nat.

(** ** A pool without URLs *)

(** A worker that has taken an item of the queue and has not come back
    for another one. *)
Definition taken (st : Worker) : nat :=
  match st with Getting => 0 | _ => 1 end.

(** What holds of a pool whose URL list is empty, [n] being the number
    of request IDs of the run and [rs] the results before it. *)
Record stalled_inv (n : nat) (rs : list RequestResult) (p : Pool) : Prop :=
  mkStalledInv {
  si_results : results (tester p) = rs;
  si_idle : forall w request_id u, workers p !! w <> Some (Requesting request_id u);
  si_unfinished :
    unfinished_tasks (request_queue p) = (n + running (workers p))%nat;
  si_items :
    (length (items (request_queue p)) + sum_list (map taken (workers p))
     = n + length (workers p))%nat
}.

(** ** The sizes of the answers *)

(** A request that got an answer: its error, if any, is a failed
    assertion. *)
Definition answered (r : RequestResult) : bool :=
  match error r with
  | Some (FileError _) | Some (Exc _) => false
  | _ => true
  end.

Definition total_size (sizes : list Z) : Z := foldr Z.add 0 sizes.

(** What the workers keep of [response_sizes]. *)
Record sizes_inv (p : Pool) : Prop := mkSizesInv {
  sz_answered :
    response_sizes (tester p)
    = map response_size (filter (fun r => answered r = true) (results (tester p)));
  sz_zero :
    Forall (fun r => answered r = false -> response_size r = 0) (results (tester p))
}.

(** ** More of the statistics dict *)

(** [self.end_time and self.start_time]: both times are set, and
    neither is [0.0] (the guard of lines 248-250). *)
Definition timed (t : StressTester) : bool :=
  (Py.truthy (end_time t) && Py.truthy (start_time t))%bool.

Definition size_keys : list string :=
  ["min_response_size"; "max_response_size"; "mean_response_size";
   "median_response_size"].

Definition dns_keys : list string := ["mean_dns_time"; "max_dns_time"].

Definition connect_keys : list string := ["mean_connect_time"; "max_connect_time"].

(** ** [run_test], lines 156-187: the step load *)

(** The state of the ramp: [current_c], the number of workers created
    so far and the number of [asyncio.sleep(interval)] done. *)
Record Ramp := mkRamp {
  current_c : Z;
  created : nat;
  sleeps : nat
}.

(** Lines 161-169: [current_c = initial], and one worker for each item
    of [range(initial)]. *)
Definition start_ramp (initial : Z) : Ramp :=
  mkRamp initial (Z.to_nat initial) 0.

(** Lines 175-185: one round of the loop of [ramp_up]. *)
Definition ramp_round (max_c increment : Z) (r : Ramp) : Ramp :=
  let add := Z.min increment (max_c - current_c r) in
  mkRamp (current_c r + add) (created r + Z.to_nat add) (S (sleeps r)).

(** Lines 172-185: [ramp_up], cut after [fuel] rounds; [None] when the
    loop is still running then. *)
Fixpoint ramp_up (fuel : nat) (max_c increment : Z) (r : Ramp) : option Ramp :=
  if Z.ltb (current_c r) max_c then
    match fuel with
    | O => None
    | S fuel' => ramp_up fuel' max_c increment (ramp_round max_c increment r)
    end
  else Some r.

(** The number of rounds that take [current] to [max_c]: the ceiling of
    [(max_c - current) / increment]. *)
Definition ramp_rounds (max_c increment current : Z) : nat :=
  Z.to_nat ((max_c - current + increment - 1) / increment).

(** ** [pyrush/config.py] *)

(** The strings of the command line are Unicode text. *)

(** [sep in s] and [s.split(sep, 1)]: the text before and after the
    first [sep], if there is one. *)
Fixpoint split_once (sep : N) (s : text) : option (text * text) :=
  match s with
  | [] => None
  | c :: s' =>
    if N.eqb c sep then Some ([], s')
    else '(k, v) ← split_once sep s'; Some (c :: k, v)
  end.

Definition colon : N := 58%N.

(** [c.isspace()] on one code point. *)
Definition isspace (c : N) : bool :=
  (utf8.between 0x09 c 0x0D || utf8.between 0x1C c 0x1F || N.eqb c 0x20
   || N.eqb c 0x85 || N.eqb c 0xA0 || N.eqb c 0x1680
   || utf8.between 0x2000 c 0x200A || N.eqb c 0x2028 || N.eqb c 0x2029
   || N.eqb c 0x202F || N.eqb c 0x205F || N.eqb c 0x3000)%bool.

(** [s.strip()] *)
Fixpoint lstrip (s : text) : text :=
  match s with
  | [] => []
  | c :: s' => if isspace c then lstrip s' else s
  end.

Definition rstrip (s : text) : text := reverse (lstrip (reverse s)).

Definition strip (s : text) : text := rstrip (lstrip s).

(** Truth value of an optional text: neither [None] nor empty. *)
Definition nonempty_text (o : option text) : bool :=
  match o with
  | Some (_ :: _) => true
  | _ => false
  end.

(** [parse_headers_from_args], lines 130-142: the body of the loop, and
    the function. *)
Definition add_header (headers : gmap text text) (header : text) : gmap text text :=
  match split_once colon header with
  | Some (key, value) => <[strip key := strip value]> headers
  | None => headers
  end.

Definition parse_headers_from_args (header : list text) (accept : option text)
    : gmap text text :=
  let headers := foldl add_header ∅ header in
  if nonempty_text accept
  then <[ascii_text "Accept" := default [] accept]> headers
  else headers.

(** [parse_auth_from_args], lines 157-164; the outer [None] is the
    [ValueError]. *)
Definition parse_auth_from_args (auth : option text) : option (option (text * text)) :=
  if nonempty_text auth
  then
    match split_once colon (default [] auth) with
    | Some (username, password) => Some (Some (username, password))
    | None => None
    end
  else Some None.

(** The attributes of the parsed arguments that
    [create_test_config_from_args] reads. *)
Record Args := mkArgs {
  a_urls : list text;
  a_method : text;
  a_num_requests : Z;
  a_concurrency : Z;
  a_rate_limit : option Q;
  a_duration : option Q;
  a_timeout : Q;
  a_header : list text;
  a_accept : option text;
  a_data : option text;
  a_data_file : option text;
  a_content_type : text;
  a_auth : option text;
  a_proxy : option text;
  a_http2 : bool;
  a_host : option text;
  a_disable_compression : bool;
  a_disable_keepalive : bool;
  a_disable_redirects : bool;
  a_cpus : Z
}.

(** [@dataclass class TestConfig] of [pyrush/models.py]. *)
Record TestConfig := mkTestConfig {
  c_url : text;
  c_method : text;
  c_num_requests : Z;
  c_concurrency : Z;
  c_rate_limit : option Q;
  c_duration : option Q;
  c_timeout : Q;
  c_headers : gmap text text;
  c_data : option text;
  c_data_file : option text;
  c_content_type : text;
  c_auth : option (text * text);
  c_proxy : option text;
  c_http2 : bool;
  c_host : option text;
  c_disable_compression : bool;
  c_disable_keepalive : bool;
  c_disable_redirects : bool;
  c_cpus : Z
}.

(** [create_test_config_from_args], lines 179-209; [None] is the
    [ValueError] of the authentication or of the validation, or the
    [IndexError] of [args.urls[0]]. *)
Definition create_test_config_from_args (args : Args) : option TestConfig :=
  let headers := parse_headers_from_args (a_header args) (a_accept args) in
  auth ← parse_auth_from_args (a_auth args);
  if Z.ltb (a_num_requests args) (a_concurrency args) then None
  else if (nonempty_text (a_data args) && nonempty_text (a_data_file args))%bool
  then None
  else
    url ← Py.index (a_urls args) 0;
    Some (mkTestConfig url (a_method args) (a_num_requests args)
            (a_concurrency args) (a_rate_limit args) (a_duration args)
            (a_timeout args) headers (a_data args) (a_data_file args)
            (a_content_type args) auth (a_proxy args) (a_http2 args)
            (a_host args) (a_disable_compression args)
            (a_disable_keepalive args) (a_disable_redirects args)
            (a_cpus args)).

(** [duration_str[-1].lower()], as far as the comparisons of lines 27-31
    read it: the only code points whose [lower()] is one of ['s'], ['m']
    and ['h'] are these letters and their capitals. *)
Definition unit_of (c : N) : N :=
  if (N.eqb c 0x53 || N.eqb c 0x4D || N.eqb c 0x48)%bool then (c + 32)%N else c.

(** [parse_duration], lines 21-34. [float] is the conversion of the
    text before the unit, [None] when it raises; the outer [None] of
    the result is the [ValueError]. *)
Definition parse_duration (float : text -> option Q) (duration_str : text)
    : option (option Q) :=
  match reverse duration_str with
  | [] => Some None
  | last :: front =>
    let unit := unit_of last in
    value ← float (reverse front);
    if N.eqb unit 0x73 then Some (Some value)
    else if N.eqb unit 0x6D then Some (Some (value * 60)%Q)
    else if N.eqb unit 0x68 then Some (Some (value * 3600)%Q)
    else None
  end.

(** ** The headers, as a reader of the command line sees them *)

(** The value of [header] if its name is [k], name and value being the
    stripped texts around its first colon. *)
Definition header_named (k : text) (header : text) : option text :=
  '(key, value) ← split_once colon header;
  if decide (strip key = k) then Some (strip value) else None.

(** The value of the last header of [l] whose name is [k]. *)
Definition last_header (k : text) (l : list text) : option text :=
  head (omap (header_named k) (reverse l)).

(** ** The uploads of a form *)

(** [tester.form or tester.form_file] (line 40): the request is a form. *)
Definition use_form (tester : StressTester) : bool :=
  match form tester, form_file tester with
  | [], [] => false
  | _, _ => true
  end.

(** The upload [f] names a file that cannot be opened, with message
    [e]. *)
Definition unreadable_upload (files : string -> File) (f : string) (e : string)
    : Prop :=
  exists k path, split_eq f = Some (k, path) /\ files path = Unreadable e.

(** [e] is the message of the first upload of [l] that cannot be
    opened. *)
Definition first_unreadable (files : string -> File) (l : list string) (e : string)
    : Prop :=
  exists before f after,
    l = before ++ f :: after /\
    unreadable_upload files f e /\
    Forall (fun f' => forall e', ~ unreadable_upload files f' e') before.

(** ** [run_test], lines 199-206: the cut of a duration-capped run *)



(** ** [generate_statistics], lines 275-279: the error distribution *)

(** The key of a result in [error_types] is its [error]: a string, or
    [None]. [render] writes the message of an error. *)
Definition count_error (render : Error -> string)
    (error_types : gmap (option string) Z) (result : RequestResult)
    : gmap (option string) Z :=
  let key := render <$> error result in
  <[key := default 0 (error_types !! key) + 1]> error_types.

Definition error_distribution (render : Error -> string)
    (failed_requests : list RequestResult) : gmap (option string) Z :=
  foldl (count_error render) ∅ failed_requests.

(** The sum of the values of an error distribution. *)
Definition total_errors (d : gmap (option string) Z) : Z :=
  map_fold (fun _ v acc => v + acc) 0 d.

(** The results whose error is written [msg]. *)
Definition with_error (render : Error -> string) (msg : string)
    (l : list RequestResult) : list RequestResult :=
  filter (fun r => render <$> error r = Some msg) l.

(** * Properties of the built-ins *)

Section builtins.

Lemma Qltb_true a b : Py.Qltb a b = true <-> (a < b)%Q.
Proof.
  unfold Py.Qltb. rewrite negb_true_iff, <- not_true_iff_false, Qle_bool_iff.
  split; [apply Qnot_le_lt | apply Qlt_not_le].
Qed.

Lemma Qltb_false a b : Py.Qltb a b = false <-> (b <= a)%Q.
Proof.
  unfold Py.Qltb. rewrite negb_false_iff. apply Qle_bool_iff.
Qed.

Lemma foldl_min_le best l :
  let m := foldl (fun best item => if Py.Qltb item best then item else best) best l in
  (m <= best)%Q /\ Forall (fun x => (m <= x)%Q) l /\ (m = best \/ m ∈ l).
Proof.
  revert best. induction l as [|x l IH]; intros best; simpl.
  - split; [apply Qle_refl|]. split; [constructor | now left].
  - destruct (Py.Qltb x best) eqn:E.
    + apply Qltb_true in E. destruct (IH x) as (H1 & H2 & H3).
      split; [eapply Qle_trans; [exact H1 | now apply Qlt_le_weak]|].
      split; [constructor; assumption|].
      right. destruct H3 as [-> | H3]; [left | right]; auto.
    + apply Qltb_false in E. destruct (IH best) as (H1 & H2 & H3).
      split; [assumption|].
      split; [constructor; [eapply Qle_trans; eassumption | assumption]|].
      destruct H3 as [H3 | H3]; [now left | right; now right].
Qed.

Lemma foldl_max_ge best l :
  let m := foldl (fun best item => if Py.Qltb best item then item else best) best l in
  (best <= m)%Q /\ Forall (fun x => (x <= m)%Q) l /\ (m = best \/ m ∈ l).
Proof.
  revert best. induction l as [|x l IH]; intros best; simpl.
  - split; [apply Qle_refl|]. split; [constructor | now left].
  - destruct (Py.Qltb best x) eqn:E.
    + apply Qltb_true in E. destruct (IH x) as (H1 & H2 & H3).
      split; [eapply Qle_trans; [apply Qlt_le_weak; eassumption | exact H1]|].
      split; [constructor; assumption|].
      right. destruct H3 as [-> | H3]; [left | right]; auto.
    + apply Qltb_false in E. destruct (IH best) as (H1 & H2 & H3).
      split; [assumption|].
      split; [constructor; [eapply Qle_trans; eassumption | assumption]|].
      destruct H3 as [H3 | H3]; [now left | right; now right].
Qed.

Lemma min_spec l :
  l <> [] ->
  exists m, Py.min l = Some m /\ m ∈ l /\ Forall (fun x => (m <= x)%Q) l.
Proof.
  destruct l as [|x l]; [congruence | intros _].
  destruct (foldl_min_le x l) as (H1 & H2 & H3).
  eexists; split; [reflexivity|]. split.
  - destruct H3 as [-> | H3]; [left | now right].
  - constructor; assumption.
Qed.

Lemma max_spec l :
  l <> [] ->
  exists m, Py.max l = Some m /\ m ∈ l /\ Forall (fun x => (x <= m)%Q) l.
Proof.
  destruct l as [|x l]; [congruence | intros _].
  destruct (foldl_max_ge x l) as (H1 & H2 & H3).
  eexists; split; [reflexivity|]. split.
  - destruct H3 as [-> | H3]; [left | now right].
  - constructor; assumption.
Qed.

(** [sorted] returns a sorted permutation of its argument. *)
Lemma insert_sorted_perm x l : Permutation (Py.insert_sorted x l) (x :: l).
Proof.
  induction l as [|y l IH]; simpl; [reflexivity|].
  destruct (Qle_bool x y); [reflexivity|].
  rewrite IH. apply perm_swap.
Qed.

Lemma sorted_perm l : Permutation (Py.sorted l) l.
Proof.
  induction l as [|x l IH]; simpl; [reflexivity|].
  unfold Py.sorted in *. simpl. rewrite insert_sorted_perm. now constructor.
Qed.

Lemma length_sorted l : length (Py.sorted l) = length l.
Proof. apply Permutation_length, sorted_perm. Qed.

Lemma insert_sorted_Sorted x l :
  Sorted Qle l -> Sorted Qle (Py.insert_sorted x l).
Proof.
  induction l as [|y l IH]; intros Hs; simpl.
  - repeat constructor.
  - destruct (Qle_bool x y) eqn:E.
    + constructor; [assumption|]. constructor. now apply Qle_bool_iff.
    + assert (Hyx : (y <= x)%Q).
      { apply Qlt_le_weak, Qnot_le_lt. intros H. apply Qle_bool_iff in H. congruence. }
      inversion Hs as [|? ? Hs' Hhd]; subst.
      constructor; [auto|].
      destruct l as [|z l]; simpl; [now constructor|].
      destruct (Qle_bool x z); constructor; auto.
      now inversion Hhd.
Qed.

Lemma sorted_Sorted l : Sorted Qle (Py.sorted l).
Proof.
  induction l as [|x l IH]; [constructor|].
  unfold Py.sorted in *. simpl. now apply insert_sorted_Sorted.
Qed.


Lemma index_nat {A} (l : list A) (i : Z) :
  0 <= i -> Py.index l i = l !! Z.to_nat i.
Proof.
  intros H. unfold Py.index. destruct (Z.ltb_spec i 0); [lia | reflexivity].
Qed.

Lemma index_neg {A} (l : list A) (i : Z) :
  i < 0 -> 0 <= i + Z.of_nat (length l) ->
  Py.index l i = l !! Z.to_nat (i + Z.of_nat (length l)).
Proof.
  intros H1 H2. unfold Py.index.
  destruct (Z.ltb_spec i 0); [|lia].
  destruct (Z.ltb_spec (i + Z.of_nat (length l)) 0); [lia | reflexivity].
Qed.

End builtins.

(** * The cut points of [quantiles] *)

Section quantiles.

Lemma Qfloor_div (a n : Z) : 0 < n -> Qfloor (inject_Z a / inject_Z n) = a / n.
Proof.
  intros Hn. destruct n as [|p|p]; try lia.
  rewrite <- (Qfloor_comp (a # p)); [reflexivity|].
  apply Qmake_Qdiv.
Qed.

Lemma lookup_lt_is_Some' {A} (l : list A) (i : nat) :
  (i < length l)%nat -> exists x, l !! i = Some x.
Proof. intros H. now apply lookup_lt_is_Some_2. Qed.

(** Without clamping, [exclusive_cut] is the interpolation at the
    exclusive rank. *)
Lemma exclusive_cut_interpolate (s : list Q) (n i : Z) :
  0 < n ->
  1 <= i * (Z.of_nat (length s) + 1) / n <= Z.of_nat (length s) - 1 ->
  exists q q',
    statistics.exclusive_cut s (Z.of_nat (length s)) n i = Some q /\
    interpolate_exclusive s n i = Some q' /\ (q == q')%Q.
Proof.
  intros Hn Hj. unfold statistics.exclusive_cut, interpolate_exclusive.
  rewrite Qfloor_div by assumption.
  set (ld := Z.of_nat (length s)) in *.
  set (j := i * (ld + 1) / n) in *.
  destruct (Z.ltb_spec j 1) as [?|_]; [lia|].
  destruct (Z.ltb_spec (ld - 1) j) as [?|_]; [lia|].
  rewrite !index_nat by lia.
  destruct (lookup_lt_is_Some' s (Z.to_nat (j - 1))) as [a Ha]; [lia|].
  destruct (lookup_lt_is_Some' s (Z.to_nat j)) as [b Hb]; [lia|].
  rewrite Ha, Hb. simpl. eexists _, _. split; [reflexivity|]. split; [reflexivity|].
  unfold interpolate.
  unfold Z.sub.
  repeat (rewrite inject_Z_plus || rewrite inject_Z_opp || rewrite inject_Z_mult).
  change (inject_Z 1) with 1%Q.
  assert (Hn0 : ~ (inject_Z n == 0)%Q).
  { change 0%Q with (inject_Z 0). rewrite inject_Z_injective. lia. }
  field. exact Hn0.
Qed.

Lemma exclusive_cut_is_Some (s : list Q) (n i : Z) :
  (2 <= length s)%nat ->
  is_Some (statistics.exclusive_cut s (Z.of_nat (length s)) n i).
Proof.
  intros Hs. unfold statistics.exclusive_cut.
  set (ld := Z.of_nat (length s)).
  set (j0 := i * (ld + 1) / n).
  set (j := if Z.ltb j0 1 then 1 else if Z.ltb (ld - 1) j0 then ld - 1 else j0).
  assert (Hj : 1 <= j <= ld - 1).
  { subst j. destruct (Z.ltb_spec j0 1); [lia|].
    destruct (Z.ltb_spec (ld - 1) j0); lia. }
  rewrite !index_nat by lia.
  destruct (lookup_lt_is_Some' s (Z.to_nat (j - 1))) as [a Ha]; [lia|].
  destruct (lookup_lt_is_Some' s (Z.to_nat j)) as [b Hb]; [lia|].
  rewrite Ha, Hb. simpl. eauto.
Qed.

(** [quantiles] returns its [n - 1] cut points whenever there are at
    least two data points. *)
Lemma quantiles_Some (data : list Q) (n : Z) :
  1 <= n -> (2 <= length data)%nat ->
  exists q, statistics.quantiles data n = Some q /\
    forall k, 0 <= k < n - 1 ->
      Py.index q k =
      statistics.exclusive_cut (Py.sorted data) (Z.of_nat (length data)) n (k + 1).
Proof.
  intros Hn Hd. unfold statistics.quantiles.
  destruct (Z.ltb_spec n 1); [lia|].
  rewrite length_sorted.
  destruct (Z.ltb_spec (Z.of_nat (length data)) 2); [lia|].
  destruct (mapM (statistics.exclusive_cut (Py.sorted data) (Z.of_nat (length data)) n)
                 (seqZ 1 (n - 1))) as [q|] eqn:E.
  - exists q. split; [reflexivity|]. intros k Hk.
    apply mapM_Some in E. rewrite index_nat by lia.
    assert (Hl : seqZ 1 (n - 1) !! Z.to_nat k = Some (k + 1)).
    { rewrite lookup_seqZ. lia. }
    destruct (Forall2_lookup_l _ _ _ _ _ E Hl) as (y & Hy & Hcut).
    now rewrite Hy, Hcut.
  - exfalso. apply mapM_None in E. apply Exists_exists in E as (i & _ & Hi).
    destruct (exclusive_cut_is_Some (Py.sorted data) n i) as [y Hy].
    + now rewrite length_sorted.
    + rewrite length_sorted in Hy. congruence.
Qed.

End quantiles.

(** * The response-time statistics *)

Section response_times.

Lemma quantile_index (data : list Q) (n k : Z) :
  1 <= n -> 0 <= k < n - 1 -> (2 <= length data)%nat ->
  (q ← statistics.quantiles data n; Py.index q k) =
  statistics.exclusive_cut (Py.sorted data) (Z.of_nat (length data)) n (k + 1).
Proof.
  intros Hn Hk Hd. destruct (quantiles_Some data n Hn Hd) as (q & -> & Hq).
  simpl. now apply Hq.
Qed.

Lemma quantile_is_Some (data : list Q) (n k : Z) :
  1 <= n -> 0 <= k < n - 1 -> (2 <= length data)%nat ->
  is_Some (q ← statistics.quantiles data n; Py.index q k).
Proof.
  intros Hn Hk Hd. rewrite quantile_index by assumption.
  rewrite <- (length_sorted data). apply exclusive_cut_is_Some.
  now rewrite length_sorted.
Qed.

Lemma mean_is_Some (data : list Q) : data <> [] -> is_Some (statistics.mean data).
Proof. destruct data; [congruence | intros _; simpl; eauto]. Qed.

Lemma median_is_Some (data : list Q) : data <> [] -> is_Some (statistics.median data).
Proof.
  intros Hd. unfold statistics.median.
  assert (Hlen : (0 < length (Py.sorted data))%nat).
  { rewrite length_sorted. destruct data; [congruence | simpl; lia]. }
  set (s := Py.sorted data) in *. set (n := Z.of_nat (length s)).
  assert (Hn : 0 < n) by lia.
  destruct (Z.eqb_spec n 0); [lia|].
  assert (Hdiv : 0 <= n / 2 < n).
  { split; [apply Z.div_pos; lia | apply Z.div_lt_upper_bound; lia]. }
  destruct (Z.eqb_spec (n mod 2) 1) as [Hodd|Heven].
  - rewrite index_nat by lia. apply lookup_lt_is_Some_2. lia.
  - assert (1 <= n / 2).
    { pose proof (Z.div_mod n 2 ltac:(lia)). pose proof (Z.mod_pos_bound n 2 ltac:(lia)). lia. }
    rewrite !index_nat by lia.
    destruct (lookup_lt_is_Some' s (Z.to_nat (n / 2 - 1))) as [a ->]; [lia|].
    destruct (lookup_lt_is_Some' s (Z.to_nat (n / 2))) as [b ->]; [lia|].
    simpl. eauto.
Qed.

Lemma variance_is_Some (data : list Q) :
  (2 <= length data)%nat -> is_Some (statistics.variance data).
Proof.
  intros Hd. unfold statistics.variance.
  destruct (Z.ltb_spec (Z.of_nat (length data)) 2); [lia|].
  destruct (mean_is_Some data) as [c ->]; [destruct data; simpl in *; [lia | congruence]|].
  simpl. eauto.
Qed.

(** The dict of lines 255-267 is always built for a non-empty list: no
    call of [min], [max], [mean], [median], [stdev], [quantiles] nor an
    index raises. *)
Lemma response_time_statistics_is_Some (rts : list Q) :
  rts <> [] -> is_Some (response_time_statistics rts).
Proof.
  intros Hne. unfold response_time_statistics.
  assert (Hlen : (1 <= length rts)%nat) by (destruct rts; [congruence | simpl; lia]).
  destruct (min_spec rts Hne) as (mn & -> & _).
  destruct (max_spec rts Hne) as (mx & Hmx & _). rewrite Hmx.
  destruct (mean_is_Some rts Hne) as [mean ->].
  destruct (median_is_Some rts Hne) as [med ->]. simpl.
  assert (H0 : is_Some (Py.index rts 0)).
  { rewrite index_nat by lia. apply lookup_lt_is_Some_2. simpl. lia. }
  assert (Hl : is_Some (Py.index rts (-1))).
  { rewrite index_neg by lia. apply lookup_lt_is_Some_2. lia. }
  repeat match goal with
  | |- context [Z.ltb ?a ?b] => destruct (Z.ltb_spec a b)
  end;
  repeat match goal with
  | |- is_Some (Some _) => eauto
  | |- is_Some (mbind _ (fmap Root (statistics.stdev rts))) =>
      unfold statistics.stdev;
      let v := fresh "v" in
      destruct (variance_is_Some rts) as [v ->]; [lia | simpl]
  | |- is_Some (mbind _ (mbind _ (statistics.quantiles rts ?n))) =>
      let x := fresh "x" in
      let Hx := fresh "Hx" in
      match goal with
      | |- context [mbind (fun q => Py.index q ?k) (statistics.quantiles rts n)] =>
          destruct (quantile_is_Some rts n k) as [x Hx]; [lia | lia | lia |];
          rewrite Hx; simpl
      end
  | |- is_Some (mbind _ (Py.index rts 0)) =>
      let x := fresh "x" in destruct H0 as [x ->]; simpl
  | |- is_Some (mbind _ (Py.index rts (-1))) =>
      let x := fresh "x" in destruct Hl as [x ->]; simpl
  | |- is_Some (mbind _ (Some _)) => simpl
  end.
Qed.

End response_times.


(** * The statistics dict *)

Section statistics_dict.

(** Inversion of one step of a computation in the option monad. *)
Ltac bind_inv :=
  lazymatch goal with
  | |- (mbind _ ?o = Some _) -> _ =>
      let E := fresh "E" in
      destruct o eqn:E; [cbn [mbind option_bind] | cbn; discriminate]
  end.

Lemma generate_statistics_empty t : results t = [] -> generate_statistics t = Some ∅.
Proof. intros H. unfold generate_statistics. now rewrite H. Qed.

Lemma generate_statistics_inv t st :
  results t <> [] -> generate_statistics t = Some st ->
  exists stats rt sz dns con,
    basic_statistics t (successful_requests t) (failed_requests t) = Some stats /\
    when_nonempty (response_times t) (response_time_statistics (response_times t)) = Some rt /\
    when_nonempty (response_sizes t)
      (size_statistics (map inject_Z (response_sizes t))) = Some sz /\
    when_nonempty (dns_times t)
      (time_statistics "mean_dns_time" "max_dns_time" (dns_times t)) = Some dns /\
    when_nonempty (connect_times t)
      (time_statistics "mean_connect_time" "max_connect_time" (connect_times t)) = Some con /\
    st = con ∪ (dns ∪ (sz ∪
          (<["status_code_distribution" :=
               Counts (status_code_distribution (successful_requests t))]>
          (rt ∪ stats)))).
Proof.
  intros Hne. unfold generate_statistics.
  fold (successful_requests t) (failed_requests t). fold (response_times t).
  destruct (results t) as [|r rs] eqn:Hr; [congruence|].
  do 5 bind_inv.
  intros [= <-]. now eexists _, _, _, _, _.
Qed.

Lemma basic_statistics_inv t succ failed stats :
  basic_statistics t succ failed = Some stats ->
  exists rate dur rps thr,
    stats = <["total_requests" := Num (of_len (results t))]>
           (<["successful_requests" := Num (of_len succ)]>
           (<["failed_requests" := Num (of_len failed)]>
           (<["success_rate" := Num rate]>
           (<["total_duration" := Num dur]>
           (<["requests_per_second" := Num rps]>
           (<["throughput_bytes_per_sec" := Num thr]> ∅)))))).
Proof.
  unfold basic_statistics. do 3 bind_inv.
  intros [= <-]. now eexists _, _, _, _.
Qed.

Lemma size_statistics_inv {A} (l : list A) sizes sz :
  when_nonempty l (size_statistics sizes) = Some sz ->
  sz = ∅ \/
  exists a b c d,
    sz = <["min_response_size" := a]> (<["max_response_size" := b]>
         (<["mean_response_size" := c]> (<["median_response_size" := d]> ∅))).
Proof.
  destruct l; simpl; [intros [= <-]; now left|].
  unfold size_statistics. do 4 bind_inv.
  intros [= <-]. right. now eexists _, _, _, _.
Qed.

Lemma time_statistics_inv {A} (l : list A) k1 k2 times d :
  when_nonempty l (time_statistics k1 k2 times) = Some d ->
  d = ∅ \/ exists a b, d = <[k1 := a]> (<[k2 := b]> ∅).
Proof.
  destruct l; simpl; [intros [= <-]; now left|].
  unfold time_statistics. do 2 bind_inv.
  intros [= <-]. right. now eexists _, _.
Qed.

Lemma response_time_statistics_inv rts d :
  response_time_statistics rts = Some d ->
  exists v, percentiles_of rts v /\ d = percentiles_dict v.
Proof.
  unfold response_time_statistics, percentiles_of.
  do 11 bind_inv.
  intros [= <-].
  eexists (mkPercentiles _ _ _ _ _ _ _ _ _ _ _).
  simpl. repeat split; eassumption.
Qed.

Lemma when_nonempty_inv {A} (l : list A) d r :
  when_nonempty l d = Some r -> (l = [] /\ r = ∅) \/ (l <> [] /\ d = Some r).
Proof. destruct l; simpl; [intros [= <-]; now left | intros ->; now right]. Qed.

(** What [generate_statistics] returns for a non-empty list of results:
    the entries of the counts, of the status codes and of the response
    times are those of the dicts they come from. *)
Lemma generate_statistics_report t st :
  results t <> [] -> generate_statistics t = Some st ->
  st !! "total_requests" = Some (Num (of_len (results t))) /\
  st !! "successful_requests" = Some (Num (of_len (successful_requests t))) /\
  st !! "failed_requests" = Some (Num (of_len (failed_requests t))) /\
  st !! "status_code_distribution" =
    Some (Counts (status_code_distribution (successful_requests t))) /\
  (response_times t <> [] ->
   exists v, percentiles_of (response_times t) v /\
     Forall (fun k => st !! k = percentiles_dict v !! k) response_time_keys).
Proof.
  intros Hne Hst.
  destruct (generate_statistics_inv t st Hne Hst)
    as (stats & rt & sz & dns & con & Hstats & Hrt & Hsz & Hdns & Hcon & ->).
  apply basic_statistics_inv in Hstats as (rate & dur & rps & thr & ->).
  apply size_statistics_inv in Hsz.
  apply time_statistics_inv in Hdns. apply time_statistics_inv in Hcon.
  apply when_nonempty_inv in Hrt.
  generalize (Counts (status_code_distribution (successful_requests t))) as dist.
  generalize (Num (of_len (results t))) as n1.
  generalize (Num (of_len (successful_requests t))) as n2.
  generalize (Num (of_len (failed_requests t))) as n3.
  intros n3 n2 n1 dist.
  destruct Hsz as [-> | (? & ? & ? & ? & ->)],
           Hdns as [-> | (? & ? & ->)], Hcon as [-> | (? & ? & ->)];
  (destruct Hrt as [[Hnil ->] | [_ Hrt]];
   [ repeat split; [vm_compute; reflexivity..|]; intros Hrts; congruence
   | apply response_time_statistics_inv in Hrt as (v & Hv & ->);
     repeat split; [vm_compute; reflexivity..|];
     intros _; exists v; split; [exact Hv|];
     destruct v; repeat (constructor; [vm_compute; reflexivity|]); constructor ]).
Qed.

Lemma of_len_nonzero {A} (l : list A) : l <> [] -> Qeq_bool (of_len l) 0 = false.
Proof.
  intros Hne. apply not_true_iff_false. intros H. apply Qeq_bool_iff in H.
  unfold of_len in H. change 0%Q with (inject_Z 0) in H.
  apply inject_Z_injective in H. destruct l; [congruence | discriminate H].
Qed.

Lemma div_is_Some a b : ~ (b == 0)%Q -> is_Some (Py.div a b).
Proof.
  intros Hb. unfold Py.div. destruct (Qeq_bool b 0) eqn:E; [|eauto].
  apply Qeq_bool_iff in E. contradiction.
Qed.

Lemma size_statistics_is_Some sizes : sizes <> [] -> is_Some (size_statistics sizes).
Proof.
  intros Hne. unfold size_statistics.
  destruct (min_spec sizes Hne) as (mn & -> & _).
  destruct (max_spec sizes Hne) as (mx & -> & _).
  destruct (mean_is_Some sizes Hne) as [mean ->].
  destruct (median_is_Some sizes Hne) as [med ->]. simpl. eauto.
Qed.

Lemma time_statistics_is_Some k1 k2 times :
  times <> [] -> is_Some (time_statistics k1 k2 times).
Proof.
  intros Hne. unfold time_statistics.
  destruct (mean_is_Some times Hne) as [mean ->].
  destruct (max_spec times Hne) as (mx & -> & _). simpl. eauto.
Qed.

Lemma when_nonempty_is_Some {A} (l : list A) d :
  (l <> [] -> is_Some d) -> is_Some (when_nonempty l d).
Proof. destruct l; simpl; [eauto | intros H; now apply H]. Qed.

(** [generate_statistics] returns a dict as soon as the clock has moved
    between [start_time] and [end_time]; otherwise the divisions of
    lines 249-250 raise [ZeroDivisionError]. *)
Lemma generate_statistics_is_Some t :
  clock_moved t = true -> is_Some (generate_statistics t).
Proof.
  intros Hclock. unfold generate_statistics.
  destruct (results t) as [|r rs] eqn:Hr; [eauto|].
  assert (Hb : is_Some (basic_statistics t
                (filter (fun r => succeeded r = true) (r :: rs))
                (filter (fun r => succeeded r = false) (r :: rs)))).
  { unfold basic_statistics, Py.div. rewrite Hr.
    rewrite (of_len_nonzero (r :: rs)) by discriminate.
    unfold clock_moved in Hclock.
    destruct (Py.truthy (end_time t) && Py.truthy (start_time t))%bool;
      simpl in Hclock.
    - apply negb_true_iff in Hclock. rewrite Hclock.
      destruct (response_sizes t); cbn; eauto.
    - destruct (response_sizes t); cbn; eauto. }
  destruct Hb as [stats ->]. cbn [mbind option_bind].
  destruct (when_nonempty_is_Some
              (map response_time (filter (fun r => succeeded r = true) (r :: rs)))
              (response_time_statistics
                 (map response_time (filter (fun r => succeeded r = true) (r :: rs)))))
    as [rt ->]; [apply response_time_statistics_is_Some|]. cbn [mbind option_bind].
  destruct (when_nonempty_is_Some (response_sizes t)
              (size_statistics (map inject_Z (response_sizes t)))) as [sz ->].
  { intros H. apply size_statistics_is_Some. destruct (response_sizes t); [congruence | discriminate]. }
  cbn [mbind option_bind].
  destruct (when_nonempty_is_Some (dns_times t)
              (time_statistics "mean_dns_time" "max_dns_time" (dns_times t))) as [dns ->];
    [apply time_statistics_is_Some|]. cbn [mbind option_bind].
  destruct (when_nonempty_is_Some (connect_times t)
              (time_statistics "mean_connect_time" "max_connect_time" (connect_times t)))
    as [con ->]; [apply time_statistics_is_Some|]. cbn [mbind option_bind].
  eauto.
Qed.

End statistics_dict.

(** * The distribution of status codes *)

Section distribution.

Lemma total_count_insert (m : gmap Z Z) k v :
  m !! k = None -> total_count (<[k := v]> m) = v + total_count m.
Proof.
  intros Hk. unfold total_count.
  rewrite map_fold_insert_L; [reflexivity | intros; lia | assumption].
Qed.

Lemma total_count_delete (m : gmap Z Z) k v :
  m !! k = Some v -> total_count m = v + total_count (delete k m).
Proof.
  intros Hk. unfold total_count.
  rewrite (map_fold_delete_L _ _ k v m); [reflexivity | intros; lia | assumption].
Qed.

Lemma total_count_count_status (m : gmap Z Z) r :
  total_count (count_status m r) = total_count m + 1.
Proof.
  unfold count_status. destruct (m !! status_code r) as [v|] eqn:E; simpl.
  - rewrite <- insert_delete_eq.
    rewrite total_count_insert by apply lookup_delete_eq.
    rewrite (total_count_delete m _ v E). lia.
  - rewrite total_count_insert by assumption. lia.
Qed.

Lemma total_count_foldl (m : gmap Z Z) l :
  total_count (foldl count_status m l) = total_count m + Z.of_nat (length l).
Proof.
  revert m. induction l as [|r l IH]; intros m; simpl.
  - lia.
  - rewrite IH, total_count_count_status. lia.
Qed.

(** The values of the distribution add up to the number of results
    that were counted. *)
Lemma total_count_distribution l :
  total_count (status_code_distribution l) = Z.of_nat (length l).
Proof.
  unfold status_code_distribution. rewrite total_count_foldl.
  unfold total_count. now rewrite map_fold_empty.
Qed.

Lemma count_status_lookup (m : gmap Z Z) r c :
  count_status m r !! c =
  if decide (status_code r = c) then Some (default 0 (m !! c) + 1) else m !! c.
Proof.
  unfold count_status. destruct (decide (status_code r = c)) as [->|Hne].
  - now rewrite lookup_insert_eq.
  - now rewrite lookup_insert_ne.
Qed.

Lemma foldl_count_status_lookup (m : gmap Z Z) l c :
  (forall v, m !! c = Some v -> 0 < v) ->
  let n := default 0 (m !! c) + Z.of_nat (length (with_status c l)) in
  foldl count_status m l !! c = if Z.eqb n 0 then None else Some n.
Proof.
  revert m. induction l as [|r l IH]; intros m Hpos; simpl.
  - unfold with_status. simpl. rewrite Z.add_0_r.
    destruct (m !! c) as [v|] eqn:E; simpl; [|reflexivity].
    specialize (Hpos v eq_refl). destruct (Z.eqb_spec v 0); [lia | reflexivity].
  - rewrite IH.
    + rewrite count_status_lookup. unfold with_status. rewrite filter_cons.
      destruct (decide (status_code r = c)); simpl; [|reflexivity].
      replace (default 0 (m !! c) + 1 + Z.of_nat (length (filter (fun r => status_code r = c) l)))
        with (default 0 (m !! c) + Z.pos (Pos.of_succ_nat (length (filter (fun r => status_code r = c) l))))
        by lia.
      reflexivity.
    + intros v. rewrite count_status_lookup.
      destruct (decide (status_code r = c)); [|apply Hpos].
      intros [= <-]. destruct (m !! c) as [v'|] eqn:E; simpl; [|lia].
      specialize (Hpos v' eq_refl). lia.
Qed.

(** Each status code is mapped to the number of counted results that
    carry it, and codes that no counted result carries are absent. *)
Lemma distribution_lookup l c :
  status_code_distribution l !! c =
  match length (with_status c l) with
  | O => None
  | S n => Some (Z.of_nat (S n))
  end.
Proof.
  unfold status_code_distribution.
  rewrite foldl_count_status_lookup by (intros v; rewrite lookup_empty; discriminate).
  rewrite lookup_empty. simpl.
  destruct (length (with_status c l)); reflexivity.
Qed.

Lemma length_successful_failed t :
  (length (successful_requests t) + length (failed_requests t) = length (results t))%nat.
Proof.
  unfold successful_requests, failed_requests.
  induction (results t) as [|r l IH]; [reflexivity|].
  rewrite !filter_cons. destruct (succeeded r) eqn:E.
  - destruct (decide (true = true)); [|congruence].
    destruct (decide (true = false)); [congruence|]. simpl. lia.
  - destruct (decide (false = true)); [congruence|].
    destruct (decide (false = false)); [|congruence]. simpl. lia.
Qed.

End distribution.

(** * Counts and status codes *)

Section counts.

Lemma filter_succeeded (l : list RequestResult) :
  filter (fun r => succeeded r = true) l = filter (fun r => error r = None) l.
Proof.
  apply list_filter_iff. intros r. unfold succeeded.
  destruct (error r); split; congruence.
Qed.

Lemma filter_failed (l : list RequestResult) :
  filter (fun r => succeeded r = false) l = filter (fun r => error r <> None) l.
Proof.
  apply list_filter_iff. intros r. unfold succeeded.
  destruct (error r); split; congruence.
Qed.

(** C6. For every list of results (and a clock that moved) the
    statistics dict is returned. It is empty when there is no result.
    Otherwise its counts partition the results: [successful_requests]
    counts the results whose error is [None], [failed_requests] those
    whose error is not [None], the two add up to [total_requests], and
    the values of [status_code_distribution] add up to at most
    [total_requests]. *)
Theorem C6_counts_partition (t : StressTester) :
  clock_moved t = true ->
  exists st,
    generate_statistics t = Some st /\
    (results t = [] -> st = ∅) /\
    (results t <> [] ->
     st !! "total_requests" = Some (Num (of_len (results t))) /\
     st !! "successful_requests" =
       Some (Num (of_len (filter (fun r => error r = None) (results t)))) /\
     st !! "failed_requests" =
       Some (Num (of_len (filter (fun r => error r <> None) (results t)))) /\
     (of_len (filter (fun r => error r = None) (results t))
      + of_len (filter (fun r => error r <> None) (results t))
      == of_len (results t))%Q /\
     exists d,
       st !! "status_code_distribution" = Some (Counts d) /\
       total_count d <= Z.of_nat (length (results t))).
Proof.
  intros Hclock.
  destruct (generate_statistics_is_Some t Hclock) as [st Hst].
  exists st. split; [exact Hst|]. split.
  - intros Hnil. rewrite (generate_statistics_empty t Hnil) in Hst. congruence.
  - intros Hne.
    destruct (generate_statistics_report t st Hne Hst) as (H1 & H2 & H3 & H4 & _).
    pose proof (length_successful_failed t) as Hlen.
    unfold successful_requests, failed_requests in *.
    rewrite filter_succeeded in *. rewrite filter_failed in *.
    repeat split; try assumption.
    + unfold of_len. rewrite <- inject_Z_plus, <- Nat2Z.inj_add, Hlen. reflexivity.
    + exists (status_code_distribution (filter (fun r => error r = None) (results t))).
      split; [assumption|]. rewrite total_count_distribution. lia.
Qed.

(** The hypothesis of C6 holds in scenario D: three results, all
    failed. *)
Lemma C6_counts_partition_witness :
  clock_moved scenario_D = true /\
  exists st,
    generate_statistics scenario_D = Some st /\
    st !! "total_requests" = Some (Num (of_len (results scenario_D))) /\
    st !! "failed_requests" =
      Some (Num (of_len (filter (fun r => error r <> None) (results scenario_D)))).
Proof.
  split; [vm_compute; reflexivity|].
  destruct (C6_counts_partition scenario_D) as (st & Hst & _ & H);
    [vm_compute; reflexivity|].
  destruct H as (H1 & _ & H3 & _); [vm_compute; discriminate|].
  exists st. auto.
Defined.

(** C4, as stated, fails in scenario D: the three requests received
    status 500 and failed the status assertion, and the distribution
    has no entry for 500. *)
Lemma C4_counterexample :
  map (fun r => (status_code r, error r)) (results scenario_D) =
    replicate 3 (500, Some (AssertStatus 200 500)) /\
  (st ← generate_statistics scenario_D; st !! "status_code_distribution") =
    Some (Counts ∅).
Proof. split; vm_compute; reflexivity. Qed.

(** C4, amended. The distribution counts exactly the results whose
    error is [None]: a status code is mapped to the number of such
    results that carry it, and is absent when there is none; results
    with an error, assertion failures included, are not counted. *)
Theorem C4_distribution_counts_successes (t : StressTester) :
  results t <> [] -> clock_moved t = true ->
  exists st d,
    generate_statistics t = Some st /\
    st !! "status_code_distribution" = Some (Counts d) /\
    forall c,
      d !! c =
      match length (filter (fun r => status_code r = c)
                      (filter (fun r => error r = None) (results t))) with
      | O => None
      | S n => Some (Z.of_nat (S n))
      end.
Proof.
  intros Hne Hclock.
  destruct (generate_statistics_is_Some t Hclock) as [st Hst].
  destruct (generate_statistics_report t st Hne Hst) as (_ & _ & _ & H4 & _).
  unfold successful_requests in H4. rewrite filter_succeeded in H4.
  eexists _, _. split; [exact Hst|]. split; [exact H4|].
  intros c. apply distribution_lookup.
Qed.

Lemma C4_distribution_counts_successes_witness :
  exists st d,
    generate_statistics scenario_D = Some st /\
    st !! "status_code_distribution" = Some (Counts d) /\
    forall c,
      d !! c =
      match length (filter (fun r => status_code r = c)
                      (filter (fun r => error r = None) (results scenario_D))) with
      | O => None
      | S n => Some (Z.of_nat (S n))
      end.
Proof.
  apply (C4_distribution_counts_successes scenario_D);
    [vm_compute; discriminate | vm_compute; reflexivity].
Defined.

End counts.

(** * Percentiles *)

(** Decides a comparison of the code from the bounds at hand. *)
Ltac decide_ltb H :=
  match type of H with
  | context [Z.ltb ?a ?b] =>
      first [ rewrite (proj2 (Z.ltb_lt a b)) in H by lia
            | rewrite (proj2 (Z.ltb_ge a b)) in H by lia ]
  end.

Section percentiles.

Lemma percentile_entries (st : gmap string value) v :
  Forall (fun k => st !! k = percentiles_dict v !! k) response_time_keys ->
  st !! "min_response_time" = Some (Num (v_min v)) /\
  st !! "max_response_time" = Some (Num (v_max v)) /\
  st !! "mean_response_time" = Some (Num (v_mean v)) /\
  st !! "median_response_time" = Some (Num (v_median v)) /\
  st !! "std_response_time" = Some (v_std v) /\
  st !! "p25_response_time" = Some (Num (v_p25 v)) /\
  st !! "p50_response_time" = Some (Num (v_p50 v)) /\
  st !! "p75_response_time" = Some (Num (v_p75 v)) /\
  st !! "p90_response_time" = Some (Num (v_p90 v)) /\
  st !! "p95_response_time" = Some (Num (v_p95 v)) /\
  st !! "p99_response_time" = Some (Num (v_p99 v)).
Proof.
  intros H. unfold response_time_keys in H.
  repeat match type of H with
  | Forall _ (_ :: _) =>
      let H1 := fresh "H" in
      apply Forall_cons in H as [H1 H]
  end.
  destruct v. simpl.
  repeat split;
    match goal with
    | Hk : st !! ?k = _ |- st !! ?k = _ => rewrite Hk; vm_compute; reflexivity
    end.
Qed.

Lemma results_of_response_times t : response_times t <> [] -> results t <> [].
Proof.
  intros H Hr. apply H. unfold response_times, successful_requests.
  now rewrite Hr.
Qed.

(** All that is needed about a run to read its percentiles. *)
Lemma percentiles_report t :
  response_times t <> [] -> clock_moved t = true ->
  exists st v,
    generate_statistics t = Some st /\
    percentiles_of (response_times t) v /\
    Forall (fun k => st !! k = percentiles_dict v !! k) response_time_keys.
Proof.
  intros Hne Hclock.
  destruct (generate_statistics_is_Some t Hclock) as [st Hst].
  destruct (generate_statistics_report t st (results_of_response_times t Hne) Hst)
    as (_ & _ & _ & _ & H).
  destruct (H Hne) as (v & Hv & Hall). now exists st, v.
Qed.

(** Above the threshold of the code the rank of the cut point lies
    between two items of the sample, and the cut point is their
    interpolation. *)
Lemma cut_is_interpolation (rts : list Q) (n i : Z) (q : Q) :
  2 <= n -> 1 <= i <= n - 1 ->
  n <= i * (Z.of_nat (length rts) + 1) ->
  i * (Z.of_nat (length rts) + 1) < n * Z.of_nat (length rts) ->
  (q' ← statistics.quantiles rts n; Py.index q' (i - 1)) = Some q ->
  exists a, interpolate_exclusive (Py.sorted rts) n i = Some a /\ (q == a)%Q.
Proof.
  intros Hn Hi Hlo Hhi Hq.
  assert (Hlen : (2 <= length rts)%nat) by nia.
  rewrite quantile_index in Hq by lia.
  replace (i - 1 + 1) with i in Hq by lia.
  rewrite <- (length_sorted rts) in Hq, Hlo, Hhi.
  destruct (exclusive_cut_interpolate (Py.sorted rts) n i) as (x & a & Hx & Ha & Hxa).
  - lia.
  - split.
    + apply Z.div_le_lower_bound; lia.
    + assert (i * (Z.of_nat (length (Py.sorted rts)) + 1) / n
              < Z.of_nat (length (Py.sorted rts)))
        by (apply Z.div_lt_upper_bound; lia).
      lia.
  - exists a. split; [assumption|]. rewrite Hx in Hq. injection Hq as <-. assumption.
Qed.

Lemma reports_intro (st : gmap string value) k q a :
  st !! k = Some (Num q) -> (q == a)%Q -> reports st k a.
Proof. intros H1 H2. now exists q. Qed.

Ltac close_reports :=
  repeat split; first [eassumption | eapply reports_intro; eassumption].

Lemma index_singleton_0 (x : Q) : Py.index [x] 0 = Some x.
Proof. reflexivity. Qed.

(** C1, amended. For every run with a successful result (and a clock
    that moved), the percentiles are computed on the sorted sample by
    linear interpolation at the "exclusive" rank [i * (n + 1) / k],
    the default method of [statistics.quantiles]: P25 and P75 with more
    than 3 samples, P50 with more than 1, P90 with more than 9, P95
    with more than 19, P99 with more than 99. With fewer samples P90,
    P95 and P99 are the maximum of the sample, and with a single sample
    P25, P50 and P75 are that sample. *)
Theorem C1_percentiles_exclusive (t : StressTester) :
  response_times t <> [] -> clock_moved t = true ->
  let rts := response_times t in
  let s := Py.sorted rts in
  let n := length rts in
  Sorted Qle s /\ Permutation s rts /\
  exists st,
    generate_statistics t = Some st /\
    ((3 < n)%nat ->
       exclusive_percentile st s "p25_response_time" 4 1 /\
       exclusive_percentile st s "p75_response_time" 4 3) /\
    ((1 < n)%nat -> exclusive_percentile st s "p50_response_time" 2 1) /\
    (n = 1%nat ->
       exists a,
         rts = [a] /\ reports st "p25_response_time" a /\
         reports st "p50_response_time" a /\ reports st "p75_response_time" a) /\
    (if decide (9 < n)%nat
     then exclusive_percentile st s "p90_response_time" 10 9
     else maximum_percentile st rts "p90_response_time") /\
    (if decide (19 < n)%nat
     then exclusive_percentile st s "p95_response_time" 20 19
     else maximum_percentile st rts "p95_response_time") /\
    (if decide (99 < n)%nat
     then exclusive_percentile st s "p99_response_time" 100 99
     else maximum_percentile st rts "p99_response_time").
Proof.
  intros Hne Hclock rts s n.
  split; [apply sorted_Sorted|]. split; [apply sorted_perm|].
  destruct (percentiles_report t Hne Hclock) as (st & v & Hst & Hv & Hall).
  apply percentile_entries in Hall
    as (_ & _ & _ & _ & _ & E25 & E50 & E75 & E90 & E95 & E99).
  destruct Hv as (_ & Hmax & _ & _ & _ & H25 & H50 & H75 & H90 & H95 & H99).
  fold rts in Hmax, H25, H50, H75, H90, H95, H99. fold n in H25, H50, H75, H90, H95, H99.
  destruct (max_spec rts Hne) as (mx & Hmx & Hmx_in & Hmx_le).
  exists st. split; [exact Hst|].
  split; [|split; [|split; [|split; [|split]]]].
  - intros Hn. decide_ltb H25. decide_ltb H75.
    destruct (cut_is_interpolation rts 4 1 (v_p25 v)) as (a & Ha & Hqa);
      [fold n; lia..|exact H25|].
    destruct (cut_is_interpolation rts 4 3 (v_p75 v)) as (b & Hb & Hqb);
      [fold n; lia..|exact H75|].
    split; [exists a | exists b]; close_reports.
  - intros Hn. decide_ltb H50.
    destruct (cut_is_interpolation rts 2 1 (v_p50 v)) as (a & Ha & Hqa);
      [fold n; lia..|exact H50|].
    exists a. close_reports.
  - intros Hn. decide_ltb H25. decide_ltb H50. decide_ltb H75.
    subst n. destruct rts as [|a [|? ?]]; try discriminate.
    exists a. split; [reflexivity|].
    rewrite index_singleton_0 in H25, H50.
    change (Py.index [a] (-1)) with (Some a) in H75.
    injection H25 as H25'. injection H50 as H50'. injection H75 as H75'.
    repeat split; eapply reports_intro; eauto;
      rewrite <- ?H25', <- ?H50', <- ?H75'; reflexivity.
  - destruct (decide (9 < n)%nat); decide_ltb H90.
    + destruct (cut_is_interpolation rts 10 9 (v_p90 v)) as (a & Ha & Hqa);
        [fold n; lia..|exact H90|].
      exists a. close_reports.
    + exists mx. split; [split; assumption|].
      eapply reports_intro; [exact E90|]. rewrite Hmx in H90. injection H90 as <-. reflexivity.
  - destruct (decide (19 < n)%nat); decide_ltb H95.
    + destruct (cut_is_interpolation rts 20 19 (v_p95 v)) as (a & Ha & Hqa);
        [fold n; lia..|exact H95|].
      exists a. close_reports.
    + exists mx. split; [split; assumption|].
      eapply reports_intro; [exact E95|]. rewrite Hmx in H95. injection H95 as <-. reflexivity.
  - destruct (decide (99 < n)%nat); decide_ltb H99.
    + destruct (cut_is_interpolation rts 100 99 (v_p99 v)) as (a & Ha & Hqa);
        [fold n; lia..|exact H99|].
      exists a. close_reports.
    + exists mx. split; [split; assumption|].
      eapply reports_intro; [exact E99|]. rewrite Hmx in H99. injection H99 as <-. reflexivity.
Qed.

(** The hypotheses of C1 hold for the run of four requests. *)
Lemma C1_percentiles_exclusive_witness :
  response_times run_four <> [] /\ clock_moved run_four = true /\
  exists st,
    generate_statistics run_four = Some st /\
    exclusive_percentile st (Py.sorted (response_times run_four))
      "p25_response_time" 4 1.
Proof.
  split; [vm_compute; discriminate|]. split; [vm_compute; reflexivity|].
  destruct (C1_percentiles_exclusive run_four) as (_ & _ & st & Hst & H25 & _);
    [vm_compute; discriminate | vm_compute; reflexivity |].
  exists st. split; [exact Hst|]. apply H25. vm_compute. lia.
Defined.

(** C1, as stated, fails on two runs. With the response times
    [0; 4; 8; 12] the "inclusive" method gives 3 for P25 and the code
    reports 1. With the response times [5; 1] the minimum is 1 and the
    code reports 5 for P25. *)
Lemma C1_counterexample :
  (response_times run_four = [0; 4; 8; 12]%Q /\
   (exists a, interpolate_inclusive (Py.sorted (response_times run_four)) 4 1 = Some a
              /\ (a == 3)%Q) /\
   (exists b, (st ← generate_statistics run_four; st !! "p25_response_time")
              = Some (Num b) /\ (b == 1)%Q /\ ~ (b == 3)%Q)) /\
  (response_times run_slow_then_fast = [5; 1]%Q /\
   Py.min (response_times run_slow_then_fast) = Some 1%Q /\
   (st ← generate_statistics run_slow_then_fast; st !! "p25_response_time")
     = Some (Num 5) /\ ~ (5 == 1)%Q).
Proof.
  split.
  - split; [vm_compute; reflexivity|]. split.
    + exists (12 # 4)%Q. split; vm_compute; reflexivity.
    + exists (4 # 4)%Q. split; [vm_compute; reflexivity|].
      split; [reflexivity | discriminate].
  - split; [vm_compute; reflexivity|]. split; [vm_compute; reflexivity|].
    split; [vm_compute; reflexivity | discriminate].
Qed.

(** C2 fails on the run whose two requests took 5 s and then 1 s:
    the code reports P25 = 5, P50 = 3 and P75 = 1. *)
Theorem C2_percentiles_out_of_order :
  response_times run_slow_then_fast = [5; 1]%Q /\
  exists p25 p50 p75,
    (st ← generate_statistics run_slow_then_fast; st !! "p25_response_time")
      = Some (Num p25) /\
    (st ← generate_statistics run_slow_then_fast; st !! "p50_response_time")
      = Some (Num p50) /\
    (st ← generate_statistics run_slow_then_fast; st !! "p75_response_time")
      = Some (Num p75) /\
    (p25 == 5)%Q /\ (p50 == 3)%Q /\ (p75 == 1)%Q /\
    ~ (p25 <= p50)%Q /\ ~ (p50 <= p75)%Q.
Proof.
  split; [vm_compute; reflexivity|].
  exists 5%Q, (6 # 2)%Q, 1%Q.
  repeat split; try (vm_compute; reflexivity); intros H; now vm_compute in H.
Qed.

End percentiles.

(** * The order of the percentiles *)

Section monotone.







Lemma sorted_within (rts : list Q) (x mn mx : Q) (j : nat) :
  Py.sorted rts !! j = Some x ->
  Py.min rts = Some mn -> Py.max rts = Some mx ->
  (mn <= x <= mx)%Q.
Proof.
  intros Hx Hmn Hmx.
  assert (Hin : x ∈ rts).
  { rewrite <- (sorted_perm rts). eapply list_elem_of_lookup_2; eassumption. }
  assert (Hne : rts <> []) by (intros ->; inversion Hin).
  destruct (min_spec rts Hne) as (mn' & Hmn' & _ & Hle).
  destruct (max_spec rts Hne) as (mx' & Hmx' & _ & Hge).
  rewrite Hmn in Hmn'. rewrite Hmx in Hmx'. injection Hmn' as <-. injection Hmx' as <-.
  rewrite Forall_forall in Hle, Hge. split; [apply Hle | apply Hge]; assumption.
Qed.




End monotone.

(** * The standard deviation *)

Section deviation.

Lemma Q2R_inject_Z z : Q2R (inject_Z z) = IZR z.
Proof. unfold Q2R, inject_Z. simpl. field. Qed.

Lemma Q2R_of_len {A} (l : list A) : Q2R (of_len l) = INR (length l).
Proof. unfold of_len. now rewrite Q2R_inject_Z, INR_IZR_INZ. Qed.

Lemma Q2R_foldl_plus a l :
  Q2R (foldl Qplus a l) = (Q2R a + Rsum (map Q2R l))%R.
Proof.
  revert a. induction l as [|x l IH]; intros a; simpl.
  - lra.
  - rewrite IH, Q2R_plus. lra.
Qed.

Lemma Q2R_sum l : Q2R (Py.sum l) = Rsum (map Q2R l).
Proof.
  unfold Py.sum. rewrite Q2R_foldl_plus.
  replace (Q2R 0) with 0%R by (unfold Q2R; simpl; lra). lra.
Qed.

Lemma Q2R_mean l c :
  statistics.mean l = Some c -> Q2R c = Rmean (map Q2R l).
Proof.
  destruct l as [|x l]; [discriminate|]. intros [= <-].
  unfold Rmean. rewrite length_map.
  rewrite Q2R_div.
  - now rewrite Q2R_sum, Q2R_inject_Z, <- INR_IZR_INZ.
  - intros H. pose proof (of_len_nonzero (x :: l) ltac:(discriminate)) as Hz.
    apply Qeq_bool_iff in H. change (Qeq_bool (of_len (x :: l)) 0 = true) in H.
    rewrite Hz in H. discriminate.
Qed.

Lemma Q2R_ss l c :
  Q2R (statistics.ss l c) =
  Rsum (map (fun x => ((x - Q2R c) * (x - Q2R c))%R) (map Q2R l)).
Proof.
  unfold statistics.ss. rewrite Q2R_sum. f_equal.
  rewrite !map_map. apply map_ext. intros x.
  now rewrite Q2R_mult, Q2R_minus.
Qed.

(** The exact fraction under the root of [statistics.stdev] is the
    sample variance of the real numbers. *)
Lemma stdev_sample l r :
  statistics.stdev l = Some r ->
  statistics.sqrt_value r = sample_stdev (map Q2R l).
Proof.
  unfold statistics.stdev, statistics.variance.
  destruct (Z.ltb_spec (Z.of_nat (length l)) 2) as [|Hlen]; [discriminate|].
  destruct (statistics.mean l) as [c|] eqn:Hc; [|discriminate].
  cbn [mbind option_bind]. intros [= <-].
  unfold statistics.sqrt_value, sample_stdev, squared_deviations. f_equal.
  rewrite Q2R_div.
  - rewrite Q2R_ss, (Q2R_mean l c Hc), Q2R_inject_Z, length_map.
    rewrite minus_IZR, <- INR_IZR_INZ. reflexivity.
  - intros H. change 0%Q with (inject_Z 0) in H.
    apply (proj1 (inject_Z_injective _ _)) in H. lia.
Qed.

(** C9, amended. For every run with a successful result (and a clock
    that moved), [std_response_time] is 0 with exactly one sample, and
    with more samples it is the sample standard deviation (divisor
    [n - 1]) of the response times. *)
Theorem C9_sample_standard_deviation (t : StressTester) :
  response_times t <> [] -> clock_moved t = true ->
  exists st v,
    generate_statistics t = Some st /\
    st !! "std_response_time" = Some v /\
    (length (response_times t) = 1%nat -> v = Num 0) /\
    ((1 < length (response_times t))%nat ->
     number v = sample_stdev (map Q2R (response_times t))).
Proof.
  intros Hne Hclock.
  destruct (percentiles_report t Hne Hclock) as (st & v & Hst & Hv & Hall).
  apply percentile_entries in Hall as (_ & _ & _ & _ & Estd & _).
  destruct Hv as (_ & _ & _ & _ & Hstd & _).
  exists st, (v_std v). split; [exact Hst|]. split; [exact Estd|]. split.
  - intros Hn. decide_ltb Hstd. now injection Hstd as <-.
  - intros Hn. decide_ltb Hstd.
    destruct (statistics.stdev (response_times t)) as [r|] eqn:Hr; [|discriminate].
    cbn in Hstd. injection Hstd as <-. simpl. now apply stdev_sample.
Qed.

Lemma C9_sample_standard_deviation_witness :
  response_times run_one_three <> [] /\ clock_moved run_one_three = true /\
  exists st v,
    generate_statistics run_one_three = Some st /\
    st !! "std_response_time" = Some v /\
    (length (response_times run_one_three) = 1%nat -> v = Num 0) /\
    ((1 < length (response_times run_one_three))%nat ->
     number v = sample_stdev (map Q2R (response_times run_one_three))).
Proof.
  split; [vm_compute; discriminate|]. split; [vm_compute; reflexivity|].
  apply (C9_sample_standard_deviation run_one_three);
    [vm_compute; discriminate | vm_compute; reflexivity].
Defined.

Lemma Q2R_1 : Q2R 1 = 1%R.
Proof. unfold Q2R. simpl. lra. Qed.

Lemma Q2R_3 : Q2R 3 = 3%R.
Proof. unfold Q2R. simpl. lra. Qed.

(** C9, as stated, fails on the run whose two requests took 1 s and
    3 s: the population standard deviation of [1; 3] is 1, and the code
    reports the square root of 2. *)
Lemma C9_counterexample :
  response_times run_one_three = [1; 3]%Q /\
  population_stdev (map Q2R [1; 3]%Q) = 1%R /\
  exists v,
    (st ← generate_statistics run_one_three; st !! "std_response_time") = Some v /\
    number v = sqrt 2 /\
    number v <> population_stdev (map Q2R [1; 3]%Q).
Proof.
  assert (Hpop : population_stdev (map Q2R [1; 3]%Q) = 1%R).
  { unfold population_stdev, squared_deviations, Rmean. simpl.
    rewrite Q2R_1, Q2R_3.
    replace (((1 - (1 + (3 + 0)) / (1 + 1)) * (1 - (1 + (3 + 0)) / (1 + 1)) +
              ((3 - (1 + (3 + 0)) / (1 + 1)) * (3 - (1 + (3 + 0)) / (1 + 1)) + 0)) /
             (1 + 1))%R with 1%R by field.
    apply sqrt_1. }
  split; [vm_compute; reflexivity|]. split; [exact Hpop|].
  exists (Root (statistics.Sqrt (32 # 16))).
  split; [vm_compute; reflexivity|].
  assert (Hv : number (Root (statistics.Sqrt (32 # 16))) = sqrt 2).
  { simpl. f_equal. unfold Q2R. simpl. lra. }
  split; [exact Hv|].
  rewrite Hv, Hpop. intros H.
  assert (H2 : (sqrt 2 * sqrt 2 = 2)%R) by (apply sqrt_sqrt; lra).
  rewrite H in H2. lra.
Qed.

End deviation.

(** * [make_request] *)

Section request.

(** Lenient decoding: ASCII bytes are kept, bytes that cannot start a
    sequence are dropped. *)
Lemma decode_ascii bs :
  Forall (fun b => (Byte.to_N b < 0x80)%N) bs -> utf8.decode bs = map Byte.to_N bs.
Proof.
  induction 1 as [|b bs Hb _ IH]; [reflexivity|].
  cbn [utf8.decode map]. apply N.ltb_lt in Hb. rewrite Hb. now rewrite IH.
Qed.

Lemma between_false lo c hi :
  (c < lo \/ hi < c)%N -> utf8.between lo c hi = false.
Proof.
  intros H. unfold utf8.between.
  destruct (N.leb_spec lo c), (N.leb_spec c hi); simpl; try reflexivity; lia.
Qed.

Lemma invalid_start_range c :
  invalid_start c = true -> (0x80 <= c <= 0xC1 \/ 0xF5 <= c)%N.
Proof.
  unfold invalid_start, utf8.between.
  destruct (N.leb_spec 0x80 c), (N.leb_spec c 0xC1), (N.leb_spec 0xF5 c);
    simpl; intros Hc; try discriminate; lia.
Qed.

Lemma decode_invalid_start b bs :
  invalid_start (Byte.to_N b) = true -> utf8.decode (b :: bs) = utf8.decode bs.
Proof.
  intros Hb. apply invalid_start_range in Hb.
  set (c0 := Byte.to_N b) in *.
  assert (H1 : N.ltb c0 0x80 = false) by (apply N.ltb_ge; lia).
  assert (HC2 : utf8.between 0xC2 c0 0xDF = false) by (apply between_false; lia).
  assert (HE0 : N.eqb c0 0xE0 = false) by (apply N.eqb_neq; lia).
  assert (HE1 : utf8.between 0xE1 c0 0xEC = false) by (apply between_false; lia).
  assert (HED : N.eqb c0 0xED = false) by (apply N.eqb_neq; lia).
  assert (HEE : utf8.between 0xEE c0 0xEF = false) by (apply between_false; lia).
  assert (HF0 : N.eqb c0 0xF0 = false) by (apply N.eqb_neq; lia).
  assert (HF1 : utf8.between 0xF1 c0 0xF3 = false) by (apply between_false; lia).
  assert (HF4 : N.eqb c0 0xF4 = false) by (apply N.eqb_neq; lia).
  assert (H2 : forall c1, utf8.two_ok c0 c1 = false).
  { intros c1. unfold utf8.two_ok. now rewrite HC2. }
  assert (H3 : forall c1 c2, utf8.three_ok c0 c1 c2 = false).
  { intros c1 c2. unfold utf8.three_ok. rewrite HE0, HE1, HED, HEE.
    cbn [andb orb]. apply andb_false_r. }
  assert (H4 : forall c1 c2 c3, utf8.four_ok c0 c1 c2 c3 = false).
  { intros c1 c2 c3. unfold utf8.four_ok. rewrite HF0, HF1, HF4.
    cbn [andb orb]. apply andb_false_r. }
  cbn [utf8.decode]. fold c0. rewrite H1.
  destruct bs as [|b1 [|b2 [|b3 bs]]]; rewrite ?H2, ?H3, ?H4; reflexivity.
Qed.

Lemma make_request_response tester att url method status data :
  prepare tester (at_files att) = Ready ->
  at_http att = Response status data ->
  fst (make_request tester att url method) =
  mkRequestResult url method status (at_elapsed att) (at_start att)
    (assertions tester status data (at_elapsed att))
    (Z.of_nat (length data)).
Proof. intros Hp Hh. unfold make_request. now rewrite Hp, Hh. Qed.

Lemma check_max_rt_fails tester rt error limit :
  assert_max_rt tester = Some limit -> (limit < rt)%Q ->
  check_max_rt tester rt error = Some (AssertMaxRT limit rt).
Proof.
  intros Hl Hlt. unfold check_max_rt. rewrite Hl.
  now rewrite (proj2 (Qltb_true limit rt) Hlt).
Qed.

Lemma check_max_rt_passes tester rt error :
  ~ max_rt_check_fails tester rt -> check_max_rt tester rt error = error.
Proof.
  intros Hn. unfold check_max_rt.
  destruct (assert_max_rt tester) as [limit|] eqn:E; [|reflexivity].
  destruct (Py.Qltb limit rt) eqn:Hlt; [|reflexivity].
  exfalso. apply Hn. exists limit. split; [assumption|]. now apply Qltb_true.
Qed.

Lemma check_body_fails tester data error needle :
  assert_body_contains tester = Some needle -> needle <> [] ->
  contains needle (utf8.decode data) = false ->
  check_body tester data error = Some (AssertBody needle).
Proof.
  intros Hb Hne Hc. unfold check_body. rewrite Hb.
  destruct needle as [|c needle]; [congruence|]. now rewrite Hc.
Qed.

Lemma check_body_passes tester data error :
  ~ body_check_fails tester data -> check_body tester data error = error.
Proof.
  intros Hn. unfold check_body.
  destruct (assert_body_contains tester) as [[|c needle]|] eqn:E; try reflexivity.
  destruct (contains (c :: needle) (utf8.decode data)) eqn:Hc; [reflexivity|].
  exfalso. apply Hn. exists (c :: needle). repeat split; [assumption | discriminate | assumption].
Qed.

Lemma check_status_fails tester status error expected :
  assert_status tester = Some expected -> status <> expected ->
  check_status tester status error = Some (AssertStatus expected status).
Proof.
  intros He Hne. unfold check_status. rewrite He.
  destruct (Z.eqb_spec status expected); [contradiction | reflexivity].
Qed.

Lemma check_status_passes tester status error :
  ~ status_check_fails tester status -> check_status tester status error = error.
Proof.
  intros Hn. unfold check_status.
  destruct (assert_status tester) as [expected|] eqn:E; [|reflexivity].
  destruct (Z.eqb_spec status expected); [reflexivity|].
  exfalso. apply Hn. now exists expected.
Qed.

(** C7, amended. For every response obtained the real status code is
    recorded, and the error is that of the last failed check in the
    order status, body, maximum response time: [AssertMaxRT] whenever
    the maximum response time is set and exceeded; [AssertBody] when
    that check passes and a non-empty body substring is set and absent
    from the leniently decoded body; [AssertStatus] when both later
    checks pass and the expected status is set and differs; no error
    when no check fails. *)
Theorem C7_last_failed_assertion tester att url method status data :
  prepare tester (at_files att) = Ready ->
  at_http att = Response status data ->
  let r := fst (make_request tester att url method) in
  let rt := at_elapsed att in
  status_code r = status /\
  (forall limit,
     assert_max_rt tester = Some limit -> (limit < rt)%Q ->
     error r = Some (AssertMaxRT limit rt)) /\
  (forall needle,
     ~ max_rt_check_fails tester rt ->
     assert_body_contains tester = Some needle -> needle <> [] ->
     contains needle (utf8.decode data) = false ->
     error r = Some (AssertBody needle)) /\
  (forall expected,
     ~ max_rt_check_fails tester rt -> ~ body_check_fails tester data ->
     assert_status tester = Some expected -> status <> expected ->
     error r = Some (AssertStatus expected status)) /\
  (~ max_rt_check_fails tester rt -> ~ body_check_fails tester data ->
   ~ status_check_fails tester status -> error r = None).
Proof.
  intros Hp Hh r rt. subst r.
  rewrite (make_request_response tester att url method status data Hp Hh).
  cbn [status_code error]. unfold assertions. fold rt.
  split; [reflexivity|]. split; [|split; [|split]].
  - intros limit Hl Hlt. now apply check_max_rt_fails.
  - intros needle Hrt Hb Hne Hc.
    rewrite check_max_rt_passes by assumption. now apply check_body_fails.
  - intros expected Hrt Hb He Hne.
    rewrite check_max_rt_passes, check_body_passes by assumption.
    now apply check_status_fails.
  - intros Hrt Hb Hs.
    now rewrite check_max_rt_passes, check_body_passes, check_status_passes.
Qed.

(** The hypotheses of C7 hold for an answer 500 to a tester that
    expects 200: the result records 500 and the status assertion. *)
Lemma C7_last_failed_assertion_witness :
  let tester := set_assertions (Some 200) None None
                  (init ["http://a"] "GET" 1 1 None None None None) in
  let r := fst (make_request tester answer_500_no "http://a" "GET") in
  status_code r = 500 /\ error r = Some (AssertStatus 200 500).
Proof.
  intros tester r.
  destruct (C7_last_failed_assertion tester answer_500_no "http://a" "GET" 500 [x6e; x6f])
    as (Hs & _ & _ & He & _); [reflexivity | reflexivity |].
  split; [exact Hs|]. apply He.
  - intros (limit & Hl & _). discriminate Hl.
  - intros (needle & Hb & _). discriminate Hb.
  - reflexivity.
  - discriminate.
Defined.

(** C7, as stated, fails when two checks fail: the expected status 200
    is set and the answer is 500, yet the result carries the error of
    the body check, not [AssertStatus]. *)
Lemma C7_counterexample :
  let r := fst (make_request tester_two_assertions answer_500_no "http://a" "GET") in
  assert_status tester_two_assertions = Some 200 /\
  at_http answer_500_no = Response 500 [x6e; x6f] /\
  status_code r = 500 /\
  error r = Some (AssertBody (ascii_text "ok")) /\
  kind <$> error r <> Some KAssertStatus.
Proof. vm_compute. repeat split; discriminate. Qed.

(** C8, as stated, fails in scenario D: the three results carry an
    error and a response size of 2 bytes. *)
Lemma C8_counterexample :
  map (fun r => (error r, response_size r)) (results scenario_D) =
  replicate 3 (Some (AssertStatus 200 500), 2).
Proof. vm_compute. reflexivity. Qed.

(** C8, amended. A result built when no response was obtained (a file
    that cannot be opened, or an exception of the HTTP layer) has
    status code 0 and response size 0; a result whose error comes from
    a failed assertion carries the status and the size of the body of
    the response received. *)
Theorem C8_size_zero_without_response tester att url method :
  let r := fst (make_request tester att url method) in
  (forall e, error r = Some e -> kind e = KFile \/ kind e = KException ->
     status_code r = 0 /\ response_size r = 0) /\
  (forall e, error r = Some e ->
     kind e = KAssertStatus \/ kind e = KAssertBody \/ kind e = KAssertMaxRT ->
     exists status data,
       at_http att = Response status data /\
       status_code r = status /\ response_size r = Z.of_nat (length data)).
Proof.
  unfold make_request.
  destruct (prepare tester (at_files att)) eqn:Hp; cbn.
  - destruct (at_http att) as [status data|why msg] eqn:Hh; cbn.
    + split.
      * intros e He Hk. exfalso. unfold assertions in He.
        unfold check_max_rt, check_body, check_status in He.
        repeat match type of He with
        | context [match ?x with _ => _ end] => destruct x
        end; try discriminate He; injection He as <-; destruct Hk; discriminate.
      * intros e _ _. now exists status, data.
    + split; [intros; now split|].
      intros e [= <-] [Hk | [Hk | Hk]]; discriminate.
  - split; [intros; now split|].
    intros e' [= <-] [Hk | [Hk | Hk]]; discriminate.
  - split; [intros; now split|].
    intros e' [= <-] [Hk | [Hk | Hk]]; discriminate.
Qed.

End request.

(** * The workers *)

Section pool.

Lemma items_finally_task_done q : items (finally_task_done q) = items q.
Proof.
  unfold finally_task_done, task_done. destruct (unfinished_tasks q); reflexivity.
Qed.

Lemma unfinished_finally_task_done q :
  unfinished_tasks (finally_task_done q) = Nat.pred (unfinished_tasks q).
Proof. destruct q as [its [|n]]; reflexivity. Qed.

Lemma make_request_url tester att u m : url (fst (make_request tester att u m)) = u.
Proof.
  unfold make_request.
  destruct (prepare tester (at_files att)); [destruct (at_http att)|..]; reflexivity.
Qed.

Lemma make_request_tester tester att u m :
  urls (snd (make_request tester att u m)) = urls tester /\
  results (snd (make_request tester att u m)) = results tester.
Proof.
  unfold make_request.
  destruct (prepare tester (at_files att)); [destruct (at_http att)|..]; now split.
Qed.

Lemma select_url_Some (l : list string) request_id :
  l <> [] -> exists u, select_url l request_id = Some u.
Proof.
  intros Hne. unfold select_url.
  destruct (length l) as [|n] eqn:Hl; [destruct l; [congruence | discriminate]|].
  rewrite <- Hl. apply lookup_lt_is_Some_2. apply Nat.mod_upper_bound. lia.
Qed.

Lemma select_url_lookup (l : list string) request_id :
  l <> [] -> select_url l request_id = l !! (request_id mod length l)%nat.
Proof.
  intros Hne. unfold select_url.
  destruct (length l) as [|n] eqn:Hl; [destruct l; [congruence | discriminate]|].
  reflexivity.
Qed.

Lemma in_flight_insert ws w st st' :
  ws !! w = Some st ->
  exists rest,
    in_flight_ids ws ≡ₚ held st ++ rest /\
    in_flight_ids (<[w := st']> ws) ≡ₚ held st' ++ rest.
Proof.
  intros Hw.
  exists (in_flight_ids (take w ws) ++ in_flight_ids (drop (S w) ws)).
  unfold in_flight_ids. split.
  - rewrite <- (take_drop_middle ws w st Hw) at 1.
    rewrite bind_app, bind_cons.
    rewrite (Permutation_app_comm (take w ws ≫= held)). rewrite <- !app_assoc.
    apply Permutation_app_head, Permutation_app_comm.
  - rewrite insert_take_drop by (eapply lookup_lt_Some; eassumption).
    rewrite bind_app, bind_cons.
    rewrite (Permutation_app_comm (take w ws ≫= held)). rewrite <- !app_assoc.
    apply Permutation_app_head, Permutation_app_comm.
Qed.

(** A worker that holds no ID before and after its step leaves the IDs
    in flight as they are. *)
Lemma in_flight_insert_idle ws w st st' :
  ws !! w = Some st -> held st = [] -> held st' = [] ->
  in_flight_ids (<[w := st']> ws) ≡ₚ in_flight_ids ws.
Proof.
  intros Hw Hst Hst'. destruct (in_flight_insert ws w st st' Hw) as (rest & H1 & H2).
  rewrite H1, H2, Hst, Hst'. reflexivity.
Qed.

Lemma lookup_insert_Requesting (ws : list Worker) w st w' request_id u :
  <[w := st]> ws !! w' = Some (Requesting request_id u) ->
  (w' = w /\ st = Requesting request_id u) \/ ws !! w' = Some (Requesting request_id u).
Proof.
  destruct (decide (w = w')) as [->|Hne].
  - destruct (decide (w' < length ws)%nat).
    + rewrite list_lookup_insert_eq by assumption. intros [= ->]. now left.
    + rewrite list_insert_ge by lia. now right.
  - rewrite list_lookup_insert_ne by assumption. now right.
Qed.

Lemma exit_worker_inv t p w st :
  workers p !! w = Some st -> held st = [] ->
  pool_inv t p -> pool_inv t (exit_worker w p).
Proof.
  intros Hw Hst [Hu Hids Hres Hout Hreq]. unfold exit_worker, set_worker, set_queue.
  constructor; cbn.
  - assumption.
  - rewrite (in_flight_insert_idle _ w st Exited Hw Hst eq_refl).
    now rewrite items_finally_task_done.
  - assumption.
  - assumption.
  - intros w' request_id u Hl.
    apply lookup_insert_Requesting in Hl as [[_ ?] | Hl]; [discriminate | eauto].
Qed.

Lemma start_request_inv t p w st request_id rest :
  urls t <> [] ->
  workers p !! w = Some st ->
  in_flight_ids (workers p) ≡ₚ held st ++ rest ->
  (forall st', in_flight_ids (<[w := st']> (workers p)) ≡ₚ held st' ++ rest) ->
  urls (tester p) = urls t ->
  issued p ++ (request_id :: rest) ++ queued_ids (items (request_queue p))
    ≡ₚ seq 0 (num_requests t) ->
  Forall2 (fun r request_id => select_url (urls t) request_id = Some (url r))
          (results (tester p)) (issued p) ->
  stdout p = [] ->
  (forall w request_id u,
     workers p !! w = Some (Requesting request_id u) ->
     select_url (urls t) request_id = Some u) ->
  pool_inv t (start_request w request_id p).
Proof.
  intros Hne Hw Hfl Hins Hu Hids Hres Hout Hreq. unfold start_request.
  rewrite Hu. destruct (select_url_Some (urls t) request_id Hne) as [u Hsel].
  rewrite Hsel. unfold set_worker. constructor; cbn.
  - assumption.
  - now rewrite (Hins (Requesting request_id u)).
  - assumption.
  - assumption.
  - intros w' id' u' Hl.
    apply lookup_insert_Requesting in Hl as [[_ [= <- <-]] | Hl]; eauto.
Qed.

Lemma step_inv t p w att :
  urls t <> [] -> pool_inv t p -> pool_inv t (step w att p).
Proof.
  intros Hne Hinv. unfold step.
  destruct (workers p !! w) as [[|request_id|request_id u|]|] eqn:Hw; try assumption.
  - (* the worker was waiting for an item *)
    unfold get. destruct (items (request_queue p)) as [|[request_id|] rest] eqn:Hq.
    + cbn. eapply exit_worker_inv; [eassumption | reflexivity |].
      destruct Hinv as [Hu Hids Hres Hout Hreq].
      constructor; [exact Hu | | exact Hres | exact Hout | exact Hreq].
      first [exact Hids | rewrite Hq in Hids; exact Hids].
    + destruct Hinv as [Hu Hids Hres Hout Hreq]. rewrite Hq in Hids. cbn in Hids.
      unfold after_get, set_queue. cbn [tester].
      destruct (in_flight_insert (workers p) w Getting Getting Hw) as (fl & Hfl & _).
      assert (Hins : forall st', in_flight_ids (<[w := st']> (workers p)) ≡ₚ held st' ++ fl).
      { intros st'. destruct (in_flight_insert (workers p) w Getting st' Hw)
          as (fl' & Hfl' & Hst'). rewrite Hst'. apply Permutation_app_head.
        cbn in Hfl, Hfl'. now rewrite <- Hfl, <- Hfl'. }
      assert (Hids' : issued p ++ (request_id :: fl) ++ queued_ids rest
                      ≡ₚ seq 0 (num_requests t)).
      { rewrite <- Hids. apply Permutation_app_head. cbn in Hfl. rewrite Hfl.
        cbn. apply Permutation_middle. }
      destruct (paced (config_rate_limit (tester p))).
      * unfold set_worker. constructor; cbn.
        -- assumption.
        -- now rewrite (Hins (Pacing request_id)).
        -- assumption.
        -- assumption.
        -- intros w' id' u' Hl.
           apply lookup_insert_Requesting in Hl as [[_ ?] | Hl]; [discriminate | eauto].
      * eapply start_request_inv with (st := Getting) (rest := fl); cbn; eauto.
    + cbn. eapply exit_worker_inv; [eassumption | reflexivity |].
      destruct Hinv as [Hu Hids Hres Hout Hreq].
      constructor; [exact Hu | | exact Hres | exact Hout | exact Hreq].
      first [exact Hids | rewrite Hq in Hids; exact Hids].
  - (* the worker was pacing *)
    destruct Hinv as [Hu Hids Hres Hout Hreq].
    destruct (in_flight_insert (workers p) w (Pacing request_id) Getting Hw)
      as (fl & Hfl & _).
    assert (Hins : forall st', in_flight_ids (<[w := st']> (workers p)) ≡ₚ held st' ++ fl).
    { intros st'. destruct (in_flight_insert (workers p) w (Pacing request_id) st' Hw)
        as (fl' & Hfl' & Hst'). rewrite Hst'. apply Permutation_app_head.
      rewrite Hfl in Hfl'. now apply Permutation_app_inv_l in Hfl'. }
    eapply start_request_inv with (st := Pacing request_id) (rest := fl); eauto.
    rewrite <- Hids. now rewrite Hfl.
  - (* the worker was waiting for the answer *)
    destruct Hinv as [Hu Hids Hres Hout Hreq].
    unfold finish_request.
    destruct (make_request (tester p) att u (config_method (tester p)))
      as [result tester'] eqn:Hmk.
    pose proof (make_request_url (tester p) att u (config_method (tester p))) as Hurl.
    pose proof (make_request_tester (tester p) att u (config_method (tester p)))
      as [Hu' Hres'].
    rewrite Hmk in Hurl, Hu', Hres'. cbn in Hurl, Hu', Hres'.
    destruct (in_flight_insert (workers p) w (Requesting request_id u) Getting Hw)
      as (fl & Hfl & Hfl').
    constructor; cbn.
    + congruence.
    + rewrite Hfl'. cbn.
      rewrite items_finally_task_done.
      rewrite <- Hids, Hfl. cbn. rewrite <- !app_assoc. reflexivity.
    + rewrite Hres'. apply Forall2_app; [assumption|].
      constructor; [|constructor]. rewrite Hurl. eauto.
    + assumption.
    + intros w' id' u' Hl.
      apply lookup_insert_Requesting in Hl as [[_ ?] | Hl]; [discriminate | eauto].
Qed.

Lemma run_inv t p schedule :
  urls t <> [] -> pool_inv t p -> pool_inv t (run schedule p).
Proof.
  intros Hne. revert p. induction schedule as [|[w att] schedule IH]; intros p Hinv.
  - assumption.
  - cbn. apply IH. now apply step_inv.
Qed.

Lemma items_foldl_put {A} (f : A -> option nat) (l : list A) q :
  items (foldl (fun q i => put q (f i)) q l) = items q ++ map f l.
Proof.
  revert q. induction l as [|x l IH]; intros q; cbn.
  - now rewrite app_nil_r.
  - rewrite IH. cbn. now rewrite <- app_assoc.
Qed.

Lemma unfinished_foldl_put {A} (f : A -> option nat) (l : list A) q :
  unfinished_tasks (foldl (fun q i => put q (f i)) q l)
  = (unfinished_tasks q + length l)%nat.
Proof.
  revert q. induction l as [|x l IH]; intros q; cbn.
  - lia.
  - rewrite IH. cbn. lia.
Qed.

(** The queue of [run_test]: the IDs in order, then one stop signal per
    worker, all of them unfinished. *)
Lemma queue_setup_spec t :
  items (queue_setup t)
  = map Some (seq 0 (num_requests t)) ++ replicate (config_concurrency t) None /\
  unfinished_tasks (queue_setup t) = (num_requests t + config_concurrency t)%nat.
Proof.
  unfold queue_setup. split.
  - rewrite (items_foldl_put (fun _ => None)), (items_foldl_put Some). cbn.
    f_equal. generalize 0%nat.
    induction (config_concurrency t) as [|n IH]; intros k; cbn; [reflexivity|].
    now rewrite IH.
  - rewrite (unfinished_foldl_put (fun _ => None)), (unfinished_foldl_put Some).
    cbn. now rewrite !length_seq.
Qed.

Lemma queued_ids_setup l n : queued_ids (map Some l ++ replicate n None) = l.
Proof.
  unfold queued_ids. rewrite omap_app.
  assert (H1 : omap (fun item : option nat => item) (map Some l) = l).
  { induction l as [|x l IH]; cbn; [reflexivity | now rewrite IH]. }
  assert (H2 : omap (fun item : option nat => item) (replicate n None) = []).
  { induction n as [|n IH]; cbn; [reflexivity | assumption]. }
  now rewrite H1, H2, app_nil_r.
Qed.

Lemma in_flight_replicate n : in_flight_ids (replicate n Getting) = [].
Proof. induction n as [|n IH]; [reflexivity | assumption]. Qed.

Lemma start_workers_inv now t : results t = [] -> pool_inv t (start_workers now t).
Proof.
  intros Hres. unfold start_workers. constructor.
  - reflexivity.
  - cbn [issued workers request_queue].
    rewrite (proj1 (queue_setup_spec _)), in_flight_replicate, queued_ids_setup.
    reflexivity.
  - cbn. rewrite Hres. constructor.
  - reflexivity.
  - cbn [workers]. intros w request_id u Hl.
    apply lookup_replicate in Hl as [? _]. discriminate.
Qed.

(** The invariant holds after every schedule of a run. *)
Lemma run_test_inv now t schedule :
  urls t <> [] -> results t = [] ->
  pool_inv t (run schedule (start_workers now t)).
Proof. intros Hne Hres. apply run_inv; [assumption | now apply start_workers_inv]. Qed.

End pool.

(** * Every run can be drained *)

Section progress.

Lemma run_app s1 s2 p : run (s1 ++ s2) p = run s2 (run s1 p).
Proof. unfold run. apply foldl_app. Qed.

Lemma step_get_paced (p : Pool) (w request_id : nat) (att : Attempt)
    (rest : list (option nat)) :
  workers p !! w = Some Getting ->
  items (request_queue p) = Some request_id :: rest ->
  paced (config_rate_limit (tester p)) = true ->
  shape (step w att p)
  = (urls (tester p), config_rate_limit (tester p),
     <[w := Pacing request_id]> (workers p), rest).
Proof.
  intros Hw Hq Hp. unfold step, get. rewrite Hw, Hq. cbn. now rewrite Hp.
Qed.

Lemma step_start (p : Pool) (w request_id : nat) (att : Attempt) (u : string) :
  workers p !! w = Some (Pacing request_id) ->
  select_url (urls (tester p)) request_id = Some u ->
  shape (step w att p)
  = (urls (tester p), config_rate_limit (tester p),
     <[w := Requesting request_id u]> (workers p), items (request_queue p)).
Proof.
  intros Hw Hu. unfold step, start_request. now rewrite Hw, Hu.
Qed.

Lemma step_get_start (p : Pool) (w request_id : nat) (att : Attempt)
    (rest : list (option nat)) (u : string) :
  workers p !! w = Some Getting ->
  items (request_queue p) = Some request_id :: rest ->
  paced (config_rate_limit (tester p)) = false ->
  select_url (urls (tester p)) request_id = Some u ->
  shape (step w att p)
  = (urls (tester p), config_rate_limit (tester p),
     <[w := Requesting request_id u]> (workers p), rest).
Proof.
  intros Hw Hq Hp Hu. unfold step, get. rewrite Hw, Hq. cbn. rewrite Hp.
  unfold start_request. cbn. now rewrite Hu.
Qed.

Lemma step_finish_shape (p : Pool) (w request_id : nat) (att : Attempt) (u : string) :
  workers p !! w = Some (Requesting request_id u) ->
  shape (step w att p)
  = (urls (tester p), config_rate_limit (tester p),
     <[w := Getting]> (workers p), items (request_queue p)).
Proof.
  intros Hw. unfold step. rewrite Hw. unfold finish_request, make_request, shape.
  destruct (prepare (tester p) (at_files att)); [destruct (at_http att)|..];
    cbn; now rewrite items_finally_task_done.
Qed.

(** The first worker, alone, takes the next ID of the queue through to
    its result. *)
Lemma process_one (p : Pool) (att : Attempt) (request_id : nat)
    (rest : list (option nat)) :
  urls (tester p) <> [] ->
  workers p !! 0%nat = Some Getting ->
  items (request_queue p) = Some request_id :: rest ->
  exists schedule,
    shape (run schedule p)
    = (urls (tester p), config_rate_limit (tester p), workers p, rest).
Proof.
  intros Hne Hw Hq.
  destruct (select_url_Some (urls (tester p)) request_id Hne) as [u Hu].
  assert (Hlen : (0 < length (workers p))%nat) by (eapply lookup_lt_Some; eassumption).
  destruct (paced (config_rate_limit (tester p))) eqn:Hpaced.
  - exists [(0%nat, att); (0%nat, att); (0%nat, att)]. cbn [run foldl fst snd].
    pose proof (step_get_paced p 0 request_id att rest Hw Hq Hpaced) as H1.
    set (p1 := step 0 att p) in *. injection H1 as U1 R1 W1 I1.
    assert (Hw1 : workers p1 !! 0%nat = Some (Pacing request_id))
      by (rewrite W1; now apply list_lookup_insert_eq).
    pose proof (step_start p1 0 request_id att u Hw1 ltac:(now rewrite U1)) as H2.
    set (p2 := step 0 att p1) in *. injection H2 as U2 R2 W2 I2.
    assert (Hw2 : workers p2 !! 0%nat = Some (Requesting request_id u)).
    { rewrite W2. apply list_lookup_insert_eq. now rewrite W1, length_insert. }
    rewrite (step_finish_shape p2 0 request_id att u Hw2).
    rewrite U2, U1, R2, R1, I2, I1, W2, W1, !list_insert_insert_eq.
    now rewrite (list_insert_id _ _ _ Hw).
  - exists [(0%nat, att); (0%nat, att)]. cbn [run foldl fst snd].
    pose proof (step_get_start p 0 request_id att rest u Hw Hq Hpaced Hu) as H1.
    set (p1 := step 0 att p) in *. injection H1 as U1 R1 W1 I1.
    assert (Hw1 : workers p1 !! 0%nat = Some (Requesting request_id u))
      by (rewrite W1; now apply list_lookup_insert_eq).
    rewrite (step_finish_shape p1 0 request_id att u Hw1).
    rewrite U1, R1, I1, W1, !list_insert_insert_eq.
    now rewrite (list_insert_id _ _ _ Hw).
Qed.

Lemma drain_queue ids : forall p c,
  urls (tester p) <> [] ->
  workers p !! 0%nat = Some Getting ->
  Forall (fun st => in_flight st = false) (workers p) ->
  items (request_queue p) = map Some ids ++ replicate c None ->
  exists schedule, drained (run schedule p).
Proof.
  induction ids as [|request_id ids IH]; intros p c Hne Hw Hidle Hq.
  - exists []. split; [exact Hidle|]. cbn. rewrite Hq. cbn.
    apply Forall_forall. intros item Hin. now apply elem_of_replicate in Hin as [-> _].
  - destruct (process_one p (answer 0 0 (Response 200 [])) request_id
                (map Some ids ++ replicate c None) Hne Hw Hq)
      as (s1 & Hs1).
    injection Hs1 as Hu _ Hws Hitems.
    destruct (IH (run s1 p) c) as [s2 Hd].
    + now rewrite Hu.
    + now rewrite Hws.
    + now rewrite Hws.
    + exact Hitems.
    + exists (s1 ++ s2). now rewrite run_app.
Qed.

(** With at least one worker and one URL, some schedule processes all
    the request IDs of the run. *)
Lemma run_test_can_drain now t :
  urls t <> [] -> (0 < config_concurrency t)%nat ->
  exists schedule, drained (run schedule (start_workers now t)).
Proof.
  intros Hne Hc.
  apply (drain_queue (seq 0 (num_requests t)) _ (config_concurrency t)).
  - exact Hne.
  - unfold start_workers. cbn. apply lookup_replicate. split; [reflexivity | exact Hc].
  - unfold start_workers. cbn. apply Forall_forall. intros st Hin.
    now apply elem_of_replicate in Hin as [-> _].
  - unfold start_workers. cbn [request_queue].
    now rewrite (proj1 (queue_setup_spec _)).
Qed.

End progress.

(** * Round-robin selection of the URL *)

Section round_robin.

Lemma attempts_on_slot_app k j l1 l2 :
  attempts_on_slot k j (l1 ++ l2)
  = (attempts_on_slot k j l1 + attempts_on_slot k j l2)%nat.
Proof. unfold attempts_on_slot. now rewrite filter_app, length_app. Qed.

Lemma attempts_on_slot_perm k j l1 l2 :
  l1 ≡ₚ l2 -> attempts_on_slot k j l1 = attempts_on_slot k j l2.
Proof. intros H. unfold attempts_on_slot. now rewrite H. Qed.

(** Among the IDs [0 .. n-1], slot [j] is selected [n / k] times, and
    once more when [j] is below the remainder. *)
Lemma attempts_on_slot_seq k j n :
  (0 < k)%nat -> (j < k)%nat ->
  attempts_on_slot k j (seq 0 n)
  = (n / k + if decide (j < n mod k)%nat then 1 else 0)%nat.
Proof.
  intros Hk Hj. induction n as [|n IH].
  - cbn. rewrite Nat.Div0.div_0_l, Nat.Div0.mod_0_l.
    destruct (decide (j < 0)%nat); [lia | reflexivity].
  - rewrite seq_S, attempts_on_slot_app, IH. cbn [Nat.add].
    unfold attempts_on_slot at 1. rewrite filter_cons, filter_nil.
    pose proof (Nat.div_mod_eq n k) as Hn.
    pose proof (Nat.mod_upper_bound n k ltac:(lia)) as Hm.
    set (q := (n / k)%nat) in *. set (m := (n mod k)%nat) in *.
    destruct (decide (S m = k)) as [Hfull|Hpart].
    + assert (Hq : (S n / k = S q)%nat).
      { symmetry. apply (Nat.div_unique (S n) k (S q) 0); [lia|]. nia. }
      assert (Hr : (S n mod k = 0)%nat).
      { symmetry. apply (Nat.mod_unique (S n) k (S q) 0); [lia|]. nia. }
      rewrite Hq, Hr.
      destruct (decide (j < m)%nat), (decide (m = j)), (decide (j < 0)%nat);
        cbn; lia.
    + assert (Hq : (S n / k = q)%nat).
      { symmetry. apply (Nat.div_unique (S n) k q (S m)); lia. }
      assert (Hr : (S n mod k = S m)%nat).
      { symmetry. apply (Nat.mod_unique (S n) k q (S m)); lia. }
      rewrite Hq, Hr.
      destruct (decide (j < m)%nat), (decide (m = j)), (decide (j < S m)%nat);
        cbn; lia.
Qed.

Lemma ceil_div_spec n k :
  (0 < k)%nat ->
  ceil_div n k = (n / k + if decide (n mod k = 0)%nat then 0 else 1)%nat.
Proof.
  intros Hk. unfold ceil_div.
  pose proof (Nat.div_mod_eq n k) as Hn.
  pose proof (Nat.mod_upper_bound n k ltac:(lia)) as Hm.
  set (q := (n / k)%nat) in *. set (m := (n mod k)%nat) in *.
  destruct (decide (m = 0)%nat) as [Hz|Hnz].
  - symmetry. apply (Nat.div_unique _ k _ (k - 1)); lia.
  - symmetry. apply (Nat.div_unique _ k _ (m - 1)); [lia|]. nia.
Qed.

(** Each slot receives the floor or the ceiling of [n / k]. *)
Lemma attempts_on_slot_balanced k j n ids :
  (0 < k)%nat -> (j < k)%nat -> ids ≡ₚ seq 0 n ->
  attempts_on_slot k j ids = (n / k)%nat \/ attempts_on_slot k j ids = ceil_div n k.
Proof.
  intros Hk Hj Hperm.
  rewrite (attempts_on_slot_perm k j ids (seq 0 n) Hperm).
  rewrite attempts_on_slot_seq, ceil_div_spec by assumption.
  destruct (decide (j < n mod k)%nat), (decide (n mod k = 0)%nat); lia.
Qed.

(** With distinct URLs, the results for a URL are those of the IDs
    that select its slot. *)
Lemma attempts_on_url_slot (l : list string) j u rs ids :
  NoDup l -> l !! j = Some u ->
  Forall2 (fun r request_id => l !! (request_id mod length l)%nat = Some (url r)) rs ids ->
  attempts_on_url u rs = attempts_on_slot (length l) j ids.
Proof.
  intros Hnd Hj H. unfold attempts_on_url, attempts_on_slot.
  induction H as [|r request_id rs ids Hr _ IH]; [reflexivity|].
  rewrite !filter_cons.
  destruct (decide (url r = u)) as [Hu|Hu],
           (decide ((request_id mod length l)%nat = j)) as [Hs|Hs]; cbn; try lia.
  - exfalso. apply Hs. rewrite <- Hu in Hj.
    eapply NoDup_lookup; eassumption.
  - exfalso. apply Hu. rewrite Hs in Hr. congruence.
Qed.

End round_robin.

(** * The claims on the workers *)

Section workers.







Lemma drained_ids p :
  drained p ->
  in_flight_ids (workers p) = [] /\ queued_ids (items (request_queue p)) = [].
Proof.
  intros [Hw Hq]. split.
  - unfold in_flight_ids. induction Hw as [|st ws Hst _ IH]; [reflexivity|].
    rewrite bind_cons, IH. destruct st; try discriminate; reflexivity.
  - unfold queued_ids. induction Hq as [|item q Hitem _ IH]; [reflexivity|].
    subst item. exact IH.
Qed.

(** C5. In a run with [K >= 1] URLs and a fixed count of [N] requests,
    the URL of request [id] is [urls[id mod K]]; and once all IDs are
    processed, whatever the schedule of the workers, the processed IDs
    are [0 .. N-1] in some order, each slot of the URL list has
    received the floor or the ceiling of [N / K] attempts, and so has
    each URL when the URLs are distinct. *)
Theorem C5_round_robin_balance (t : StressTester) (now : Q)
    (schedule : list (nat * Attempt)) :
  urls t <> [] -> results t = [] -> Py.truthy (config_duration t) = false ->
  let K := length (urls t) in
  let N := config_num_requests t in
  let p := run schedule (start_workers now t) in
  (forall request_id,
     select_url (urls t) request_id = urls t !! (request_id mod K)%nat) /\
  (drained p ->
   issued p ≡ₚ seq 0 N /\
   Forall2 (fun r request_id => urls t !! (request_id mod K)%nat = Some (url r))
           (results (tester p)) (issued p) /\
   (forall j, (j < K)%nat ->
      attempts_on_slot K j (issued p) = (N / K)%nat \/
      attempts_on_slot K j (issued p) = ceil_div N K) /\
   (NoDup (urls t) ->
    forall u, u ∈ urls t ->
      attempts_on_url u (results (tester p)) = (N / K)%nat \/
      attempts_on_url u (results (tester p)) = ceil_div N K)).
Proof.
  intros Hne Hres Hdur K N p.
  split; [intros request_id; now apply select_url_lookup|].
  intros Hdrained.
  destruct (run_test_inv now t schedule Hne Hres) as [Hu Hids Hrs Hout Hreq].
  fold p in Hu, Hids, Hrs, Hout, Hreq.
  destruct (drained_ids p Hdrained) as [Hfl Hq].
  rewrite Hfl, Hq, !app_nil_r in Hids.
  unfold num_requests in Hids. rewrite Hdur in Hids. fold N in Hids.
  assert (HK : (0 < K)%nat).
  { subst K. destruct (urls t); [congruence | cbn; lia]. }
  assert (Hrs' : Forall2 (fun r request_id =>
                   urls t !! (request_id mod K)%nat = Some (url r))
                   (results (tester p)) (issued p)).
  { eapply Forall2_impl; [exact Hrs|]. intros r request_id Hsel.
    unfold K. now rewrite <- (select_url_lookup (urls t) request_id Hne). }
  split; [exact Hids|]. split; [exact Hrs'|]. split.
  - intros j Hj. now apply attempts_on_slot_balanced.
  - intros Hnd u Hin. apply list_elem_of_lookup in Hin as [j Hj].
    rewrite (attempts_on_url_slot (urls t) j u _ _ Hnd Hj Hrs').
    apply attempts_on_slot_balanced; [assumption | | assumption].
    eapply lookup_lt_Some; eassumption.
Qed.

(** The hypotheses of C5 hold in scenario B, which is drained: the URLs
    [A] and [B] receive three attempts each. *)
Lemma C5_round_robin_balance_witness :
  let p := run scenario_B_schedule (start_workers 100 scenario_B_tester) in
  drained p /\
  forall u, u ∈ ["A"; "B"] ->
    attempts_on_url u (results (tester p)) = (6 / 2)%nat \/
    attempts_on_url u (results (tester p)) = ceil_div 6 2.
Proof.
  intros p.
  assert (Hd : drained p) by (split; vm_compute; repeat constructor).
  split; [exact Hd|].
  destruct (C5_round_robin_balance scenario_B_tester 100 scenario_B_schedule)
    as (_ & H); [discriminate | reflexivity | reflexivity |].
  destruct (H Hd) as (_ & _ & _ & Hurl).
  apply Hurl. apply NoDup_cons. split; [|apply NoDup_singleton].
  intros Hin. apply list_elem_of_singleton in Hin. discriminate Hin.
Defined.

Lemma step_timeout p w att :
  workers p !! w = Some Getting -> items (request_queue p) = [] ->
  step w att p = exit_worker w p.
Proof. intros Hw Hq. unfold step, get. now rewrite Hw, Hq. Qed.

(** C10. A worker whose [get] ends in the time-out leaves its loop: it
    is exited, it appends no result and prints nothing, the other
    workers and the items of the queue are untouched, and the
    [task_done] of the [finally] clause is still called although no
    item was pulled: the counter of unfinished tasks is decremented,
    or, when it is already 0, the [ValueError] is swallowed and the
    queue is left as it is. An exited worker does not run again. *)
Theorem C10_timeout_exit (p : Pool) (w : nat) (att : Attempt) :
  workers p !! w = Some Getting ->
  fst (get (request_queue p)) = TimedOut ->
  let p' := step w att p in
  workers p' !! w = Some Exited /\
  (forall w', w' <> w -> workers p' !! w' = workers p !! w') /\
  tester p' = tester p /\
  stdout p' = stdout p /\
  issued p' = issued p /\
  items (request_queue p') = items (request_queue p) /\
  request_queue p' = finally_task_done (request_queue p) /\
  unfinished_tasks (request_queue p') = Nat.pred (unfinished_tasks (request_queue p)) /\
  (task_done (request_queue p) = None -> request_queue p' = request_queue p) /\
  (forall att', step w att' p' = p').
Proof.
  intros Hw Hget. cbn zeta.
  assert (Hq : items (request_queue p) = []).
  { unfold get in Hget. destruct (items (request_queue p)); [reflexivity | discriminate]. }
  rewrite (step_timeout p w att Hw Hq).
  unfold exit_worker, set_worker, set_queue.
  cbn [tester request_queue workers stdout issued].
  assert (Hlt : (w < length (workers p))%nat) by (eapply lookup_lt_Some; eassumption).
  split; [now apply list_lookup_insert_eq|].
  split; [intros w' Hne; now apply list_lookup_insert_ne|].
  split; [reflexivity|]. split; [reflexivity|]. split; [reflexivity|].
  split; [apply items_finally_task_done|].
  split; [reflexivity|].
  split; [apply unfinished_finally_task_done|].
  split; [intros Hnone; unfold finally_task_done; now rewrite Hnone|].
  intros att'. unfold step. cbn [workers]. now rewrite list_lookup_insert_eq.
Qed.

(** The hypotheses of C10 hold for a lone worker on an empty queue
    whose counter is already 0. *)
Lemma C10_timeout_exit_witness :
  let p := mkPool (init ["A"] "GET" 0 0 None None None None)
                  (mkQueue [] 0) [Getting] [] [] in
  let p' := step 0 (answer 0 0 (Raised Timeout "")) p in
  workers p' !! 0%nat = Some Exited /\ request_queue p' = request_queue p.
Proof.
  intros p p'.
  destruct (C10_timeout_exit p 0 (answer 0 0 (Raised Timeout "")))
    as (H1 & _ & _ & _ & _ & _ & _ & _ & H9 & _); [reflexivity | reflexivity |].
  split; [exact H1 | apply H9; reflexivity].
Defined.

End workers.

(** * The accounting of the queue *)

Section accounting.

#[local] Arguments running : simpl never.
#[local] Arguments in_flight_ids : simpl never.

(** X22. The queue of a run: the request IDs [0 .. n-1] in order, then
    one stop signal for each worker, all of them unfinished, where [n]
    is 1000000 when a duration is set (and not 0) and the configured
    number of requests otherwise. *)
Theorem queue_of_a_run (t : StressTester) :
  items (queue_setup t)
  = map Some (seq 0 (num_requests t)) ++ replicate (config_concurrency t) None /\
  unfinished_tasks (queue_setup t) = (num_requests t + config_concurrency t)%nat /\
  (Py.truthy (config_duration t) = true -> num_requests t = Z.to_nat 1000000) /\
  (Py.truthy (config_duration t) = false -> num_requests t = config_num_requests t).
Proof.
  destruct (queue_setup_spec t) as [H1 H2].
  split; [exact H1|]. split; [exact H2|]. unfold num_requests.
  split; intros ->; reflexivity.
Qed.

Lemma sum_list_insert (g : Worker -> nat) ws w st st' :
  ws !! w = Some st ->
  (sum_list (map g (<[w := st']> ws)) + g st = sum_list (map g ws) + g st')%nat.
Proof.
  revert w. induction ws as [|x ws IH]; intros [|w] Hw; try discriminate.
  - injection Hw as ->. simpl. lia.
  - simpl in *. specialize (IH w Hw). lia.
Qed.

Lemma running_sum ws :
  running ws = sum_list (map (fun st => if alive st then 1%nat else 0%nat) ws).
Proof.
  unfold running. induction ws as [|x ws IH]; [reflexivity|].
  destruct (alive x) eqn:Hx.
  - rewrite filter_cons_True by assumption. simpl. rewrite Hx. simpl in *. now rewrite IH.
  - rewrite filter_cons_False by congruence. simpl. rewrite Hx. exact IH.
Qed.

Lemma in_flight_sum ws :
  length (in_flight_ids ws) = sum_list (map (fun st => length (held st)) ws).
Proof.
  unfold in_flight_ids. induction ws as [|x ws IH]; [reflexivity|].
  cbn. rewrite length_app, IH. reflexivity.
Qed.

Lemma running_insert ws w st st' :
  ws !! w = Some st ->
  (running (<[w := st']> ws) + (if alive st then 1 else 0)
   = running ws + (if alive st' then 1 else 0))%nat.
Proof.
  intros Hw. rewrite !running_sum.
  now apply (sum_list_insert (fun st => if alive st then 1%nat else 0%nat)).
Qed.

Lemma in_flight_length_insert ws w st st' :
  ws !! w = Some st ->
  (length (in_flight_ids (<[w := st']> ws)) + length (held st)
   = length (in_flight_ids ws) + length (held st'))%nat.
Proof.
  intros Hw. rewrite !in_flight_sum.
  now apply (sum_list_insert (fun st => length (held st))).
Qed.

Lemma running_le ws : (running ws <= length ws)%nat.
Proof. unfold running. apply length_filter. Qed.

(** One step keeps the accounting of the queue. *)
Lemma step_queue_inv p w att :
  urls (tester p) <> [] -> queue_inv p -> queue_inv (step w att p).
Proof.
  intros Hne [(ids & Hq & Hstop) Hun]. unfold step.
  destruct (workers p !! w) as [[|request_id|request_id u|]|] eqn:Hw;
    try (now split; eauto).
  - (* waiting for an item *)
    pose proof (running_insert (workers p) w Getting) as Hrun.
    pose proof (in_flight_length_insert (workers p) w Getting) as Hfl.
    pose proof (running_le (workers p)) as Hle.
    assert (Hlen : forall st', length (<[w := st']> (workers p)) = length (workers p))
      by (intros; apply length_insert).
    unfold get. destruct ids as [|request_id ids].
    + (* a stop signal *)
      specialize (Hrun Exited Hw). specialize (Hfl Exited Hw). cbn in Hrun, Hfl.
      destruct (running (workers p)) as [|k] eqn:Hk; [lia|].
      cbn in Hq. rewrite Hq. cbn.
      unfold exit_worker, set_worker, set_queue. split; cbn.
      * exists []. rewrite items_finally_task_done. cbn.
        split; [f_equal; lia | reflexivity].
      * rewrite unfinished_finally_task_done, items_finally_task_done. cbn.
        rewrite Hun, Hq. cbn. lia.
    + (* a request ID *)
      cbn in Hq. rewrite Hq. cbn.
      assert (Hall : running (workers p) = length (workers p)).
      { destruct (decide (running (workers p) < length (workers p))%nat) as [Hlt|Hge];
          [now specialize (Hstop Hlt) | lia]. }
      destruct (paced (config_rate_limit (tester p))).
      * specialize (Hrun (Pacing request_id) Hw).
        specialize (Hfl (Pacing request_id) Hw). cbn in Hrun, Hfl.
        unfold set_worker. split; cbn.
        -- exists ids. split; [f_equal; f_equal; lia|].
           rewrite Hlen. intros Hlt. lia.
        -- rewrite Hun, Hq. cbn. lia.
      * unfold start_request. cbn.
        destruct (select_url_Some (urls (tester p)) request_id Hne) as [u ->].
        specialize (Hrun (Requesting request_id u) Hw).
        specialize (Hfl (Requesting request_id u) Hw). cbn in Hrun, Hfl.
        unfold set_worker. split; cbn.
        -- exists ids. split; [f_equal; f_equal; lia|].
           rewrite Hlen. intros Hlt. lia.
        -- rewrite Hun, Hq. cbn. lia.
  - (* pacing *)
    unfold start_request.
    destruct (select_url_Some (urls (tester p)) request_id Hne) as [u ->].
    pose proof (running_insert (workers p) w _ (Requesting request_id u) Hw) as Hrun.
    pose proof (in_flight_length_insert (workers p) w _ (Requesting request_id u) Hw)
      as Hfl.
    cbn in Hrun, Hfl. unfold set_worker. split; cbn.
    + exists ids. split; [rewrite Hq; f_equal; f_equal; lia|].
      rewrite length_insert. intros Hlt. apply Hstop. lia.
    + rewrite Hun. lia.
  - (* waiting for the answer *)
    unfold finish_request.
    destruct (make_request (tester p) att u (config_method (tester p)))
      as [result tester'].
    pose proof (running_insert (workers p) w _ Getting Hw) as Hrun.
    pose proof (in_flight_length_insert (workers p) w _ Getting Hw) as Hfl.
    cbn in Hrun, Hfl. split; cbn.
    + exists ids. rewrite items_finally_task_done.
      split; [rewrite Hq; f_equal; f_equal; lia|].
      rewrite length_insert. intros Hlt. apply Hstop. lia.
    + rewrite unfinished_finally_task_done, items_finally_task_done, Hun. lia.
Qed.

Lemma step_urls p w att : urls (tester (step w att p)) = urls (tester p).
Proof.
  unfold step. destruct (workers p !! w) as [[|request_id|request_id u|]|]; try reflexivity.
  - unfold get. destruct (items (request_queue p)) as [|[request_id|] rest]; cbn;
      try reflexivity.
    destruct (paced _); [reflexivity|]. unfold start_request. cbn.
    destruct (select_url _ _); reflexivity.
  - unfold start_request. destruct (select_url _ _); reflexivity.
  - unfold finish_request.
    pose proof (make_request_tester (tester p) att u (config_method (tester p))) as [H _].
    destruct (make_request _ _ _ _). cbn in *. exact H.
Qed.

Lemma run_urls schedule p : urls (tester (run schedule p)) = urls (tester p).
Proof.
  revert p. induction schedule as [|[w att] s IH]; intros p; [reflexivity|].
  cbn. change (foldl _ ?q s) with (run s q). now rewrite IH, step_urls.
Qed.

Lemma run_queue_inv schedule p :
  urls (tester p) <> [] -> queue_inv p -> queue_inv (run schedule p).
Proof.
  revert p. induction schedule as [|[w att] s IH]; intros p Hne Hinv; [assumption|].
  cbn. apply IH; [now rewrite step_urls | now apply step_queue_inv].
Qed.

Lemma running_replicate n : running (replicate n Getting) = n.
Proof.
  rewrite running_sum. induction n as [|n IH]; [reflexivity|]. simpl. now rewrite IH.
Qed.

Lemma start_workers_queue_inv now t : queue_inv (start_workers now t).
Proof.
  unfold start_workers. split; cbn [request_queue workers].
  - exists (seq 0 (num_requests t)).
    rewrite (proj1 (queue_setup_spec _)), running_replicate, length_replicate.
    split; [reflexivity | lia].
  - rewrite (proj2 (queue_setup_spec _)), (proj1 (queue_setup_spec _)).
    rewrite in_flight_replicate, length_app, length_map, length_seq, length_replicate.
    cbn. lia.
Qed.


Lemma step_workers_length p w att : length (workers (step w att p)) = length (workers p).
Proof.
  unfold step. destruct (workers p !! w) as [[|request_id|request_id u|]|]; try reflexivity.
  - unfold get. destruct (items (request_queue p)) as [|[request_id|] rest]; cbn;
      try apply length_insert.
    destruct (paced _); [apply length_insert|]. unfold start_request. cbn.
    destruct (select_url _ _); apply length_insert.
  - unfold start_request. destruct (select_url _ _); apply length_insert.
  - unfold finish_request. destruct (make_request _ _ _ _). apply length_insert.
Qed.

Lemma run_workers_length schedule p :
  length (workers (run schedule p)) = length (workers p).
Proof.
  revert p. induction schedule as [|[w att] s IH]; intros p; [reflexivity|].
  cbn. change (foldl _ ?q s) with (run s q). now rewrite IH, step_workers_length.
Qed.

Lemma run_test_queue_inv now t schedule :
  urls t <> [] -> queue_inv (run schedule (start_workers now t)).
Proof. intros Hne. apply run_queue_inv; [exact Hne | apply start_workers_queue_inv]. Qed.

Lemma running_alive ws w st :
  ws !! w = Some st -> alive st = true -> (0 < running ws)%nat.
Proof.
  intros Hw Hst. pose proof (running_insert ws w st Exited Hw) as H.
  rewrite Hst in H. cbn in H. lia.
Qed.

Lemma running_exited ws : Forall (fun st => st = Exited) ws -> running ws = 0%nat.
Proof.
  rewrite running_sum. induction 1 as [|x ws -> _ IH]; [reflexivity|]. simpl. exact IH.
Qed.

Lemma in_flight_exited ws : Forall (fun st => st = Exited) ws -> in_flight_ids ws = [].
Proof.
  unfold in_flight_ids. induction 1 as [|x ws -> _ IH]; [reflexivity|]. simpl. exact IH.
Qed.

(** X1. The counter of the queue is exact. After any schedule of a run
    with at least one URL, the number of unfinished tasks is the number
    of items still in the queue plus the number of request IDs held by
    the workers (pacing or waiting for the answer): every [task_done]
    of the [finally] clause answers one [get]. *)
Theorem unfinished_tasks_accounting (t : StressTester) (now : Q)
    (schedule : list (nat * Attempt)) :
  urls t <> [] ->
  let p := run schedule (start_workers now t) in
  unfinished_tasks (request_queue p)
  = (length (items (request_queue p)) + length (in_flight_ids (workers p)))%nat.
Proof. intros Hne p. apply (run_test_queue_inv now t schedule Hne). Qed.

(** The hypothesis of X1 holds in scenario B, four steps into the run. *)
Lemma unfinished_tasks_accounting_witness :
  let p := run (take 4 scenario_B_schedule) (start_workers 100 scenario_B_tester) in
  unfinished_tasks (request_queue p)
  = (length (items (request_queue p)) + length (in_flight_ids (workers p)))%nat.
Proof.
  apply (unfinished_tasks_accounting scenario_B_tester 100 (take 4 scenario_B_schedule)).
  discriminate.
Defined.

(** X2. No worker of such a run leaves by the time-out: whenever a
    worker waits for an item, the queue holds one (a request ID, or the
    stop signal that was put for this worker). *)
Theorem waiting_worker_finds_item (t : StressTester) (now : Q)
    (schedule : list (nat * Attempt)) (w : nat) :
  urls t <> [] ->
  let p := run schedule (start_workers now t) in
  workers p !! w = Some Getting ->
  exists item q, get (request_queue p) = (Item item, q).
Proof.
  intros Hne p Hw.
  destruct (run_test_queue_inv now t schedule Hne) as [(ids & Hq & _) _].
  fold p in Hq. pose proof (running_alive _ _ _ Hw eq_refl) as Hrun.
  unfold get. rewrite Hq.
  destruct ids as [|request_id ids]; [|cbn; eauto].
  destruct (running (workers p)); [lia|]. cbn. eauto.
Qed.

(** The hypotheses of X2 hold in scenario B for the third worker, two
    steps into the run. *)
Lemma waiting_worker_finds_item_witness :
  let p := run (take 2 scenario_B_schedule) (start_workers 100 scenario_B_tester) in
  workers p !! 2%nat = Some Getting /\
  exists item q, get (request_queue p) = (Item item, q).
Proof.
  intros p.
  assert (Hw : workers p !! 2%nat = Some Getting) by (vm_compute; reflexivity).
  split; [exact Hw|].
  apply (waiting_worker_finds_item scenario_B_tester 100 (take 2 scenario_B_schedule) 2);
    [discriminate | exact Hw].
Defined.

(** Once the workers have left, no stop signal and no ID is left. *)
Lemma exited_queue_empty (t : StressTester) (now : Q)
    (schedule : list (nat * Attempt)) :
  urls t <> [] -> (0 < config_concurrency t)%nat ->
  let p := run schedule (start_workers now t) in
  Forall (fun st => st = Exited) (workers p) ->
  items (request_queue p) = [] /\ unfinished_tasks (request_queue p) = 0%nat.
Proof.
  intros Hne Hc p Hex.
  destruct (run_test_queue_inv now t schedule Hne) as [(ids & Hq & Hstop) Hun].
  fold p in Hq, Hstop, Hun.
  assert (Hlen : length (workers p) = config_concurrency t).
  { unfold p. rewrite run_workers_length. unfold start_workers. cbn.
    apply length_replicate. }
  rewrite (running_exited _ Hex) in Hq, Hstop.
  rewrite (in_flight_exited _ Hex) in Hun.
  rewrite (Hstop ltac:(lia)) in Hq. cbn in Hq.
  rewrite Hq in Hun. cbn in Hun. now split.
Qed.

(** With an empty queue and no ID in flight, all the IDs are issued. *)
Lemma exited_all_issued (t : StressTester) (now : Q)
    (schedule : list (nat * Attempt)) :
  urls t <> [] -> results t = [] ->
  let p := run schedule (start_workers now t) in
  Forall (fun st => st = Exited) (workers p) ->
  items (request_queue p) = [] ->
  issued p ≡ₚ seq 0 (num_requests t) /\
  length (results (tester p)) = num_requests t.
Proof.
  intros Hne Hres p Hex Hq.
  destruct (run_test_inv now t schedule Hne Hres) as [_ Hids Hfa _ _].
  fold p in Hids, Hfa.
  rewrite (in_flight_exited _ Hex), Hq in Hids. cbn in Hids.
  rewrite app_nil_r in Hids. split; [exact Hids|].
  rewrite (Forall2_length _ _ _ Hfa), Hids. apply length_seq.
Qed.

(** X3. When all the workers of such a run have left, with at least
    one worker, the run is complete: the queue is empty, no task is
    unfinished (so [request_queue.join()] of line 211 returns at once),
    every request ID has been issued exactly once, and there is one
    result for each of them. *)
Theorem finished_run_complete (t : StressTester) (now : Q)
    (schedule : list (nat * Attempt)) :
  urls t <> [] -> results t = [] -> (0 < config_concurrency t)%nat ->
  let p := run schedule (start_workers now t) in
  Forall (fun st => st = Exited) (workers p) ->
  items (request_queue p) = [] /\
  unfinished_tasks (request_queue p) = 0%nat /\
  issued p ≡ₚ seq 0 (num_requests t) /\
  length (results (tester p)) = num_requests t.
Proof.
  intros Hne Hres Hc p Hex.
  destruct (exited_queue_empty t now schedule Hne Hc Hex) as [Hq Hun].
  destruct (exited_all_issued t now schedule Hne Hres Hex Hq) as [Hids Hlen].
  now repeat split.
Qed.

(** The hypotheses of X3 hold at the end of scenario B. *)
Lemma finished_run_complete_witness :
  let p := run scenario_B_schedule (start_workers 100 scenario_B_tester) in
  Forall (fun st => st = Exited) (workers p) /\
  unfinished_tasks (request_queue p) = 0%nat /\
  length (results (tester p)) = 6%nat.
Proof.
  intros p.
  assert (Hex : Forall (fun st => st = Exited) (workers p))
    by (vm_compute; repeat constructor).
  split; [exact Hex|].
  destruct (finished_run_complete scenario_B_tester 100 scenario_B_schedule)
    as (_ & Hun & _ & Hlen);
    [discriminate | reflexivity | vm_compute; lia | exact Hex |].
  split; [exact Hun | exact Hlen].
Defined.

(** Each step of a worker that has not exited brings the run closer to
    its end. *)
Lemma sum_list_weight_insert ws w st st' :
  ws !! w = Some st ->
  (sum_list (map weight (<[w := st']> ws)) + weight st
   = sum_list (map weight ws) + weight st')%nat.
Proof. apply sum_list_insert. Qed.

Lemma step_measure p w att st :
  urls (tester p) <> [] -> queue_inv p ->
  workers p !! w = Some st -> alive st = true ->
  (measure (step w att p) < measure p)%nat.
Proof.
  intros Hne [(ids & Hq & _) _] Hw Hst. unfold step, measure. rewrite Hw.
  pose proof (sum_list_weight_insert (workers p) w st) as Hsum.
  destruct st as [|request_id|request_id u|]; [| | |discriminate].
  - pose proof (running_alive _ _ _ Hw eq_refl) as Hrun.
    unfold get. rewrite Hq.
    destruct ids as [|request_id ids].
    + destruct (running (workers p)) as [|k]; [lia|]. cbn.
      rewrite items_finally_task_done. cbn.
      specialize (Hsum Exited Hw). cbn in Hsum.
      lia.
    + cbn. change (Some request_id :: map Some ids ++ replicate (running (workers p)) None)
        with (map Some (request_id :: ids) ++ replicate (running (workers p)) None).
      rewrite queued_ids_setup.
      destruct (paced (config_rate_limit (tester p))); cbn.
      * specialize (Hsum (Pacing request_id) Hw). cbn in Hsum.
        rewrite queued_ids_setup. lia.
      * unfold start_request. cbn.
        destruct (select_url_Some (urls (tester p)) request_id Hne) as [u ->]. cbn.
        specialize (Hsum (Requesting request_id u) Hw). cbn in Hsum.
        rewrite queued_ids_setup. lia.
  - unfold start_request.
    destruct (select_url_Some (urls (tester p)) request_id Hne) as [u ->]. cbn.
    specialize (Hsum (Requesting request_id u) Hw). cbn in Hsum. lia.
  - unfold finish_request. destruct (make_request _ _ _ _). cbn.
    rewrite items_finally_task_done.
    specialize (Hsum Getting Hw). cbn in Hsum. lia.
Qed.

Lemma exited_or_alive ws :
  Forall (fun st => st = Exited) ws \/
  exists w st, ws !! w = Some st /\ alive st = true.
Proof.
  induction ws as [|x ws [IH|(w & st & Hw & Hst)]].
  - left. constructor.
  - destruct (alive x) eqn:Hx.
    + right. exists 0%nat, x. now split.
    + left. constructor; [now destruct x | exact IH].
  - right. exists (S w), st. now split.
Qed.

Lemma finish_from n : forall p,
  urls (tester p) <> [] -> queue_inv p -> (measure p <= n)%nat ->
  exists schedule,
    (length schedule <= n)%nat /\
    Forall (fun st => st = Exited) (workers (run schedule p)).
Proof.
  induction n as [|n IH]; intros p Hne Hinv Hm.
  - exists []. split; [reflexivity|].
    destruct (exited_or_alive (workers p)) as [H|(w & st & Hw & Hst)]; [exact H|].
    pose proof (step_measure p w (answer 0 0 (Response 200 [])) st Hne Hinv Hw Hst). lia.
  - destruct (exited_or_alive (workers p)) as [H|(w & st & Hw & Hst)].
    + exists []. split; [cbn; lia | exact H].
    + set (att := answer 0 0 (Response 200 [])).
      pose proof (step_measure p w att st Hne Hinv Hw Hst) as Hlt.
      destruct (IH (step w att p)) as (s & Hs & Hex).
      * now rewrite step_urls.
      * now apply step_queue_inv.
      * lia.
      * exists ((w, att) :: s). split; [cbn; lia | exact Hex].
Qed.

Lemma sum_list_weight_replicate n : sum_list (map weight (replicate n Getting)) = n.
Proof. induction n as [|n IH]; [reflexivity|]. simpl. now rewrite IH. Qed.

(** X4. Every run with at least one URL can end: some schedule of at
    most [3 * num_requests + concurrency] steps takes all the workers
    to their exit. Each step of a worker that has not left brings the
    run closer to its end ([step_measure]). *)
Theorem run_test_terminates (t : StressTester) (now : Q) :
  urls t <> [] ->
  exists schedule,
    (length schedule <= 3 * num_requests t + config_concurrency t)%nat /\
    Forall (fun st => st = Exited) (workers (run schedule (start_workers now t))).
Proof.
  intros Hne. apply finish_from.
  - exact Hne.
  - apply start_workers_queue_inv.
  - unfold measure, start_workers. cbn [request_queue workers].
    rewrite (proj1 (queue_setup_spec _)), queued_ids_setup, length_seq.
    rewrite sum_list_weight_replicate.
    change (num_requests (set_times (Some now) (end_time t) [] [] t))
      with (num_requests t).
    change (config_concurrency (set_times (Some now) (end_time t) [] [] t))
      with (config_concurrency t).
    lia.
Qed.

(** The hypothesis of X4 holds for the tester of scenario B. *)
Lemma run_test_terminates_witness :
  exists schedule,
    (length schedule
     <= 3 * num_requests scenario_B_tester + config_concurrency scenario_B_tester)%nat /\
    Forall (fun st => st = Exited)
           (workers (run schedule (start_workers 100 scenario_B_tester))).
Proof. apply (run_test_terminates scenario_B_tester 100). discriminate. Defined.

End accounting.

(** * A run without URLs *)

Section no_urls.

#[local] Arguments running : simpl never.
#[local] Arguments in_flight_ids : simpl never.

Lemma sum_list_taken_le ws : (sum_list (map taken ws) <= length ws)%nat.
Proof.
  induction ws as [|x ws IH]; [reflexivity|]. simpl. destruct x; simpl; lia.
Qed.

Lemma lookup_insert_not_Requesting (ws : list Worker) w st :
  (forall w' request_id u, ws !! w' <> Some (Requesting request_id u)) ->
  (forall request_id u, st <> Requesting request_id u) ->
  forall w' request_id u, <[w := st]> ws !! w' <> Some (Requesting request_id u).
Proof.
  intros Hws Hst w' request_id u Hl.
  apply lookup_insert_Requesting in Hl as [[_ Heq] | Hl];
    [exact (Hst _ _ Heq) | exact (Hws _ _ _ Hl)].
Qed.

Lemma exit_worker_stalled n rs p w st :
  workers p !! w = Some st -> alive st = true ->
  results (tester p) = rs ->
  (forall w request_id u, workers p !! w <> Some (Requesting request_id u)) ->
  unfinished_tasks (request_queue p) = (n + running (workers p))%nat ->
  (length (items (request_queue p)) + sum_list (map taken (workers p)) + 1
   = n + length (workers p) + taken st)%nat ->
  stalled_inv n rs (exit_worker w p).
Proof.
  intros Hw Hst Hres Hidle Hun Hit.
  pose proof (running_insert (workers p) w st Exited Hw) as Hrun.
  pose proof (sum_list_insert taken (workers p) w st Exited Hw) as Hsum.
  rewrite Hst in Hrun. change (taken Exited) with 1%nat in Hsum.
  change (alive Exited) with false in Hrun. cbn beta iota in Hrun.
  unfold exit_worker, set_worker, set_queue.
  split; cbn [tester request_queue workers items unfinished_tasks].
  - exact Hres.
  - apply lookup_insert_not_Requesting; [exact Hidle | discriminate].
  - rewrite unfinished_finally_task_done. lia.
  - rewrite items_finally_task_done, length_insert. lia.
Qed.

Lemma step_stalled n rs p w att :
  urls (tester p) = [] -> stalled_inv n rs p -> stalled_inv n rs (step w att p).
Proof.
  intros Hnil Hinv. pose proof Hinv as [Hres Hidle Hun Hit]. unfold step.
  destruct (workers p !! w) as [[|request_id|request_id u|]|] eqn:Hw;
    try exact Hinv.
  - pose proof (sum_list_insert taken (workers p) w Getting Exited Hw) as Hsum.
    pose proof (sum_list_taken_le (<[w := Exited]> (workers p))) as Hle.
    rewrite length_insert in Hle. cbn in Hsum.
    unfold get. destruct (items (request_queue p)) as [|item rest] eqn:Hq.
    { cbn in Hit. lia. }
    assert (Hexit : forall out,
      stalled_inv n rs
        (exit_worker w (mkPool (tester p)
           (mkQueue rest (unfinished_tasks (request_queue p))) (workers p) out
           (issued p)))).
    { intros out. apply (exit_worker_stalled n rs _ w Getting);
        cbn [tester request_queue workers items unfinished_tasks];
        [exact Hw | reflexivity | exact Hres | exact Hidle | exact Hun |].
      cbn [length] in Hit. change (taken Getting) with 0%nat. lia. }
    destruct item as [request_id|]; cbn; [|apply Hexit].
    destruct (paced (config_rate_limit (tester p))).
    + pose proof (running_insert (workers p) w Getting (Pacing request_id) Hw) as Hrun.
      pose proof (sum_list_insert taken (workers p) w Getting (Pacing request_id) Hw)
        as Hsum'.
      change (alive Getting) with true in Hrun.
      change (alive (Pacing request_id)) with true in Hrun. cbn beta iota in Hrun.
      change (taken Getting) with 0%nat in Hsum'.
      change (taken (Pacing request_id)) with 1%nat in Hsum'.
      unfold set_worker, set_queue.
      split; cbn [tester request_queue workers items unfinished_tasks].
      * exact Hres.
      * apply lookup_insert_not_Requesting; [exact Hidle | discriminate].
      * lia.
      * rewrite length_insert. cbn [length] in Hit. lia.
    + unfold start_request. cbn. rewrite Hnil. cbn. apply Hexit.
  - unfold start_request. rewrite Hnil. cbn [select_url length].
    apply (exit_worker_stalled n rs _ w (Pacing request_id));
      cbn [tester request_queue workers items unfinished_tasks];
      [exact Hw | reflexivity | exact Hres | exact Hidle | exact Hun |].
    change (taken (Pacing request_id)) with 1%nat. lia.
  - now apply Hidle in Hw.
Qed.

Lemma run_stalled n rs schedule p :
  urls (tester p) = [] -> stalled_inv n rs p -> stalled_inv n rs (run schedule p).
Proof.
  revert p. induction schedule as [|[w att] s IH]; intros p Hnil Hinv; [assumption|].
  cbn. apply IH; [now rewrite step_urls | now apply step_stalled].
Qed.

Lemma sum_list_taken_replicate n : sum_list (map taken (replicate n Getting)) = 0%nat.
Proof. induction n as [|n IH]; [reflexivity|]. simpl. exact IH. Qed.

Lemma start_workers_stalled now t :
  stalled_inv (num_requests t) (results t) (start_workers now t).
Proof.
  unfold start_workers. split; cbn [tester request_queue workers].
  - reflexivity.
  - intros w request_id u Hl. apply lookup_replicate in Hl as [? _]. discriminate.
  - rewrite (proj2 (queue_setup_spec _)), running_replicate. reflexivity.
  - rewrite (proj1 (queue_setup_spec _)), sum_list_taken_replicate.
    rewrite length_app, length_map, length_seq, !length_replicate.
    change (num_requests (set_times (Some now) (end_time t) [] [] t))
      with (num_requests t).
    lia.
Qed.

(** X5. With an empty URL list no request is ever made: whatever the
    schedule, the results are left as they were and no worker reaches
    [make_request]; each worker leaves on the first item it pulls (the
    [ZeroDivisionError] of line 173 for a request ID), so that, when
    all have left, as many tasks are unfinished as there were request
    IDs: for a run with at least one ID, [request_queue.join()] would
    not return. *)
Theorem empty_urls_no_request (t : StressTester) (now : Q)
    (schedule : list (nat * Attempt)) :
  urls t = [] ->
  let p := run schedule (start_workers now t) in
  results (tester p) = results t /\
  (forall w request_id u, workers p !! w <> Some (Requesting request_id u)) /\
  (Forall (fun st => st = Exited) (workers p) ->
   unfinished_tasks (request_queue p) = num_requests t).
Proof.
  intros Hnil p.
  destruct (run_stalled (num_requests t) (results t) schedule (start_workers now t))
    as [Hres Hidle Hun _]; [exact Hnil | apply start_workers_stalled |].
  fold p in Hres, Hidle, Hun. repeat split; [exact Hres | exact Hidle |].
  intros Hex. rewrite Hun, (running_exited _ Hex). lia.
Qed.

(** The hypothesis of X5 holds for one worker and two request IDs: the
    worker leaves on the first ID. *)
Lemma empty_urls_no_request_witness :
  let t := init [] "GET" 2 1 None None None None in
  let p := run [(0%nat, answer 100 0 (Response 200 []))] (start_workers 100 t) in
  results (tester p) = [] /\ unfinished_tasks (request_queue p) = 2%nat.
Proof.
  intros t p.
  destruct (empty_urls_no_request t 100 [(0%nat, answer 100 0 (Response 200 []))])
    as (Hres & _ & Hun); [reflexivity|].
  split; [exact Hres | apply Hun; vm_compute; repeat constructor].
Defined.

End no_urls.

(** * What the workers record *)

Section records.

Lemma assertions_answered tester status data rt e :
  assertions tester status data rt = Some e ->
  kind e = KAssertStatus \/ kind e = KAssertBody \/ kind e = KAssertMaxRT.
Proof.
  unfold assertions, check_max_rt, check_body, check_status.
  destruct (assert_max_rt tester) as [limit|];
    [destruct (Py.Qltb limit rt); [intros [= <-]; auto|]|];
    (destruct (assert_body_contains tester) as [[|c needle]|];
     [| destruct (contains _ _); [|intros [= <-]; auto] |];
     (destruct (assert_status tester) as [expected|];
      [destruct (Z.eqb status expected); [discriminate | intros [= <-]; auto]
      | discriminate])).
Qed.

Lemma make_request_sizes tester att u m :
  let '(r, tester') := make_request tester att u m in
  results tester' = results tester /\
  response_sizes tester'
  = response_sizes tester ++ (if answered r then [response_size r] else []) /\
  (answered r = false -> response_size r = 0).
Proof.
  unfold make_request.
  destruct (prepare tester (at_files att)) as [|e|e]; [destruct (at_http att)|..];
    cbn; try (now rewrite app_nil_r).
  destruct (assertions tester status data (at_elapsed att)) as [e|] eqn:He.
  - apply assertions_answered in He. unfold answered. cbn.
    destruct e; cbn in He; try (now repeat split; try discriminate);
      now destruct He as [?|[?|?]].
  - unfold answered. cbn. now repeat split.
Qed.

Lemma step_sizes_inv p w att : sizes_inv p -> sizes_inv (step w att p).
Proof.
  intros Hinv. pose proof Hinv as [Hsz Hzero]. unfold step.
  destruct (workers p !! w) as [[|request_id|request_id u|]|]; try exact Hinv.
  - unfold get. destruct (items (request_queue p)) as [|[request_id|] rest]; cbn;
      try (now split).
    destruct (paced _); [now split|]. unfold start_request. cbn.
    destruct (select_url _ _); now split.
  - unfold start_request. destruct (select_url _ _); now split.
  - unfold finish_request.
    pose proof (make_request_sizes (tester p) att u (config_method (tester p))) as H.
    destruct (make_request _ _ _ _) as [r tester']. destruct H as (Hr & Hs & Hz).
    split; cbn.
    + rewrite Hs, Hr, Hsz, filter_app, map_app. f_equal.
      destruct (answered r) eqn:Ha.
      * now rewrite filter_cons_True, filter_nil by assumption.
      * rewrite filter_cons_False, filter_nil by congruence. reflexivity.
    + rewrite Hr. apply Forall_app. split; [exact Hzero|]. now constructor.
Qed.

Lemma run_sizes_inv schedule p : sizes_inv p -> sizes_inv (run schedule p).
Proof.
  revert p. induction schedule as [|[w att] s IH]; intros p Hinv; [assumption|].
  cbn. apply IH. now apply step_sizes_inv.
Qed.

Lemma total_size_answered rs :
  Forall (fun r => answered r = false -> response_size r = 0) rs ->
  total_size (map response_size (filter (fun r => answered r = true) rs))
  = total_size (map response_size rs).
Proof.
  induction 1 as [|r rs Hr _ IH]; [reflexivity|].
  destruct (answered r) eqn:Ha.
  - rewrite filter_cons_True by assumption. simpl. now rewrite IH.
  - rewrite filter_cons_False by congruence. simpl. rewrite IH, (Hr eq_refl). lia.
Qed.

(** X6. The sizes kept for the throughput are those of the answered
    requests. In a run started on a fresh tester, after any schedule,
    [response_sizes] lists, in order of completion, the [response_size]
    of the results that got an answer (whether or not an assertion
    failed); the other results have size 0, so the total of
    [response_sizes] is the total of the sizes of all results. *)
Theorem response_sizes_of_answers (t : StressTester) (now : Q)
    (schedule : list (nat * Attempt)) :
  results t = [] -> response_sizes t = [] ->
  let p := run schedule (start_workers now t) in
  response_sizes (tester p)
  = map response_size (filter (fun r => answered r = true) (results (tester p))) /\
  total_size (response_sizes (tester p))
  = total_size (map response_size (results (tester p))).
Proof.
  intros Hres Hsz p.
  destruct (run_sizes_inv schedule (start_workers now t)) as [H1 H2].
  { unfold start_workers. split; cbn; rewrite Hres; [now rewrite Hsz | constructor]. }
  fold p in H1, H2. split; [exact H1|]. rewrite H1. now apply total_size_answered.
Qed.

(** The hypotheses of X6 hold in scenario B. *)
Lemma response_sizes_of_answers_witness :
  let p := run scenario_B_schedule (start_workers 100 scenario_B_tester) in
  total_size (response_sizes (tester p))
  = total_size (map response_size (results (tester p))).
Proof.
  intros p.
  destruct (response_sizes_of_answers scenario_B_tester 100 scenario_B_schedule)
    as [_ H]; [reflexivity | reflexivity | exact H].
Defined.

Lemma step_timings p w att :
  dns_times (tester (step w att p)) = dns_times (tester p) /\
  connect_times (tester (step w att p)) = connect_times (tester p) /\
  start_time (tester (step w att p)) = start_time (tester p).
Proof.
  unfold step. destruct (workers p !! w) as [[|request_id|request_id u|]|];
    try (now repeat split).
  - unfold get. destruct (items (request_queue p)) as [|[request_id|] rest]; cbn;
      try (now repeat split).
    destruct (paced _); [now repeat split|]. unfold start_request. cbn.
    destruct (select_url _ _); now repeat split.
  - unfold start_request. destruct (select_url _ _); now repeat split.
  - unfold finish_request, make_request.
    destruct (prepare (tester p) (at_files att)); [destruct (at_http att)|..];
      now repeat split.
Qed.

Lemma run_timings schedule p :
  dns_times (tester (run schedule p)) = dns_times (tester p) /\
  connect_times (tester (run schedule p)) = connect_times (tester p) /\
  start_time (tester (run schedule p)) = start_time (tester p).
Proof.
  revert p. induction schedule as [|[w att] s IH]; intros p; [now repeat split|].
  cbn. change (foldl _ ?q s) with (run s q).
  destruct (IH (step w att p)) as (-> & -> & ->). apply step_timings.
Qed.

(** X7. A run records at most one DNS timing and one connection
    timing, whatever the number of requests: the workers leave
    [dns_times] and [connect_times] alone, and the end of [run_test]
    appends the timing of the trace hooks, if there is one. The start
    time is that of the start of the run, the end time is taken last. *)
Theorem one_timing_per_run (t : StressTester) (now finish : Q)
    (trace_dns trace_connect : option Q) (schedule : list (nat * Attempt)) :
  let t' := end_run finish trace_dns trace_connect
              (run schedule (start_workers now t)) in
  dns_times t' = dns_times t ++ option_list trace_dns /\
  connect_times t' = connect_times t ++ option_list trace_connect /\
  start_time t' = Some now /\ end_time t' = Some finish.
Proof.
  intros t'. unfold t', end_run.
  destruct (run_timings schedule (start_workers now t)) as (Hd & Hc & Hs).
  cbn. rewrite Hd, Hc, Hs. unfold start_workers. cbn.
  now rewrite !app_nil_r.
Qed.

End records.

(** * More of the statistics dict *)

(** Inversion of one bind of the option monad. *)
Ltac bind_some :=
  lazymatch goal with
  | |- (mbind _ ?o = Some _) -> _ =>
      let E := fresh "E" in
      destruct o eqn:E; [cbn [mbind option_bind] | cbn; discriminate]
  end.

Section statistics_more.

(** X8. [generate_statistics] raises (the [ZeroDivisionError] of line
    249) exactly when there is a result, both times are set and the
    end time equals the start time; in every other case it returns a
    dict. *)
Theorem generate_statistics_raises (t : StressTester) :
  generate_statistics t = None <-> results t <> [] /\ clock_moved t = false.
Proof.
  split.
  - intros Hnone. split.
    + intros Hnil. rewrite (generate_statistics_empty t Hnil) in Hnone. discriminate.
    + destruct (clock_moved t) eqn:Hc; [|reflexivity].
      destruct (generate_statistics_is_Some t Hc) as [st Hst]. congruence.
  - intros [Hne Hc]. unfold generate_statistics.
    destruct (results t) as [|r rs] eqn:Hr; [congruence|].
    unfold clock_moved in Hc. apply orb_false_iff in Hc as [Ht He].
    apply negb_false_iff in Ht, He.
    unfold basic_statistics, Py.div. rewrite Hr, Ht, He.
    rewrite (of_len_nonzero (r :: rs)) by discriminate. reflexivity.
Qed.

Lemma foldl_Qplus_bounds (lo hi a : Q) (l : list Q) :
  Forall (fun x => (lo <= x)%Q) l -> Forall (fun x => (x <= hi)%Q) l ->
  (a + lo * of_len l <= foldl Qplus a l)%Q /\
  (foldl Qplus a l <= a + hi * of_len l)%Q.
Proof.
  intros Hlo. revert a. induction Hlo as [|x l Hx _ IH]; intros a Hhi.
  - unfold of_len. change (inject_Z (Z.of_nat (@length Q []))) with 0%Q.
    cbn [foldl]. split; lra.
  - apply Forall_cons in Hhi as [Hx' Hhi]. destruct (IH (a + x)%Q Hhi) as [H1 H2].
    cbn [foldl]. unfold of_len in *. cbn [length].
    rewrite Nat2Z.inj_succ. unfold Z.succ. rewrite inject_Z_plus.
    change (inject_Z 1) with 1%Q.
    set (n := inject_Z (Z.of_nat (length l))) in *.
    set (s := foldl Qplus (a + x)%Q l) in *. clearbody n s.
    split; lra.
Qed.

Lemma of_len_pos {A} (l : list A) : l <> [] -> (0 < of_len l)%Q.
Proof.
  intros Hne. unfold of_len. change 0%Q with (inject_Z 0). rewrite <- Zlt_Qlt.
  destruct l; [congruence | cbn; lia].
Qed.

Lemma mean_between (l : list Q) (lo hi m : Q) :
  Forall (fun x => (lo <= x)%Q) l -> Forall (fun x => (x <= hi)%Q) l ->
  statistics.mean l = Some m -> (lo <= m <= hi)%Q.
Proof.
  intros Hlo Hhi Hm. unfold statistics.mean in Hm.
  destruct l as [|x l]; [discriminate|]. injection Hm as <-.
  destruct (foldl_Qplus_bounds lo hi 0 (x :: l) Hlo Hhi) as [H1 H2].
  pose proof (of_len_pos (x :: l) ltac:(discriminate)) as Hpos.
  unfold Py.sum.
  change (inject_Z (Z.of_nat (S (length l)))) with (of_len (x :: l)).
  set (n := of_len (x :: l)) in *.
  set (s := foldl Qplus 0%Q (x :: l)) in *. clearbody n s.
  split.
  - apply Qle_shift_div_l; [exact Hpos | lra].
  - apply Qle_shift_div_r; [exact Hpos | lra].
Qed.

Lemma median_between (l : list Q) (mn mx m : Q) :
  Py.min l = Some mn -> Py.max l = Some mx ->
  statistics.median l = Some m -> (mn <= m <= mx)%Q.
Proof.
  intros Hmn Hmx Hm. unfold statistics.median in Hm.
  set (s := Py.sorted l) in *. set (n := Z.of_nat (length s)) in *.
  destruct (Z.eqb_spec n 0); [discriminate|].
  assert (Hn : 0 < n) by lia.
  assert (Hdiv : 0 <= n / 2 < n).
  { split; [apply Z.div_pos; lia | apply Z.div_lt_upper_bound; lia]. }
  destruct (Z.eqb_spec (n mod 2) 1) as [Hodd|Heven].
  - rewrite index_nat in Hm by lia. eapply sorted_within; eassumption.
  - assert (1 <= n / 2).
    { pose proof (Z.div_mod n 2 ltac:(lia)). pose proof (Z.mod_pos_bound n 2 ltac:(lia)). lia. }
    rewrite !index_nat in Hm by lia.
    destruct (s !! Z.to_nat (n / 2 - 1)) as [a|] eqn:Ha; [|discriminate].
    destruct (s !! Z.to_nat (n / 2)) as [b|] eqn:Hb; [|discriminate].
    cbn in Hm. injection Hm as <-.
    pose proof (sorted_within l a mn mx _ Ha Hmn Hmx) as [? ?].
    pose proof (sorted_within l b mn mx _ Hb Hmn Hmx) as [? ?].
    split.
    + apply Qle_shift_div_l; lra.
    + apply Qle_shift_div_r; lra.
Qed.

(** X9. When some request succeeded, the dict reports the smallest and
    the largest response time of the successful requests as minimum
    and maximum, and the mean and the median lie between them. *)
Theorem mean_median_within_range (t : StressTester) :
  response_times t <> [] -> clock_moved t = true ->
  exists st mn mean med mx,
    generate_statistics t = Some st /\
    st !! "min_response_time" = Some (Num mn) /\
    st !! "mean_response_time" = Some (Num mean) /\
    st !! "median_response_time" = Some (Num med) /\
    st !! "max_response_time" = Some (Num mx) /\
    is_minimum (response_times t) mn /\ is_maximum (response_times t) mx /\
    (mn <= mean <= mx)%Q /\ (mn <= med <= mx)%Q.
Proof.
  intros Hne Hclock.
  destruct (percentiles_report t Hne Hclock) as (st & v & Hst & Hv & Hall).
  apply percentile_entries in Hall as (Emn & Emx & Emean & Emed & _).
  destruct Hv as (Hmn & Hmx & Hmean & Hmed & _).
  exists st, (v_min v), (v_mean v), (v_median v), (v_max v).
  do 5 (split; [assumption|]).
  destruct (min_spec _ Hne) as (mn' & Hmn' & Hin & Hle).
  destruct (max_spec _ Hne) as (mx' & Hmx' & Hin' & Hge).
  rewrite Hmn in Hmn'. rewrite Hmx in Hmx'. injection Hmn' as <-. injection Hmx' as <-.
  split; [now split|]. split; [now split|]. split.
  - eapply mean_between; eassumption.
  - eapply median_between; eassumption.
Qed.

(** The hypotheses of X9 hold for the run of four requests. *)
Lemma mean_median_within_range_witness :
  exists st mn mean med mx,
    generate_statistics run_four = Some st /\
    st !! "min_response_time" = Some (Num mn) /\
    st !! "mean_response_time" = Some (Num mean) /\
    st !! "median_response_time" = Some (Num med) /\
    st !! "max_response_time" = Some (Num mx) /\
    is_minimum (response_times run_four) mn /\
    is_maximum (response_times run_four) mx /\
    (mn <= mean <= mx)%Q /\ (mn <= med <= mx)%Q.
Proof.
  apply (mean_median_within_range run_four);
    [vm_compute; discriminate | vm_compute; reflexivity].
Defined.


Lemma size_statistics_cases {A} (l : list A) sizes sz :
  when_nonempty l (size_statistics sizes) = Some sz ->
  (l = [] /\ sz = ∅) \/
  (l <> [] /\ exists a b c d,
    sz = <["min_response_size" := a]> (<["max_response_size" := b]>
         (<["mean_response_size" := c]> (<["median_response_size" := d]> ∅)))).
Proof.
  intros H. apply when_nonempty_inv in H as [[-> ->] | [Hne H]]; [now left|].
  right. split; [exact Hne|]. unfold size_statistics in H. revert H. do 4 bind_some.
  intros [= <-]. now eexists _, _, _, _.
Qed.

Lemma time_statistics_cases {A} (l : list A) k1 k2 times d :
  when_nonempty l (time_statistics k1 k2 times) = Some d ->
  (l = [] /\ d = ∅) \/ (l <> [] /\ exists a b, d = <[k1 := a]> (<[k2 := b]> ∅)).
Proof.
  intros H. apply when_nonempty_inv in H as [[-> ->] | [Hne H]]; [now left|].
  right. split; [exact Hne|]. unfold time_statistics in H. revert H. do 2 bind_some.
  intros [= <-]. now eexists _, _.
Qed.

Lemma response_time_statistics_cases {A} (l : list A) rts rt :
  when_nonempty l (response_time_statistics rts) = Some rt ->
  (l = [] /\ rt = ∅) \/
  (l <> [] /\ exists v, percentiles_of rts v /\ rt = percentiles_dict v).
Proof.
  intros H. apply when_nonempty_inv in H as [[-> ->] | [Hne H]]; [now left|].
  right. split; [exact Hne|]. now apply response_time_statistics_inv.
Qed.

Lemma basic_statistics_values t succ failed stats :
  results t <> [] -> basic_statistics t succ failed = Some stats ->
  exists rate dur rps thr,
    stats = <["total_requests" := Num (of_len (results t))]>
           (<["successful_requests" := Num (of_len succ)]>
           (<["failed_requests" := Num (of_len failed)]>
           (<["success_rate" := Num rate]>
           (<["total_duration" := Num dur]>
           (<["requests_per_second" := Num rps]>
           (<["throughput_bytes_per_sec" := Num thr]> ∅)))))) /\
    (rate * of_len (results t) == 100 * of_len succ)%Q /\
    (timed t = true ->
     dur = elapsed t /\ ~ (dur == 0)%Q /\
     (rps * dur == of_len (results t))%Q /\
     (thr * dur == Py.sum (map inject_Z (response_sizes t)))%Q) /\
    (timed t = false -> dur = 0%Q /\ rps = 0%Q /\ thr = 0%Q).
Proof.
  intros Hne. unfold basic_statistics. fold (timed t).
  pose proof (of_len_pos (results t) Hne) as Hpos.
  destruct (results t) as [|r rs] eqn:Hr; [congruence|]. clear Hne.
  unfold Py.div. rewrite (of_len_nonzero (r :: rs)) by discriminate.
  cbn [mbind option_bind].
  destruct (timed t) eqn:Ht.
  - destruct (Qeq_bool (elapsed t) 0) eqn:He; [discriminate|].
    assert (Hnz : ~ (elapsed t == 0)%Q).
    { intros H. apply Qeq_bool_iff in H. congruence. }
    cbn [mbind option_bind].
    destruct (response_sizes t) as [|z zs] eqn:Hz; cbn [mbind option_bind];
      intros [= <-]; eexists _, _, _, _; (split; [reflexivity|]);
      (split; [field; lra|]); (split; [|discriminate]); intros _;
      (split; [reflexivity|]); (split; [exact Hnz|]); split; try (field; exact Hnz).
    + change (Py.sum (map inject_Z [])) with 0%Q. lra.
    + change (map inject_Z (z :: zs)) with (inject_Z z :: map inject_Z zs).
      field. exact Hnz.
  - cbn [mbind option_bind].
    destruct (response_sizes t) as [|z zs] eqn:Hz; cbn [mbind option_bind];
      intros [= <-]; eexists _, _, _, _; (split; [reflexivity|]);
      (split; [field; lra|]); (split; [discriminate|]); intros _; now repeat split.
Qed.

(** The pieces of the dict of a non-empty run. *)
Lemma generate_statistics_cases t st :
  results t <> [] -> generate_statistics t = Some st ->
  exists n1 n2 n3 rate dur rps thr dist rt sz dns con,
    st = con ∪ (dns ∪ (sz ∪ (<["status_code_distribution" := dist]>
           (rt ∪ (<["total_requests" := n1]>
                 (<["successful_requests" := n2]>
                 (<["failed_requests" := n3]>
                 (<["success_rate" := Num rate]>
                 (<["total_duration" := Num dur]>
                 (<["requests_per_second" := Num rps]>
                 (<["throughput_bytes_per_sec" := Num thr]> ∅))))))))))) /\
    (rate * of_len (results t) == 100 * of_len (successful_requests t))%Q /\
    (timed t = true ->
     dur = elapsed t /\ ~ (dur == 0)%Q /\
     (rps * dur == of_len (results t))%Q /\
     (thr * dur == Py.sum (map inject_Z (response_sizes t)))%Q) /\
    (timed t = false -> dur = 0%Q /\ rps = 0%Q /\ thr = 0%Q) /\
    ((response_times t = [] /\ rt = ∅) \/
     (response_times t <> [] /\ exists v, rt = percentiles_dict v)) /\
    ((response_sizes t = [] /\ sz = ∅) \/
     (response_sizes t <> [] /\ exists a b c d,
       sz = <["min_response_size" := a]> (<["max_response_size" := b]>
            (<["mean_response_size" := c]> (<["median_response_size" := d]> ∅))))) /\
    ((dns_times t = [] /\ dns = ∅) \/
     (dns_times t <> [] /\ exists a b,
       dns = <["mean_dns_time" := a]> (<["max_dns_time" := b]> ∅))) /\
    ((connect_times t = [] /\ con = ∅) \/
     (connect_times t <> [] /\ exists a b,
       con = <["mean_connect_time" := a]> (<["max_connect_time" := b]> ∅))).
Proof.
  intros Hne Hst.
  destruct (generate_statistics_inv t st Hne Hst)
    as (stats & rt & sz & dns & con & Hstats & Hrt & Hsz & Hdns & Hcon & ->).
  apply (basic_statistics_values t _ _ _ Hne) in Hstats
    as (rate & dur & rps & thr & -> & Hrate & Htimed & Huntimed).
  apply response_time_statistics_cases in Hrt.
  apply size_statistics_cases in Hsz.
  apply time_statistics_cases in Hdns. apply time_statistics_cases in Hcon.
  eexists _, _, _, rate, dur, rps, thr, _, rt, sz, dns, con.
  split; [reflexivity|]. split; [exact Hrate|]. split; [exact Htimed|].
  split; [exact Huntimed|]. split; [|now repeat split].
  destruct Hrt as [Hrt | (Hrt & v & _ & ->)]; [now left | right; eauto].
Qed.

Ltac statistics_cases H :=
  let Hrt := fresh "Hrt" in let Hsz := fresh "Hsz" in
  let Hdns := fresh "Hdns" in let Hcon := fresh "Hcon" in
  destruct H as (Hrt & Hsz & Hdns & Hcon);
  destruct Hrt as [[Hrt ->] | (Hrt & [] & ->)];
  destruct Hsz as [[Hsz ->] | (Hsz & ? & ? & ? & ? & ->)];
  destruct Hdns as [[Hdns ->] | (Hdns & ? & ? & ->)];
  destruct Hcon as [[Hcon ->] | (Hcon & ? & ? & ->)].

(** The rate of requests of a run with both times set. *)
Lemma requests_per_second_timed t st :
  results t <> [] -> generate_statistics t = Some st -> timed t = true ->
  exists rps,
    st !! "requests_per_second" = Some (Num rps) /\
    (rps * elapsed t == of_len (results t))%Q.
Proof.
  intros Hne Hst Ht.
  destruct (generate_statistics_cases t st Hne Hst)
    as (n1 & n2 & n3 & rate & dur & rps & thr & dist & rt & sz & dns & con
        & -> & _ & Htimed & _ & Hcases).
  destruct (Htimed Ht) as (-> & _ & Hmul & _).
  exists rps. split; [|exact Hmul].
  clear Hst. statistics_cases Hcases; vm_compute; reflexivity.
Qed.



(** X11. The optional sections of the dict of a run with results: the
    eleven response-time entries are present exactly when some request
    succeeded, the four size entries exactly when some size was
    recorded, the DNS and the connection entries exactly when a timing
    was recorded. *)
Theorem optional_sections (t : StressTester) :
  results t <> [] -> clock_moved t = true ->
  exists st,
    generate_statistics t = Some st /\
    Forall (fun k => is_Some (st !! k) <-> response_times t <> []) response_time_keys /\
    Forall (fun k => is_Some (st !! k) <-> response_sizes t <> []) size_keys /\
    Forall (fun k => is_Some (st !! k) <-> dns_times t <> []) dns_keys /\
    Forall (fun k => is_Some (st !! k) <-> connect_times t <> []) connect_keys.
Proof.
  intros Hne Hclock. destruct (generate_statistics_is_Some t Hclock) as [st Hst].
  destruct (generate_statistics_cases t st Hne Hst)
    as (n1 & n2 & n3 & rate & dur & rps & thr & dist & rt & sz & dns & con
        & Heq & _ & _ & _ & Hcases).
  exists st. split; [exact Hst|]. subst st. clear Hst.
  assert (Hyes : forall (P : Prop) (m : gmap string value) k v,
            P -> m !! k = Some v -> (is_Some (m !! k) <-> P)).
  { intros P m k v HP ->. split; eauto. }
  assert (Hno : forall (P : Prop) (m : gmap string value) k,
            ~ P -> m !! k = None -> (is_Some (m !! k) <-> P)).
  { intros P m k HP ->. split; [intros [? ?]; discriminate | tauto]. }
  statistics_cases Hcases;
    repeat split;
    repeat (constructor;
            [ first [ eapply Hyes; [assumption | vm_compute; reflexivity]
                    | eapply Hno; [tauto | vm_compute; reflexivity] ] |]);
    constructor.
Qed.

(** The hypotheses of X11 hold for the run of four requests. *)
Lemma optional_sections_witness :
  exists st,
    generate_statistics run_four = Some st /\
    Forall (fun k => is_Some (st !! k) <-> dns_times run_four <> []) dns_keys.
Proof.
  destruct (optional_sections run_four) as (st & Hst & _ & _ & Hdns & _);
    [vm_compute; discriminate | vm_compute; reflexivity |].
  exists st. auto.
Defined.


End statistics_more.

(** * From the run to its statistics *)

Section finished.

Lemma clock_moved_elapsed t : ~ (elapsed t == 0)%Q -> clock_moved t = true.
Proof.
  intros H. unfold clock_moved. apply orb_true_iff. right.
  apply negb_true_iff, not_true_iff_false. intros Hq. apply Qeq_bool_iff in Hq.
  contradiction.
Qed.

(** X12. From the run to its statistics. For a fresh tester with a URL,
    a worker and a request to make, once all the workers have left and
    the end time differs from the start time (neither being [0.0]),
    [generate_statistics] returns a dict whose [total_requests] is the
    number of request IDs of the run and whose [requests_per_second]
    is that number over the duration. *)
Theorem statistics_of_a_finished_run (t : StressTester) (now finish : Q)
    (trace_dns trace_connect : option Q) (schedule : list (nat * Attempt)) :
  urls t <> [] -> results t = [] ->
  (0 < config_concurrency t)%nat -> (0 < num_requests t)%nat ->
  ~ (now == 0)%Q -> ~ (finish == 0)%Q -> ~ (finish == now)%Q ->
  let p := run schedule (start_workers now t) in
  Forall (fun st => st = Exited) (workers p) ->
  exists st rps,
    generate_statistics (end_run finish trace_dns trace_connect p) = Some st /\
    st !! "total_requests" = Some (Num (inject_Z (Z.of_nat (num_requests t)))) /\
    st !! "requests_per_second" = Some (Num rps) /\
    (rps * (finish - now) == inject_Z (Z.of_nat (num_requests t)))%Q.
Proof.
  intros Hne Hres Hc Hn Hnow Hfin Hclock p Hex.
  destruct (exited_queue_empty t now schedule Hne Hc Hex) as [Hq _].
  destruct (exited_all_issued t now schedule Hne Hres Hex Hq) as [_ Hlen].
  fold p in Hlen.
  destruct (run_timings schedule (start_workers now t)) as (_ & _ & Hstart).
  fold p in Hstart.
  set (t' := end_run finish trace_dns trace_connect p).
  assert (Hr : results t' = results (tester p)) by reflexivity.
  assert (Hs : start_time t' = Some now) by exact Hstart.
  assert (He : end_time t' = Some finish) by reflexivity.
  assert (Hel : elapsed t' = (finish - now)%Q).
  { unfold elapsed. now rewrite Hs, He. }
  assert (Hne' : results t' <> []).
  { rewrite Hr. intros Hnil. rewrite Hnil in Hlen. cbn in Hlen. lia. }
  assert (Hmoved : clock_moved t' = true).
  { apply clock_moved_elapsed. rewrite Hel. intros H. apply Hclock. lra. }
  assert (Htimed : timed t' = true).
  { unfold timed. rewrite Hs, He. cbn. apply andb_true_iff.
    split; apply negb_true_iff, not_true_iff_false; intros H;
      apply Qeq_bool_iff in H; contradiction. }
  destruct (generate_statistics_is_Some t' Hmoved) as [st Hst].
  destruct (requests_per_second_timed t' st Hne' Hst Htimed) as (rps & Hrps & Hmul).
  destruct (generate_statistics_report t' st Hne' Hst) as (Htot & _).
  exists st, rps. split; [exact Hst|].
  assert (Hof : of_len (results t') = inject_Z (Z.of_nat (num_requests t))).
  { unfold of_len. now rewrite Hr, Hlen. }
  rewrite Hof in Htot, Hmul. rewrite Hel in Hmul.
  split; [exact Htot|]. split; [exact Hrps | exact Hmul].
Qed.

(** The hypotheses of X12 hold in scenario B, ended one second after
    its start. *)
Lemma statistics_of_a_finished_run_witness :
  let p := run scenario_B_schedule (start_workers 100 scenario_B_tester) in
  exists st rps,
    generate_statistics (end_run 101 None None p) = Some st /\
    st !! "total_requests"
      = Some (Num (inject_Z (Z.of_nat (num_requests scenario_B_tester)))) /\
    st !! "requests_per_second" = Some (Num rps) /\
    (rps * (101 - 100) == inject_Z (Z.of_nat (num_requests scenario_B_tester)))%Q.
Proof.
  apply (statistics_of_a_finished_run scenario_B_tester 100 101 None None
           scenario_B_schedule);
    [ discriminate | reflexivity | vm_compute; lia | vm_compute; lia
    | intros H; vm_compute in H; discriminate H
    | intros H; vm_compute in H; discriminate H
    | intros H; vm_compute in H; discriminate H
    | vm_compute; repeat constructor ].
Defined.

End finished.

(** * The cut of a duration-capped run *)

Section cancellation.

#[local] Arguments running : simpl never.
#[local] Arguments in_flight_ids : simpl never.






End cancellation.

(** * The error distribution *)

Section errors.

Variable render : Error -> string.

Lemma total_errors_insert (m : gmap (option string) Z) k v :
  m !! k = None -> total_errors (<[k := v]> m) = v + total_errors m.
Proof.
  intros Hk. unfold total_errors.
  rewrite map_fold_insert_L; [reflexivity | intros; lia | assumption].
Qed.

Lemma total_errors_delete (m : gmap (option string) Z) k v :
  m !! k = Some v -> total_errors m = v + total_errors (delete k m).
Proof.
  intros Hk. unfold total_errors.
  rewrite (map_fold_delete_L _ _ k v m); [reflexivity | intros; lia | assumption].
Qed.

Lemma total_errors_count_error (m : gmap (option string) Z) r :
  total_errors (count_error render m r) = total_errors m + 1.
Proof.
  unfold count_error. cbn zeta.
  destruct (m !! (render <$> error r)) as [v|] eqn:E; simpl.
  - rewrite <- insert_delete_eq.
    rewrite total_errors_insert by apply lookup_delete_eq.
    rewrite (total_errors_delete m _ v E). lia.
  - rewrite total_errors_insert by assumption. lia.
Qed.

Lemma total_errors_foldl (m : gmap (option string) Z) l :
  total_errors (foldl (count_error render) m l) = total_errors m + Z.of_nat (length l).
Proof.
  revert m. induction l as [|r l IH]; intros m; simpl.
  - lia.
  - rewrite IH, total_errors_count_error. lia.
Qed.

Lemma count_error_lookup (m : gmap (option string) Z) r k :
  count_error render m r !! k =
  if decide (render <$> error r = k) then Some (default 0 (m !! k) + 1) else m !! k.
Proof.
  unfold count_error. cbn zeta. destruct (decide (render <$> error r = k)) as [->|Hne].
  - now rewrite lookup_insert_eq.
  - now rewrite lookup_insert_ne.
Qed.

Lemma foldl_count_error_lookup (m : gmap (option string) Z) l k :
  (forall v, m !! k = Some v -> 0 < v) ->
  let n := default 0 (m !! k)
           + Z.of_nat (length (filter (fun r => render <$> error r = k) l)) in
  foldl (count_error render) m l !! k = if Z.eqb n 0 then None else Some n.
Proof.
  revert m. induction l as [|r l IH]; intros m Hpos; simpl.
  - rewrite Z.add_0_r.
    destruct (m !! k) as [v|] eqn:E; simpl; [|reflexivity].
    specialize (Hpos v eq_refl). destruct (Z.eqb_spec v 0); [lia | reflexivity].
  - rewrite IH.
    + rewrite count_error_lookup. rewrite filter_cons.
      destruct (decide (render <$> error r = k)); simpl; [|reflexivity].
      replace (default 0 (m !! k) + 1
               + Z.of_nat (length (filter (fun r => render <$> error r = k) l)))
        with (default 0 (m !! k)
              + Z.pos (Pos.of_succ_nat
                         (length (filter (fun r => render <$> error r = k) l))))
        by lia.
      reflexivity.
    + intros v. rewrite count_error_lookup.
      destruct (decide (render <$> error r = k)); [|apply Hpos].
      intros [= <-]. destruct (m !! k) as [v'|] eqn:E; simpl; [|lia].
      specialize (Hpos v' eq_refl). lia.
Qed.

Lemma failed_with_error_None (t : StressTester) :
  Forall (fun r => render <$> error r <> None) (failed_requests t).
Proof.
  unfold failed_requests. apply Forall_forall. intros r Hin.
  apply list_elem_of_filter in Hin as [Hf _]. unfold succeeded in Hf.
  destruct (error r); [discriminate | discriminate].
Qed.

Lemma filter_error_absent (k : option string) (l : list RequestResult) :
  Forall (fun r => render <$> error r <> k) l ->
  filter (fun r => render <$> error r = k) l = [].
Proof.
  induction 1 as [|r l Hr _ IH]; [reflexivity|].
  rewrite filter_cons_False by exact Hr. exact IH.
Qed.

(** X24. The two distributions count every result once. Whatever the
    rendering of the error messages, the values of the error
    distribution add up to the number of failed requests, and with the
    values of the status-code distribution to the number of results;
    each message is mapped to the number of failed results that carry
    it, and is absent when there is none; there is no entry for
    [None]. *)
Theorem distributions_count_every_result (t : StressTester) :
  let errors := error_distribution render (failed_requests t) in
  total_errors errors = Z.of_nat (length (failed_requests t)) /\
  total_count (status_code_distribution (successful_requests t)) + total_errors errors
  = Z.of_nat (length (results t)) /\
  errors !! None = None /\
  forall msg,
    errors !! Some msg =
    match length (with_error render msg (failed_requests t)) with
    | O => None
    | S n => Some (Z.of_nat (S n))
    end.
Proof.
  intros errors.
  assert (Htotal : total_errors errors = Z.of_nat (length (failed_requests t))).
  { unfold errors, error_distribution. rewrite total_errors_foldl.
    unfold total_errors. now rewrite map_fold_empty. }
  assert (Hlookup : forall k,
    errors !! k =
    match length (filter (fun r => render <$> error r = k) (failed_requests t)) with
    | O => None
    | S n => Some (Z.of_nat (S n))
    end).
  { intros k. unfold errors, error_distribution.
    rewrite foldl_count_error_lookup by (intros v; rewrite lookup_empty; discriminate).
    rewrite lookup_empty. simpl.
    destruct (length (filter _ (failed_requests t))); reflexivity. }
  split; [exact Htotal|]. split; [|split].
  - rewrite Htotal, total_count_distribution, <- Nat2Z.inj_add.
    now rewrite length_successful_failed.
  - rewrite Hlookup, (filter_error_absent None _ (failed_with_error_None t)). reflexivity.
  - intros msg. apply Hlookup.
Qed.

End errors.

(** * The step load *)

Section step_load.

Lemma ramp_rounds_done max_c increment current :
  1 <= increment -> max_c <= current -> current <= max_c ->
  ramp_rounds max_c increment current = 0%nat.
Proof.
  intros Hi H1 H2. unfold ramp_rounds. replace (max_c - current + increment - 1)
    with (increment - 1) by lia.
  rewrite Z.div_small by lia. reflexivity.
Qed.

Lemma ramp_rounds_next max_c increment current :
  1 <= increment -> current < max_c ->
  ramp_rounds max_c increment current
  = S (ramp_rounds max_c increment (current + Z.min increment (max_c - current))).
Proof.
  intros Hi Hlt. unfold ramp_rounds.
  destruct (Z.le_gt_cases increment (max_c - current)) as [Hle|Hgt].
  - rewrite Z.min_l by lia.
    replace (max_c - current + increment - 1)
      with ((max_c - (current + increment) + increment - 1) + 1 * increment) by lia.
    rewrite Z.div_add by lia.
    rewrite Z2Nat.inj_add; [| apply Z.div_pos |]; lia.
  - rewrite Z.min_r by lia.
    replace (max_c - (current + (max_c - current)) + increment - 1)
      with (increment - 1) by lia.
    rewrite (Z.div_small (increment - 1)) by lia.
    replace (max_c - current + increment - 1)
      with ((max_c - current - 1) + 1 * increment) by lia.
    rewrite Z.div_add by lia. rewrite (Z.div_small (max_c - current - 1)) by lia.
    reflexivity.
Qed.

Lemma ramp_up_spec fuel : forall max_c increment r,
  1 <= increment -> current_c r <= max_c ->
  ramp_up fuel max_c increment r
  = if (ramp_rounds max_c increment (current_c r) <=? fuel)%nat
    then Some (mkRamp max_c (created r + Z.to_nat (max_c - current_c r))
                      (sleeps r + ramp_rounds max_c increment (current_c r)))
    else None.
Proof.
  induction fuel as [|fuel IH]; intros max_c increment [c n k] Hi Hle;
    cbn [current_c created sleeps] in *.
  - cbn [ramp_up current_c]. destruct (Z.ltb_spec c max_c) as [Hlt|Hge].
    + rewrite (ramp_rounds_next _ _ _ Hi Hlt). reflexivity.
    + rewrite (ramp_rounds_done _ _ _ Hi Hge Hle). cbn.
      f_equal. f_equal; lia.
  - cbn [ramp_up current_c]. destruct (Z.ltb_spec c max_c) as [Hlt|Hge].
    + rewrite IH; unfold ramp_round; cbn [current_c created sleeps]; [|lia..].
      rewrite (ramp_rounds_next max_c increment c Hi Hlt).
      set (c' := c + Z.min increment (max_c - c)).
      change (S (ramp_rounds max_c increment c') <=? S fuel)%nat
        with (ramp_rounds max_c increment c' <=? fuel)%nat.
      destruct (ramp_rounds max_c increment c' <=? fuel)%nat; [|reflexivity].
      f_equal. f_equal; unfold c'; lia.
    + rewrite (ramp_rounds_done _ _ _ Hi Hge Hle). cbn.
      f_equal. f_equal; lia.
Qed.

(** X13. The ramp of the step load. With an increment of at least 1 and
    [step_initial <= step_max], the loop of [ramp_up] ends after
    exactly [ceil((step_max - step_initial) / step_increment)] pauses,
    with [current_c = step_max]; it has then created [step_max -
    step_initial] workers, which with a non-negative [step_initial]
    makes [step_max] workers in all. *)
Theorem ramp_up_reaches_max (initial max_c increment : Z) (fuel : nat) :
  1 <= increment -> initial <= max_c ->
  let rounds := ramp_rounds max_c increment initial in
  ramp_up fuel max_c increment (start_ramp initial)
  = (if (rounds <=? fuel)%nat
     then Some (mkRamp max_c (Z.to_nat initial + Z.to_nat (max_c - initial)) rounds)
     else None) /\
  (0 <= initial -> (Z.to_nat initial + Z.to_nat (max_c - initial))%nat = Z.to_nat max_c).
Proof.
  intros Hi Hle rounds. split; [|lia].
  rewrite ramp_up_spec by assumption. reflexivity.
Qed.

(** The hypotheses of X13 hold from 1 to 10 workers by steps of 3:
    three pauses. *)
Lemma ramp_up_reaches_max_witness :
  ramp_up 5 10 3 (start_ramp 1) = Some (mkRamp 10 10 3).
Proof.
  destruct (ramp_up_reaches_max 1 10 3 5) as [H _]; [lia | lia | exact H].
Defined.

(** X14. With an increment of 0 or less, and fewer workers than
    [step_max], the loop of [ramp_up] never ends: it is still running
    after any number of rounds. *)
Theorem ramp_up_never_ends (max_c increment : Z) (r : Ramp) (fuel : nat) :
  increment <= 0 -> current_c r < max_c ->
  ramp_up fuel max_c increment r = None.
Proof.
  intros Hi. revert r. induction fuel as [|fuel IH]; intros r Hlt; cbn [ramp_up].
  - destruct (Z.ltb_spec (current_c r) max_c); [reflexivity | lia].
  - destruct (Z.ltb_spec (current_c r) max_c); [|lia].
    apply IH. unfold ramp_round. cbn [current_c]. lia.
Qed.

(** The hypotheses of X14 hold from 1 to 10 workers by steps of 0. *)
Lemma ramp_up_never_ends_witness :
  ramp_up 100 10 0 (start_ramp 1) = None.
Proof. apply (ramp_up_never_ends 10 0 (start_ramp 1) 100); [lia | cbn; lia]. Defined.

(** The loop ends at once when no worker is missing: [step_max] does
    not bound [step_initial]. *)
Lemma ramp_up_at_once (initial max_c increment : Z) (fuel : nat) :
  max_c <= initial ->
  ramp_up fuel max_c increment (start_ramp initial) = Some (start_ramp initial).
Proof.
  intros Hge. destruct fuel; cbn [ramp_up start_ramp current_c];
    destruct (Z.ltb_spec initial max_c); (reflexivity || lia).
Qed.

End step_load.

(** * The configuration *)

Section config.

Lemma split_once_spec sep s k v :
  split_once sep s = Some (k, v) <-> s = k ++ sep :: v /\ sep ∉ k.
Proof.
  revert k. induction s as [|c s IH]; intros k; cbn.
  - split; [discriminate | intros [H _]; now destruct k].
  - destruct (N.eqb_spec c sep) as [->|Hne].
    + split.
      * intros [= <- <-]. split; [reflexivity | apply not_elem_of_nil].
      * intros [H Hk]. destruct k as [|c' k]; [now injection H as <-|].
        injection H as <- _. exfalso. apply Hk. left.
    + split.
      * destruct (split_once sep s) as [[k' v']|] eqn:E; [|discriminate].
        cbn. intros [= <- <-]. destruct (proj1 (IH k') eq_refl) as [-> Hk].
        split; [reflexivity|]. intros Hin.
        apply elem_of_cons in Hin as [->|Hin]; auto.
      * intros [H Hk]. destruct k as [|c' k]; [injection H as ->; congruence|].
        injection H as <- H. assert (Hk' : sep ∉ k).
        { intros Hin. apply Hk. now right. }
        rewrite (proj2 (IH k) (conj H Hk')). reflexivity.
Qed.

Lemma split_once_None sep s : split_once sep s = None <-> sep ∉ s.
Proof.
  induction s as [|c s IH]; cbn.
  - split; [intros _; apply not_elem_of_nil | reflexivity].
  - destruct (N.eqb_spec c sep) as [->|Hne].
    + split; [discriminate | intros H; exfalso; apply H; left].
    + destruct (split_once sep s) as [[k v]|]; cbn.
      * split; [discriminate|]. intros H. exfalso.
        assert (Hs : sep ∉ s) by (intros Hin; apply H; now right).
        apply IH in Hs. discriminate.
      * split; [|reflexivity]. intros _ Hin.
        apply elem_of_cons in Hin as [->|Hin]; [congruence|].
        now apply (proj1 IH).
Qed.

(** X15. [parse_auth_from_args] splits at the first colon: it returns
    the pair [(username, password)] exactly when the text is
    [username:password] with no colon in [username] (the password may
    hold colons); it raises exactly when the text is not empty and
    holds no colon, and returns [None] for an empty text. *)
Theorem parse_auth_first_colon (auth : text) :
  (forall username password,
     parse_auth_from_args (Some auth) = Some (Some (username, password)) <->
     auth = username ++ colon :: password /\ colon ∉ username) /\
  (parse_auth_from_args (Some auth) = None <-> auth <> [] /\ colon ∉ auth) /\
  (parse_auth_from_args (Some auth) = Some None <-> auth = []).
Proof.
  unfold parse_auth_from_args. destruct auth as [|c auth].
  - cbn. split; [|split].
    + intros u p. split; [discriminate|]. intros [H _]. now destruct u.
    + split; [discriminate | now intros [? _]].
    + split; reflexivity.
  - assert (Hne : c :: auth <> []) by discriminate.
    change (nonempty_text (Some (c :: auth))) with true. cbv iota.
    change (default [] (Some (c :: auth))) with (c :: auth).
    generalize dependent (c :: auth). clear c auth. intros a Hne.
    split; [|split].
    + intros u p. rewrite <- split_once_spec.
      destruct (split_once colon a) as [[u' p']|].
      * split; congruence.
      * split; intros H; discriminate H.
    + rewrite <- split_once_None.
      destruct (split_once colon a) as [[u' p']|].
      * split; [discriminate | intros [_ ?]; discriminate].
      * split; [now split | reflexivity].
    + destruct (split_once colon a) as [[u' p']|]; split; (discriminate || congruence).
Qed.

Lemma last_header_snoc (k : text) (l : list text) (h : text) :
  last_header k (l ++ [h])
  = match header_named k h with
    | Some v => Some v
    | None => last_header k l
    end.
Proof.
  unfold last_header. rewrite reverse_app. change (reverse [h]) with [h].
  cbn -[header_named]. now destruct (header_named k h).
Qed.

Lemma foldl_add_header_lookup (k : text) (l : list text) (m : gmap text text) :
  foldl add_header m l !! k = default (m !! k) (Some <$> last_header k l).
Proof.
  revert m. induction l as [|h l IH] using rev_ind; intros m; [reflexivity|].
  rewrite foldl_app, last_header_snoc. cbn [foldl].
  unfold add_header, header_named.
  destruct (split_once colon h) as [[key value]|]; cbn [mbind option_bind].
  - destruct (decide (strip key = k)) as [<-|Hne].
    + cbn. apply lookup_insert_eq.
    + rewrite lookup_insert_ne by assumption. apply IH.
  - apply IH.
Qed.

(** X16. The headers of a request. For every name, the dict returned by
    [parse_headers_from_args] holds the value of the last [-H] header
    with that name (name and value are the stripped texts around the
    first colon; a header without colon is skipped), except that a
    non-empty [--accept] is the value of [Accept] whatever the [-H]
    headers say. *)
Theorem parse_headers_last_wins (header : list text) (accept : option text) (k : text) :
  parse_headers_from_args header accept !! k
  = if (nonempty_text accept && bool_decide (k = ascii_text "Accept"))%bool
    then accept
    else last_header k header.
Proof.
  unfold parse_headers_from_args.
  assert (H : foldl add_header ∅ header !! k = last_header k header).
  { rewrite foldl_add_header_lookup, lookup_empty.
    now destruct (last_header k header). }
  destruct (nonempty_text accept) eqn:Ha; cbn [andb]; [|exact H].
  destruct accept as [[|c a]|]; try discriminate. cbn [default].
  destruct (bool_decide_reflect (k = ascii_text "Accept")) as [->|Hne].
  - apply lookup_insert_eq.
  - rewrite lookup_insert_ne by congruence. exact H.
Qed.

(** X17. A configuration that [create_test_config_from_args] returns
    is validated: its concurrency does not exceed its number of
    requests, it does not hold both a body and a body file, its URL is
    the first one of the command line, and its authentication and
    headers are the parsed ones. A number of requests below the
    concurrency is rejected whatever the other arguments, a duration
    included. *)
Theorem validated_config (args : Args) :
  (forall config,
     create_test_config_from_args args = Some config ->
     c_concurrency config <= c_num_requests config /\
     (nonempty_text (c_data config) && nonempty_text (c_data_file config) = false)%bool /\
     a_urls args !! 0%nat = Some (c_url config) /\
     parse_auth_from_args (a_auth args) = Some (c_auth config) /\
     c_headers config = parse_headers_from_args (a_header args) (a_accept args) /\
     c_num_requests config = a_num_requests args /\
     c_concurrency config = a_concurrency args /\
     c_duration config = a_duration args) /\
  (a_num_requests args < a_concurrency args ->
   create_test_config_from_args args = None).
Proof.
  unfold create_test_config_from_args. split.
  - intros config.
    destruct (parse_auth_from_args (a_auth args)) as [auth|]; [|discriminate].
    cbn [mbind option_bind].
    destruct (Z.ltb_spec (a_num_requests args) (a_concurrency args)); [discriminate|].
    destruct (nonempty_text (a_data args) && nonempty_text (a_data_file args))%bool
      eqn:Hd; [discriminate|].
    rewrite index_nat by lia. change (Z.to_nat 0) with 0%nat.
    destruct (a_urls args !! 0%nat) as [url|]; [|discriminate].
    intros [= <-]. cbn. now repeat split.
  - intros Hlt. destruct (parse_auth_from_args (a_auth args)); [|reflexivity].
    cbn [mbind option_bind].
    destruct (Z.ltb_spec (a_num_requests args) (a_concurrency args)); [reflexivity | lia].
Qed.

Lemma unit_of_unit c :
  (N.eqb (unit_of c) 0x73 || N.eqb (unit_of c) 0x6D || N.eqb (unit_of c) 0x68)%bool
  = (N.eqb c 0x73 || N.eqb c 0x53 || N.eqb c 0x6D || N.eqb c 0x4D
     || N.eqb c 0x68 || N.eqb c 0x48)%bool.
Proof.
  unfold unit_of.
  destruct (N.eqb_spec c 0x53) as [->|?]; [reflexivity|].
  destruct (N.eqb_spec c 0x4D) as [->|?]; [reflexivity|].
  destruct (N.eqb_spec c 0x48) as [->|?]; [reflexivity|].
  cbn [orb]. now rewrite !orb_false_r.
Qed.

(** X18. [parse_duration] reads the last character as the unit: the
    empty text gives [None]; a text that does not end in [s], [m] or
    [h] (in either case) is rejected, a bare number included; and a
    number followed by [m] or [h] is 60 or 3600 times what it is
    followed by [s]. *)
Theorem parse_duration_units (float : text -> option Q) (front : text) (c : N) :
  let seconds := float front in
  parse_duration float [] = Some None /\
  (c ∉ [0x73; 0x53; 0x6D; 0x4D; 0x68; 0x48]%N ->
   parse_duration float (front ++ [c]) = None) /\
  (c ∈ [0x73; 0x53]%N ->
   parse_duration float (front ++ [c]) = (fun v => Some v) <$> seconds) /\
  (c ∈ [0x6D; 0x4D]%N ->
   parse_duration float (front ++ [c]) = (fun v => Some (v * 60)%Q) <$> seconds) /\
  (c ∈ [0x68; 0x48]%N ->
   parse_duration float (front ++ [c]) = (fun v => Some (v * 3600)%Q) <$> seconds).
Proof.
  intros seconds. split; [reflexivity|].
  unfold parse_duration. rewrite reverse_app. change (reverse [c]) with [c].
  cbn [app]. rewrite reverse_involutive. fold seconds.
  repeat split.
  - intros Hc. destruct seconds as [v|]; [|reflexivity]. cbn [mbind option_bind].
    pose proof (unit_of_unit c) as Hu.
    destruct (N.eqb_spec c 0x73) as [->|?]; [exfalso; apply Hc; set_solver|].
    destruct (N.eqb_spec c 0x53) as [->|?]; [exfalso; apply Hc; set_solver|].
    destruct (N.eqb_spec c 0x6D) as [->|?]; [exfalso; apply Hc; set_solver|].
    destruct (N.eqb_spec c 0x4D) as [->|?]; [exfalso; apply Hc; set_solver|].
    destruct (N.eqb_spec c 0x68) as [->|?]; [exfalso; apply Hc; set_solver|].
    destruct (N.eqb_spec c 0x48) as [->|?]; [exfalso; apply Hc; set_solver|].
    cbn [orb] in Hu. apply orb_false_iff in Hu as [Hu ->].
    apply orb_false_iff in Hu as [-> ->]. reflexivity.
  - intros Hc. destruct seconds as [v|]; [|reflexivity].
    apply elem_of_cons in Hc as [->|Hc]; [reflexivity|].
    apply list_elem_of_singleton in Hc as ->. reflexivity.
  - intros Hc. destruct seconds as [v|]; [|reflexivity].
    apply elem_of_cons in Hc as [->|Hc]; [reflexivity|].
    apply list_elem_of_singleton in Hc as ->. reflexivity.
  - intros Hc. destruct seconds as [v|]; [|reflexivity].
    apply elem_of_cons in Hc as [->|Hc]; [reflexivity|].
    apply list_elem_of_singleton in Hc as ->. reflexivity.
Qed.

End config.

(** * More of [make_request] *)

Section request_more.

Lemma open_form_files_spec files l e :
  open_form_files files l = Some e <-> first_unreadable files l e.
Proof.
  induction l as [|f l IH]; cbn [open_form_files].
  - split; [discriminate|]. intros (before & f & after & H & _). now destruct before.
  - destruct (split_eq f) as [[k path]|] eqn:Hs.
    + destruct (files path) as [content|e0] eqn:Hf.
      * rewrite IH. split.
        -- intros (before & f' & after & -> & Hun & Hall).
           exists (f :: before), f', after. split; [reflexivity|]. split; [exact Hun|].
           constructor; [|exact Hall].
           intros e' (k' & path' & Hs' & Hf'). congruence.
        -- intros (before & f' & after & H & Hun & Hall).
           destruct before as [|f0 before]; cbn in H; injection H as <- ->.
           ++ destruct Hun as (k' & path' & Hs' & Hf'). congruence.
           ++ apply Forall_cons in Hall as [_ Hall]. now exists before, f', after.
      * split.
        -- intros [= <-]. exists [], f, l. split; [reflexivity|].
           split; [now exists k, path | constructor].
        -- intros (before & f' & after & H & Hun & Hall).
           destruct before as [|f0 before]; cbn in H; injection H as <- ->.
           ++ destruct Hun as (k' & path' & Hs' & Hf'). congruence.
           ++ apply Forall_cons in Hall as [Hf0 _]. exfalso.
              apply (Hf0 e0). now exists k, path.
    + rewrite IH. split.
      * intros (before & f' & after & -> & Hun & Hall).
        exists (f :: before), f', after. split; [reflexivity|]. split; [exact Hun|].
        constructor; [|exact Hall].
        intros e' (k' & path' & Hs' & Hf'). congruence.
      * intros (before & f' & after & H & Hun & Hall).
        destruct before as [|f0 before]; cbn in H; injection H as <- ->.
        -- destruct Hun as (k' & path' & Hs' & Hf'). congruence.
        -- apply Forall_cons in Hall as [_ Hall]. now exists before, f', after.
Qed.

Lemma assertions_not_file tester status data rt e :
  assertions tester status data rt <> Some (FileError e).
Proof.
  unfold assertions, check_max_rt, check_body, check_status.
  destruct (assert_max_rt tester) as [limit|];
    [destruct (Py.Qltb limit rt); [discriminate|]|];
    (destruct (assert_body_contains tester) as [[|c needle]|];
     [| destruct (contains _ _); [|discriminate] |];
     (destruct (assert_status tester) as [expected|];
      [destruct (Z.eqb status expected); discriminate | discriminate])).
Qed.

(** X19. The error of a result is a file error exactly when the request
    is a form and one of its uploads cannot be opened; the message is
    that of the first such upload, in the order of the command line.
    The result then has status code 0, response time 0 and size 0, and
    nothing is recorded in the tester. *)
Theorem file_error_first_unreadable_upload (tester : StressTester) (att : Attempt)
    (u m e : string) :
  let r := fst (make_request tester att u m) in
  (error r = Some (FileError e) <->
   use_form tester = true /\ first_unreadable (at_files att) (form_file tester) e) /\
  (error r = Some (FileError e) ->
   status_code r = 0 /\ (response_time r == 0)%Q /\ response_size r = 0 /\
   snd (make_request tester att u m) = tester).
Proof.
  intros r. unfold r, make_request, prepare. fold (use_form tester).
  rewrite <- open_form_files_spec.
  assert (Hform : use_form tester
                  = match form tester, form_file tester with
                    | [], [] => false | _, _ => true end) by reflexivity.
  destruct (form tester) as [|f fs], (form_file tester) as [|g gs];
    rewrite Hform; clear Hform.
  - (* a plain body *)
    assert (Hno : forall x : RequestResult * StressTester,
              (exists msg, error (fst x) = Some (Exc msg)) \/
              (exists s d rt, error (fst x) = assertions tester s d rt) ->
              (error (fst x) = Some (FileError e) <->
               false = true /\ open_form_files (at_files att) [] = Some e) /\
              (error (fst x) = Some (FileError e) ->
               status_code (fst x) = 0 /\ (response_time (fst x) == 0)%Q /\
               response_size (fst x) = 0 /\ snd x = tester)).
    { intros x Hx.
      assert (Hne : error (fst x) <> Some (FileError e)).
      { destruct Hx as [[msg ->] | (s & d & rt & ->)];
          [discriminate | apply assertions_not_file]. }
      split; [split; [contradiction | intros [? _]; discriminate] | contradiction]. }
    destruct (nonempty_str (config_data tester));
      [|destruct (nonempty_str (config_data_file tester));
        [destruct (at_files att _)|]];
      try (destruct (at_http att); apply Hno; cbn; eauto);
      apply Hno; cbn; eauto.
  - destruct (open_form_files (at_files att) (g :: gs)) as [e0|] eqn:Ho.
    + cbn. split.
      * split; [intros [= ->]; now split | intros [_ [= ->]]; reflexivity].
      * intros _. repeat split; reflexivity.
    + destruct (at_http att); cbn.
      * split; [split; [|intros [_ ?]; discriminate] | ];
          intros H; now apply assertions_not_file in H.
      * split; [split; [discriminate | intros [_ ?]; discriminate] | discriminate].
  - cbn. split; [split; [|intros [_ ?]; discriminate]|].
    + destruct (at_http att); cbn; [|discriminate].
      intros H; now apply assertions_not_file in H.
    + destruct (at_http att); cbn; [|discriminate].
      intros H; now apply assertions_not_file in H.
  - destruct (open_form_files (at_files att) (g :: gs)) as [e0|] eqn:Ho.
    + cbn. split.
      * split; [intros [= ->]; now split | intros [_ [= ->]]; reflexivity].
      * intros _. repeat split; reflexivity.
    + destruct (at_http att); cbn.
      * split; [split; [|intros [_ ?]; discriminate] | ];
          intros H; now apply assertions_not_file in H.
      * split; [split; [discriminate | intros [_ ?]; discriminate] | discriminate].
Qed.

Lemma startswith_spec needle hay :
  startswith needle hay = true <-> exists post, hay = needle ++ post.
Proof.
  revert hay. induction needle as [|a needle IH]; intros hay; cbn.
  - split; [intros _; now exists hay | reflexivity].
  - destruct hay as [|b hay]; [split; [discriminate | intros [? ?]; discriminate]|].
    rewrite andb_true_iff, IH, N.eqb_eq. split.
    + intros [-> [post ->]]. now exists post.
    + intros [post [= -> ->]]. split; [reflexivity | now exists post].
Qed.

Lemma contains_spec needle hay :
  contains needle hay = true <-> exists pre post, hay = pre ++ needle ++ post.
Proof.
  induction hay as [|b hay IH]; cbn [contains].
  - rewrite orb_false_r, startswith_spec. split.
    + intros [post H]. now exists [], post.
    + intros (pre & post & H). destruct pre; [now exists post|discriminate].
  - rewrite orb_true_iff, startswith_spec, IH. split.
    + intros [[post H] | (pre & post & ->)]; [now exists [], post|].
      now exists (b :: pre), post.
    + intros (pre & post & H). destruct pre as [|c pre].
      * left. now exists post.
      * right. injection H as -> ->. now exists pre, post.
Qed.

(** X20. The body assertion is a search in the decoded body: with a
    non-empty text to find, the check leaves the error as it is when
    the text occurs in the body decoded as UTF-8 (invalid bytes
    dropped), and sets the body-assertion error otherwise. On a body of
    ASCII bytes the decoded body is the list of these bytes. *)
Theorem body_assertion_substring (tester : StressTester) (data : list Byte.byte)
    (needle : text) (error : option Error) :
  assert_body_contains tester = Some needle -> needle <> [] ->
  ((exists pre post, utf8.decode data = pre ++ needle ++ post) ->
   check_body tester data error = error) /\
  (~ (exists pre post, utf8.decode data = pre ++ needle ++ post) ->
   check_body tester data error = Some (AssertBody needle)) /\
  (Forall (fun b => (Byte.to_N b < 128)%N) data ->
   utf8.decode data = map Byte.to_N data).
Proof.
  intros Hn Hne. unfold check_body. rewrite Hn.
  destruct needle as [|c needle]; [congruence|].
  pose proof (contains_spec (c :: needle) (utf8.decode data)) as Hc.
  destruct (contains (c :: needle) (utf8.decode data)).
  - split; [reflexivity|]. split; [|apply decode_ascii].
    intros H. exfalso. apply H, Hc. reflexivity.
  - split; [|split; [reflexivity | apply decode_ascii]].
    intros H. apply Hc in H. discriminate.
Qed.

(** The hypotheses of X20 hold for the text [ok] and the body [ok!]. *)
Lemma body_assertion_substring_witness :
  check_body tester_two_assertions [x6f; x6b; x21] None = None.
Proof.
  apply (proj1 (body_assertion_substring tester_two_assertions [x6f; x6b; x21]
                  (ascii_text "ok") None eq_refl ltac:(discriminate))).
  exists [], [33%N]. reflexivity.
Defined.

End request_more.
